(** * db-agent: the Wait-For Graph Detector, the tool-dispatch layer and the
      Deadlock Trigger Coordinator, embedded from the Python sources.

    - [src/db_agent/db_connection.py]  : [convert_decimals], [DatabaseConnection]
    - [src/db_agent/server.py]         : [DatabaseAgent] and the tool wrappers
    - [scripts/01_trigger_deadlock.py] : [txn1], [txn2], [run_deadlock_round]

    Conventions of the embedding.
    - Python values are the terms of [pyval]; a dict is an association list in
      insertion order.  A float is represented by the rational it denotes
      (binary rounding error is outside the model).
    - An operation that can raise returns a [result]; the exceptions of the
      model are the subclasses of Python's [Exception] that the servicing code
      can raise ([psycopg2.Error] with its [pgcode], and every other one with
      its class name).
    - The PostgreSQL server is an [Engine]: a point-in-time content of
      [pg_locks] and [pg_stat_activity], the order in which its plan delivers
      the rows of the blocking query, the answers to the other statements and
      the failures it injects.
    - The configuration that [DatabaseConnection()] reads from the process
      environment is taken as valid: the constructor returns. *)

From Stdlib Require Import List String Ascii ZArith QArith Qround Bool Lia Sorted.
From Stdlib Require Import Permutation.
From Stdlib Require Import DecimalString.
Import ListNotations.
Open Scope string_scope.
Open Scope Z_scope.

Set Implicit Arguments.
Set Warnings "-register-all".

(* ------------------------------------------------------------------------- *)
(** ** Python values and exceptions *)

Module Py.

Inductive pyval : Type :=
| PNone
| PBool (b : bool)
| PInt (z : Z)
| PFloat (q : Q)
| PDecimal (q : Q)
| PStr (s : string)
| PList (l : list pyval)
| PDict (d : list (pyval * pyval)).

(** [psycopg2.Error] derives from [Exception]; so do [KeyError], [TypeError],
    [ZeroDivisionError], ... *)
Inductive exn : Type :=
| PgError (pgcode : option string) (msg : string)
| PyError (cls : string) (msg : string).

Definition str_exn (e : exn) : string :=
  match e with PgError _ m => m | PyError _ m => m end.

Definition is_psycopg2_Error (e : exn) : bool :=
  match e with PgError _ _ => true | PyError _ _ => false end.

Inductive result (A : Type) : Type :=
| Ok (a : A)
| Raise (e : exn).
Arguments Ok {A} a.
Arguments Raise {A} e.

Definition rbind {A B} (r : result A) (k : A -> result B) : result B :=
  match r with Ok a => k a | Raise e => Raise e end.

Declare Scope result_scope.
Delimit Scope result_scope with result.
Notation "x <~ r ;; k" := (rbind r (fun x => k))
  (at level 100, r at next level, right associativity) : result_scope.

Definition KeyError (k : string) : exn := PyError "KeyError" ("'" ++ k ++ "'").
Definition TypeError (m : string) : exn := PyError "TypeError" m.
Definition ZeroDivisionError : exn := PyError "ZeroDivisionError" "division by zero".

(** *** Numbers *)

(** [bool] is a subclass of [int]. *)
Definition int_of (v : pyval) : option Z :=
  match v with
  | PBool b => Some (if b then 1 else 0)
  | PInt z => Some z
  | _ => None
  end.

(** Decimals do not reach arithmetic: [convert_decimals] has replaced them. *)
Definition num_of (v : pyval) : option Q :=
  match v with
  | PBool b => Some (if b then 1 else 0)%Q
  | PInt z => Some (inject_Z z)
  | PFloat q => Some q
  | _ => None
  end.

Definition py_add (a b : pyval) : result pyval :=
  match int_of a, int_of b with
  | Some x, Some y => Ok (PInt (x + y))
  | _, _ =>
      match num_of a, num_of b with
      | Some x, Some y => Ok (PFloat (x + y))
      | _, _ => Raise (TypeError "unsupported operand type(s) for +")
      end
  end.

Definition py_sub (a b : pyval) : result pyval :=
  match int_of a, int_of b with
  | Some x, Some y => Ok (PInt (x - y))
  | _, _ =>
      match num_of a, num_of b with
      | Some x, Some y => Ok (PFloat (x - y))
      | _, _ => Raise (TypeError "unsupported operand type(s) for -")
      end
  end.

(** [a / b], true division. *)
Definition py_truediv (a b : pyval) : result Q :=
  match num_of a, num_of b with
  | Some x, Some y =>
      if Qeq_bool y 0 then Raise ZeroDivisionError else Ok (x / y)%Q
  | _, _ => Raise (TypeError "unsupported operand type(s) for /")
  end.

(** [a > b] against a number. *)
Definition py_gt (a : pyval) (b : Q) : result bool :=
  match num_of a with
  | Some x => Ok (negb (Qle_bool x b))
  | None => Raise (TypeError "'>' not supported between these instances")
  end.

Definition round_half_even (q : Q) : Z :=
  let f := Qfloor q in
  match (q - inject_Z f ?= 1 # 2)%Q with
  | Lt => f
  | Gt => f + 1
  | Eq => if Z.even f then f else f + 1
  end.

(** [round(x, 2)] on a float. *)
Definition round2 (q : Q) : Q := round_half_even (q * 100) # 100.

(** [type(v).__name__]. *)
Definition type_name (v : pyval) : string :=
  match v with
  | PNone => "NoneType"
  | PBool _ => "bool"
  | PInt _ => "int"
  | PFloat _ => "float"
  | PDecimal _ => "Decimal"
  | PStr _ => "str"
  | PList _ => "list"
  | PDict _ => "dict"
  end.

(** [round(v, 2)] on a value: an int stays an int, a [Decimal] a [Decimal];
    the other types have no [__round__]. *)
Definition py_round2 (v : pyval) : result pyval :=
  match v with
  | PBool b => Ok (PInt (if b then 1 else 0))
  | PInt z => Ok (PInt z)
  | PFloat q => Ok (PFloat (round2 q))
  | PDecimal q => Ok (PDecimal (round2 q))
  | _ => Raise (TypeError ("type " ++ type_name v ++ " doesn't define __round__ method"))
  end.

(** [int(x)] on a float: truncation towards zero. *)
Definition py_int (q : Q) : Z := Z.quot (Qnum q) (Zpos (Qden q)).

(** *** Dicts, in insertion order *)

Definition hashable (v : pyval) : bool :=
  match v with PList _ | PDict _ => false | _ => true end.

(** Equality of hashable keys: [1 == 1.0 == True]. *)
Definition key_eqb (a b : pyval) : bool :=
  match a, b with
  | PNone, PNone => true
  | PStr s, PStr t => String.eqb s t
  | PDecimal x, PDecimal y => Qeq_bool x y
  | PDecimal x, _ => match num_of b with Some y => Qeq_bool x y | None => false end
  | _, PDecimal y => match num_of a with Some x => Qeq_bool x y | None => false end
  | _, _ => match num_of a, num_of b with
            | Some x, Some y => Qeq_bool x y
            | _, _ => false
            end
  end.

Fixpoint assoc (k : pyval) (d : list (pyval * pyval)) : option pyval :=
  match d with
  | [] => None
  | (k', v) :: d' => if key_eqb k k' then Some v else assoc k d'
  end.

(** Replaces the value in place, or appends a new key. *)
Fixpoint assoc_set (k v : pyval) (d : list (pyval * pyval)) : list (pyval * pyval) :=
  match d with
  | [] => [(k, v)]
  | (k', v') :: d' =>
      if key_eqb k k' then (k', v) :: d' else (k', v') :: assoc_set k v d'
  end.

Definition unhashable : exn := TypeError "unhashable type".

(** [d.get(k)], [None] standing for the default. *)
Definition dict_get (d : list (pyval * pyval)) (k : pyval) : result (option pyval) :=
  if hashable k then Ok (assoc k d) else Raise unhashable.

(** [row[k]] for a column name: [KeyError] on a missing key, [TypeError] when
    [row] is no dict. *)
Definition getitem (row : pyval) (k : string) : result pyval :=
  match row with
  | PDict d => match assoc (PStr k) d with
               | Some v => Ok v
               | None => Raise (KeyError k)
               end
  | _ => Raise (TypeError "indices must be integers or the object is not subscriptable")
  end.

(** [row[k] = v] for a column name. *)
Definition setitem (row : pyval) (k : string) (v : pyval) : result pyval :=
  match row with
  | PDict d => Ok (PDict (assoc_set (PStr k) v d))
  | _ => Raise (TypeError "object does not support item assignment")
  end.

Notation "k :-> v" := (PStr k, v) (at level 60, no associativity).

(** Truthiness, as [if x:] tests it. *)
Definition truthy (v : pyval) : bool :=
  match v with
  | PNone => false
  | PBool b => b
  | PInt z => negb (z =? 0)
  | PFloat q | PDecimal q => negb (Qeq_bool q 0)
  | PStr s => negb (String.eqb s "")
  | PList l => match l with [] => false | _ => true end
  | PDict d => match d with [] => false | _ => true end
  end.

(** [convert_decimals] (db_connection.py, lines 15-23). *)
Fixpoint convert_decimals (obj : pyval) : pyval :=
  match obj with
  | PDecimal q => PFloat q
  | PDict d => PDict (map (fun kv => (fst kv, convert_decimals (snd kv))) d)
  | PList l => PList (map convert_decimals l)
  | _ => obj
  end.

(** *** Strings *)

(** [str.lower()] on ASCII text; other bytes are left as they are. *)
Definition lower_ascii (c : ascii) : ascii :=
  let n := nat_of_ascii c in
  if andb (Nat.leb 65 n) (Nat.leb n 90) then ascii_of_nat (n + 32) else c.

Fixpoint lower (s : string) : string :=
  match s with
  | EmptyString => EmptyString
  | String c s' => String (lower_ascii c) (lower s')
  end.

(** [needle in hay] for strings. *)
Fixpoint contains (needle hay : string) : bool :=
  if String.prefix needle hay then true
  else match hay with
       | EmptyString => false
       | String _ hay' => contains needle hay'
       end.

(** [x in [s1, s2, ...]] for strings. *)
Definition str_in (x : string) (l : list string) : bool :=
  existsb (String.eqb x) l.

End Py.
Import Py.

(* ------------------------------------------------------------------------- *)
(** ** SQL's three-valued logic, as far as the Detector's query uses it *)

Module Sql.

(** [None] is SQL's NULL (for a truth value: unknown). *)
Definition sql_bool := option bool.

Definition sql_eq {A} (eqb : A -> A -> bool) (x y : option A) : sql_bool :=
  match x, y with
  | Some a, Some b => Some (eqb a b)
  | _, _ => None
  end.

Definition sql_neq {A} (eqb : A -> A -> bool) (x y : option A) : sql_bool :=
  match x, y with
  | Some a, Some b => Some (negb (eqb a b))
  | _, _ => None
  end.

(** [x IS NOT DISTINCT FROM y]: never NULL, and NULL matches NULL. *)
Definition is_not_distinct_from {A} (eqb : A -> A -> bool) (x y : option A) : sql_bool :=
  match x, y with
  | Some a, Some b => Some (eqb a b)
  | None, None => Some true
  | _, _ => Some false
  end.

Definition sql_and (p q : sql_bool) : sql_bool :=
  match p, q with
  | Some false, _ | _, Some false => Some false
  | Some true, Some true => Some true
  | _, _ => None
  end.

Definition sql_not (p : sql_bool) : sql_bool := option_map negb p.

(** A row passes [ON] or [WHERE] only when the condition is true. *)
Definition holds (p : sql_bool) : bool :=
  match p with Some true => true | _ => false end.

Infix "AND" := sql_and (at level 41, right associativity).

(** [a JOIN b ON cond]: the pairs that pass [ON], each as often as it occurs.
    The order of this enumeration is not the order of a result: see
    [arrange]. *)
Definition join {A B} (a : list A) (b : list B) (on : A -> B -> sql_bool)
  : list (A * B) :=
  flat_map (fun x => map (pair x) (filter (fun y => holds (on x y)) b)) a.

(** Exchanges the rows at positions [n] and [n + 1], when there are such. *)
Fixpoint swap_at {A} (n : nat) (rows : list A) : list A :=
  match n, rows with
  | O, a :: b :: rest => b :: a :: rest
  | S n', a :: rest => a :: swap_at n' rest
  | _, _ => rows
  end.

(** A query without [ORDER BY] returns its rows in the order the plan of the
    engine delivers them.  [order] is that order, given by the exchanges of
    neighbours that lead to it from the enumeration of the joins: every
    order of the rows is reached by some [order], and nothing but an order
    of the rows is. *)
Definition arrange {A} (order : list nat) (rows : list A) : list A :=
  fold_left (fun l n => swap_at n l) order rows.

End Sql.
Import Sql.

(* ------------------------------------------------------------------------- *)
(** ** The engine: catalog views, statements, answers *)

Module Engine.

(** A row of [pg_locks].  [locktype], [mode] and [granted] are never NULL in
    the view; [pid] is NULL for a lock held by a prepared transaction. *)
Record pg_lock : Type := {
  locktype : string;
  database : option Z;
  relation : option Z;
  page : option Z;
  tuple : option Z;
  virtualxid : option string;
  transactionid : option Z;
  classid : option Z;
  objid : option Z;
  objsubid : option Z;
  lock_pid : option Z;
  mode : string;
  granted : bool
}.

(** A row of [pg_stat_activity]; timestamps in microseconds. *)
Record pg_session : Type := {
  pid : Z;
  usename : option string;
  query : option string;
  query_start : option Z
}.

(** The statements the repository sends. *)
Inductive statement : Type :=
| SDeadlocks
| SDatabaseStats
| SSlowQueries (threshold_ms : Q)
| SInsertQueryStats (query_text : string) (execution_time_ms : Q)
                    (rows_affected : Z) (is_slow : bool)
| SNegativeOrders
| SExcessiveInventory
| SNegativeTransactions
| SBatchJobs (hours limit : Z)
| SBatchErrors (batch_ids : list pyval)
| SUser (sql : string).

Record Engine : Type := {
  connect_error : option exn;          (* psycopg2.connect(...) fails with it *)
  pg_stat_activity : list pg_session;
  pg_locks : list pg_lock;
  row_order : list nat;                (* the plan's order for the blocking query *)
  now : Z;                             (* NOW(), microseconds *)
  table_rows : statement -> list pyval;(* rows fetched for the other statements *)
  elapsed_ms : statement -> Q;         (* perf_counter difference around execute *)
  execute_error : statement -> option exn;  (* executing it, or fetching, fails *)
  commit_error : option exn;
  rollback_error : option exn          (* rollback() fails with it *)
}.

End Engine.
Import Engine.

(* ------------------------------------------------------------------------- *)
(** ** The Wait-For Graph query (db_connection.py, lines 129-155) *)

Module Detector.

Definition opt_str (s : option string) : pyval :=
  match s with Some x => PStr x | None => PNone end.

(** [EXTRACT(EPOCH FROM (NOW() - blocked.query_start)) * 1000], a numeric. *)
Definition wait_time_ms (e : Engine) (blocked : pg_session) : pyval :=
  match query_start blocked with
  | Some t => PDecimal ((now e - t) # 1000)
  | None => PNone
  end.

(** The [ON] condition of the self-join of [pg_locks]. *)
Definition same_lock_other_pid (blocked_locks blocking_locks : pg_lock) : sql_bool :=
  sql_eq String.eqb (Some (locktype blocked_locks)) (Some (locktype blocking_locks))
  AND is_not_distinct_from Z.eqb (database blocked_locks) (database blocking_locks)
  AND is_not_distinct_from Z.eqb (relation blocked_locks) (relation blocking_locks)
  AND is_not_distinct_from Z.eqb (page blocked_locks) (page blocking_locks)
  AND is_not_distinct_from Z.eqb (tuple blocked_locks) (tuple blocking_locks)
  AND is_not_distinct_from String.eqb (virtualxid blocked_locks) (virtualxid blocking_locks)
  AND is_not_distinct_from Z.eqb (transactionid blocked_locks) (transactionid blocking_locks)
  AND is_not_distinct_from Z.eqb (classid blocked_locks) (classid blocking_locks)
  AND is_not_distinct_from Z.eqb (objid blocked_locks) (objid blocking_locks)
  AND is_not_distinct_from Z.eqb (objsubid blocked_locks) (objsubid blocking_locks)
  AND sql_neq Z.eqb (lock_pid blocked_locks) (lock_pid blocking_locks).

(** The select list. *)
Definition select_row (e : Engine) (blocked blocking : pg_session) : pyval :=
  PDict [ "blocked_pid" :-> PInt (pid blocked);
          "blocked_user" :-> opt_str (usename blocked);
          "blocked_query" :-> opt_str (query blocked);
          "blocking_pid" :-> PInt (pid blocking);
          "blocking_user" :-> opt_str (usename blocking);
          "blocking_query" :-> opt_str (query blocking);
          "wait_time_ms" :-> wait_time_ms e blocked ].

(** FROM ... JOIN ... JOIN ... JOIN ... WHERE ..., and the select list. *)
Definition selected_rows (e : Engine) : list pyval :=
  let j1 := join (pg_stat_activity e) (pg_locks e)
              (fun blocked blocked_locks =>
                 sql_eq Z.eqb (Some (pid blocked)) (lock_pid blocked_locks)) in
  let j2 := join j1 (pg_locks e)
              (fun '(_, blocked_locks) blocking_locks =>
                 same_lock_other_pid blocked_locks blocking_locks) in
  let j3 := join j2 (pg_stat_activity e)
              (fun '(_, blocking_locks) blocking =>
                 sql_eq Z.eqb (Some (pid blocking)) (lock_pid blocking_locks)) in
  let w := filter (fun '(((_, blocked_locks), blocking_locks), _) =>
                     holds (sql_not (Some (granted blocked_locks))
                            AND Some (granted blocking_locks))) j3 in
  map (fun '(((blocked, _), _), blocking) => select_row e blocked blocking) w.

(** The result of the query: there is no ORDER BY, the rows come in the order
    the engine's plan delivers them. *)
Definition deadlock_query (e : Engine) : list pyval :=
  arrange (row_order e) (selected_rows e).

End Detector.

(* ------------------------------------------------------------------------- *)
(** ** The process state and the monad of the embedding *)

Module Run.

(** A psycopg2 connection object. *)
Record pg_connection : Type := { closed : bool }.

Inductive event : Type :=
| EConnect
| ECursor
| EExecute (s : statement)
| ECommit
| ERollback
| ECursorClose
| EClose
| ELogInfo (msg : string)
| ELogError (msg : string).

(** [db_singleton]: the module global [_db_connection] is not [None];
    [_connection]: the attribute of that [DatabaseConnection];
    [trace]: what has been done so far, oldest first. *)
Record world : Type := {
  engine : Engine;
  db_singleton : bool;
  _connection : option pg_connection;
  trace : list event
}.

Definition M (A : Type) : Type := world -> result A * world.

Definition ret {A} (a : A) : M A := fun w => (Ok a, w).

Definition bind {A B} (m : M A) (k : A -> M B) : M B :=
  fun w => match m w with
           | (Ok a, w') => k a w'
           | (Raise e, w') => (Raise e, w')
           end.

Definition raise {A} (e : exn) : M A := fun w => (Raise e, w).

(** Lifts a pure computation that can raise. *)
Definition lift {A} (r : result A) : M A := fun w => (r, w).

(** [try: body  except Exception as e: handler(e)]. *)
Definition try_except {A} (body : M A) (handler : exn -> M A) : M A :=
  fun w => match body w with
           | (Ok a, w') => (Ok a, w')
           | (Raise e, w') => handler e w'
           end.

(** [try: body  finally: fin]; [fin] runs on both exits, and what it raises
    replaces the outcome of [body]. *)
Definition try_finally {A} (body : M A) (fin : M unit) : M A :=
  fun w => match body w with
           | (r, w') => match fin w' with
                        | (Ok _, w'') => (r, w'')
                        | (Raise e, w'') => (Raise e, w'')
                        end
           end.

Definition emit (ev : event) : M unit :=
  fun w => (Ok tt, {| engine := engine w; db_singleton := db_singleton w;
                      _connection := _connection w; trace := trace w ++ [ev] |}).

Definition get_engine : M Engine := fun w => (Ok (engine w), w).
Definition get_connection : M (option pg_connection) := fun w => (Ok (_connection w), w).

Definition set_connection (c : option pg_connection) : M unit :=
  fun w => (Ok tt, {| engine := engine w; db_singleton := db_singleton w;
                      _connection := c; trace := trace w |}).

Definition set_singleton (b : bool) : M unit :=
  fun w => (Ok tt, {| engine := engine w; db_singleton := b;
                      _connection := _connection w; trace := trace w |}).

Declare Scope py_scope.
Delimit Scope py_scope with py.
Notation "x <- m ;; k" := (bind m (fun x => k))
  (at level 100, m at next level, right associativity) : py_scope.
Notation "m ;; k" := (bind m (fun _ => k))
  (at level 100, right associativity) : py_scope.
Open Scope py_scope.

End Run.
Import Run.

(* ------------------------------------------------------------------------- *)
(** ** [DatabaseConnection] (db_connection.py, lines 26-189)

    A fetched result set is a Python list of rows; [convert_decimals] on a
    list maps over it, so the methods below return [map convert_decimals rows]
    for [convert_decimals(cur.fetchall())]. *)

Module DatabaseConnection.

(** Lines 47-61. *)
Definition connect : M unit :=
  e <- get_engine ;;
  match connect_error e with
  | None =>
      emit EConnect ;;
      set_connection (Some {| closed := false |}) ;;
      emit (ELogInfo "Database connection established")
  | Some err =>
      emit (ELogError ("Failed to connect to database: " ++ str_exn err)) ;;
      raise err
  end.

(** Lines 63-68.  A connection object is truthy whether open or closed, and
    psycopg2's [close()] does not raise. *)
Definition disconnect : M unit :=
  c <- get_connection ;;
  match c with
  | Some _ =>
      emit EClose ;;
      set_connection None ;;
      emit (ELogInfo "Database connection closed")
  | None => ret tt
  end.

(** [self._connection.cursor(...)]: refused on a closed connection. *)
Definition new_cursor : M unit :=
  c <- get_connection ;;
  match c with
  | Some {| closed := false |} => emit ECursor
  | Some {| closed := true |} => raise (PgError None "connection already closed")
  | None => raise (PyError "AttributeError" "'NoneType' object has no attribute 'cursor'")
  end.

(** Lines 70-86: [with self.cursor() as cur: body].  When [rollback()] raises
    in the handler, nothing is logged and its exception replaces the one
    being handled; the cursor is closed on every exit. *)
Definition with_cursor {A} (body : M A) : M A :=
  c <- get_connection ;;
  (match c with None => connect | Some _ => ret tt end) ;;
  new_cursor ;;
  try_finally
    (try_except
       (r <- body ;;
        e <- get_engine ;;
        match commit_error e with
        | None => emit ECommit ;; ret r
        | Some err => raise err
        end)
       (fun err =>
          e <- get_engine ;;
          match rollback_error e with
          | None =>
              emit ERollback ;;
              emit (ELogError ("Database error: " ++ str_exn err)) ;;
              raise err
          | Some err' => raise err'
          end))
    (emit ECursorClose).

(** [cur.execute(query, params)]. *)
Definition execute (s : statement) : M unit :=
  e <- get_engine ;;
  match execute_error e s with
  | None => emit (EExecute s)
  | Some err => raise err
  end.

(** What the engine answers to an executed statement. *)
Definition answer (e : Engine) (s : statement) : list pyval :=
  match s with
  | SDeadlocks => Detector.deadlock_query e
  | _ => table_rows e s
  end.

Definition fetchall (s : statement) : M (list pyval) :=
  e <- get_engine ;; ret (answer e s).

Definition fetchone (s : statement) : M pyval :=
  e <- get_engine ;;
  ret (match answer e s with r :: _ => r | [] => PNone end).

(** Lines 88-100. *)
Definition execute_query (s : statement) (fetch : bool) : M (option (list pyval)) :=
  with_cursor
    (execute s ;;
     if fetch
     then results <- fetchall s ;; ret (Some (map convert_decimals results))
     else ret None).

(** Lines 102-117. *)
Definition execute_timed_query (s : statement) : M (list pyval * Q) :=
  with_cursor
    (execute s ;;
     results <- fetchall s ;;
     e <- get_engine ;;
     ret (map convert_decimals results, elapsed_ms e s)).

(** Lines 119-125. *)
Definition get_database_size : M pyval :=
  with_cursor
    (execute SDatabaseStats ;;
     result <- fetchone SDatabaseStats ;;
     ret (if truthy result then convert_decimals result else PDict [])).

(** Lines 127-159. *)
Definition check_deadlocks : M (list pyval) :=
  with_cursor
    (execute SDeadlocks ;;
     rows <- fetchall SDeadlocks ;;
     ret (map convert_decimals rows)).

(** Lines 161-177. *)
Definition get_slow_queries (threshold_ms : Q) : M (list pyval) :=
  with_cursor
    (execute (SSlowQueries threshold_ms) ;;
     rows <- fetchall (SSlowQueries threshold_ms) ;;
     ret (map convert_decimals rows)).

(** Lines 183-189; the global is assigned before [connect()] is called.  The
    constructor (lines 29-45) reads the configuration and logs it. *)
Definition get_db_connection : M unit :=
  fun w =>
    if db_singleton w then (Ok tt, w)
    else (set_singleton true ;;
          set_connection None ;;
          emit (ELogInfo "Database connection configured") ;;
          connect) w.

End DatabaseConnection.

(* ------------------------------------------------------------------------- *)
(** ** [DatabaseAgent] (server.py, lines 36-427) *)

Module DatabaseAgent.
Import DatabaseConnection.

Definition strs (l : list string) : pyval := PList (map PStr l).
Definition len (l : list pyval) : pyval := PInt (Z.of_nat (List.length l)).
Definition Qgt_bool (a b : Q) : bool := negb (Qle_bool a b).
Definition Qge_bool (a b : Q) : bool := Qle_bool b a.

(** [sum(b[k] for b in rows)]. *)
Fixpoint sum_from (acc : pyval) (k : string) (rows : list pyval) : result pyval :=
  match rows with
  | [] => Ok acc
  | b :: rows' =>
      (v <~ getitem b k ;;
       acc' <~ py_add acc v ;;
       sum_from acc' k rows')%result
  end.

Definition py_sum (k : string) (rows : list pyval) : result pyval :=
  sum_from (PInt 0) k rows.

(** [[f(x) for x in l]], stopping at the first exception. *)
Fixpoint comprehension {A B} (f : A -> result B) (l : list A) : result (list B) :=
  match l with
  | [] => Ok []
  | x :: l' => (y <~ f x ;; ys <~ comprehension f l' ;; Ok (y :: ys))%result
  end.

(** Lines 43-55. *)
Definition _get_slow_query_recommendations (query : string) : list string :=
  let query_lower := lower query in
  let recommendations :=
    ((if contains "where" query_lower && contains "category" query_lower
     then ["Add index on category column"] else [])
    ++ (if contains "join" query_lower
        then ["Review JOIN strategy and indexes"] else [])
    ++ (if contains "*" query
        then ["Select specific columns instead of *"] else [])
    ++ (if contains "like" query_lower
        then ["Avoid LIKE operations on large tables"] else []))%list in
  match recommendations with
  | [] => ["Consider adding appropriate indexes"; "Review query execution plan"]
  | _ => recommendations
  end.

(** Lines 57-68. *)
Definition _get_size_recommendations (usage_percent : Q) (days_until_full : Z)
  : list string :=
  let recommendations :=
    ((if Qgt_bool usage_percent 70
     then ["Archive old data to reduce database size"] else [])
    ++ (if days_until_full <? 60
        then ["Consider increasing storage allocation"] else [])
    ++ (if Qgt_bool usage_percent 80
        then ["Implement data retention policies"] else []))%list in
  match recommendations with
  | [] => ["Monitor growth trends"]
  | _ => recommendations
  end.

(** [except Exception as e: logger.error(...); return {...}]. *)
Definition failure (what : string) (e : exn) : M pyval :=
  emit (ELogError (what ++ ": " ++ str_exn e)) ;;
  ret (PDict [ "success" :-> PBool false; "error" :-> PStr (str_exn e) ]).

(** Lines 70-134. *)
Definition check_query_response_time_try (input : string) : M pyval :=
    (get_db_connection ;;
     let threshold_ms := 1000%Q in
     let input_lower := lower input in
     if existsb (fun keyword => contains keyword input_lower)
                ["select"; "update"; "delete"; "insert"]
     then
       re <- execute_timed_query (SUser input) ;;
       let '(results, execution_time) := re in
       execute_query
         (SInsertQueryStats input execution_time (Z.of_nat (List.length results))
                            (Qgt_bool execution_time threshold_ms)) false ;;
       let is_slow := Qgt_bool execution_time threshold_ms in
       ret (PDict [ "success" :-> PBool true;
                    "input" :-> PStr input;
                    "query" :-> PStr input;
                    "response_time_ms" :-> PFloat (round2 execution_time);
                    "rows_returned" :-> len results;
                    "is_slow" :-> PBool is_slow;
                    "status" :-> PStr (if is_slow then "SLOW" else "NORMAL");
                    "threshold_ms" :-> PFloat threshold_ms;
                    "recommendations" :->
                      strs (if is_slow
                            then _get_slow_query_recommendations input else []) ])
     else
       slow_queries <- get_slow_queries threshold_ms ;;
       match slow_queries with
       | _ :: _ =>
           ret (PDict [ "success" :-> PBool true;
                        "input" :-> PStr input;
                        "slow_queries_found" :-> len slow_queries;
                        "status" :-> PStr "SLOW QUERIES DETECTED";
                        "queries" :-> PList slow_queries;
                        "threshold_ms" :-> PFloat threshold_ms ])
       | [] =>
           ret (PDict [ "success" :-> PBool true;
                        "input" :-> PStr input;
                        "status" :-> PStr "NORMAL";
                        "message" :-> PStr "No slow queries detected" ])
       end).

Definition check_query_response_time (input : string) : M pyval :=
  try_except (check_query_response_time_try input) (failure "Query response time check error").

(** One element of ["transactions"] (lines 160-166). *)
Definition transaction_of (d : pyval) : result pyval :=
  (blocked_pid <~ getitem d "blocked_pid" ;;
   blocked_query <~ getitem d "blocked_query" ;;
   blocking_pid <~ getitem d "blocking_pid" ;;
   blocking_query <~ getitem d "blocking_query" ;;
   wait <~ getitem d "wait_time_ms" ;;
   wait_time_ms <~ py_round2 wait ;;
   Ok (PDict [ "blocked_session" :-> blocked_pid;
               "blocked_query" :-> blocked_query;
               "blocking_session" :-> blocking_pid;
               "blocking_query" :-> blocking_query;
               "wait_time_ms" :-> wait_time_ms ]))%result.

(** Lines 136-182. *)
Definition check_deadlock_try (input : string) : M pyval :=
    (get_db_connection ;;
     deadlocks <- check_deadlocks ;;
     match deadlocks with
     | _ :: _ =>
         transactions <- lift (comprehension transaction_of deadlocks) ;;
         ret (PDict [ "success" :-> PBool true;
                      "input" :-> PStr input;
                      "deadlocks_detected" :-> PBool true;
                      "status" :-> PStr "ACTIVE DEADLOCK DETECTED";
                      "deadlock_count" :-> len deadlocks;
                      "transactions" :-> PList transactions;
                      "recommendation" :-> PStr
     "Review blocking queries and consider terminating long-running transactions" ])
     | [] =>
         ret (PDict [ "success" :-> PBool true;
                      "input" :-> PStr input;
                      "deadlocks_detected" :-> PBool false;
                      "status" :-> PStr "NO ACTIVE DEADLOCK";
                      "message" :-> PStr "No deadlocks or blocking sessions detected" ])
     end).

Definition check_deadlock (input : string) : M pyval :=
  try_except (check_deadlock_try input) (failure "Deadlock check error").

(** Lines 184-233. *)
Definition check_file_size_try (input : string) : M pyval :=
    (get_db_connection ;;
     size_info <- get_database_size ;;
     let max_size_mb := 2048 in
     size_mb <- lift (getitem size_info "size_mb") ;;
     ratio <- lift (py_truediv size_mb (PInt max_size_mb)) ;;
     let usage_percent := round2 (ratio * 100) in
     let status :=
       if Qge_bool usage_percent 90 then "CRITICAL"
       else if Qge_bool usage_percent 75 then "WARNING"
       else "NORMAL" in
     let growth_rate_mb := 15%Q in
     estimated_days <-
       (if Qgt_bool growth_rate_mb 0
        then lift (left <~ py_sub (PInt max_size_mb) size_mb ;;
                   days <~ py_truediv left (PFloat growth_rate_mb) ;;
                   Ok (py_int days))%result
        else ret 999) ;;
     database_name <- lift (getitem size_info "database_name") ;;
     current_size_mb <- lift (getitem size_info "size_mb") ;;
     current_size_gb <- lift (getitem size_info "size_gb") ;;
     ret (PDict [ "success" :-> PBool true;
                  "input" :-> PStr input;
                  "database" :-> database_name;
                  "current_size_mb" :-> current_size_mb;
                  "current_size_gb" :-> current_size_gb;
                  "max_size_mb" :-> PInt max_size_mb;
                  "usage_percent" :-> PFloat usage_percent;
                  "growth_rate_mb_per_day" :-> PFloat growth_rate_mb;
                  "estimated_days_until_full" :-> PInt estimated_days;
                  "status" :-> PStr status;
                  "recommendations" :->
                    strs (_get_size_recommendations usage_percent estimated_days) ])).

Definition check_file_size (input : string) : M pyval :=
  try_except (check_file_size_try input) (failure "File size check error").

(** One entry of [anomalies] (lines 260-267, 278-285, 296-303). *)
Definition anomaly (table anomaly_type severity : string) (rows : option (list pyval))
  : list pyval :=
  match rows with
  | Some ((_ :: _) as found) =>
      [ PDict [ "table" :-> PStr table;
                "anomaly_type" :-> PStr anomaly_type;
                "severity" :-> PStr severity;
                "affected_count" :-> len found;
                "sample_records" :-> PList (firstn 3 found) ] ]
  | _ => []
  end.

(** Lines 245-327, the [try] block. *)
Definition check_abnormal_data_try (tables : string) : M pyval :=
    (get_db_connection ;;
     let tables_lower := lower tables in
     a1 <- (if str_in tables_lower ["all"; "orders"]
            then negative_orders <- execute_query SNegativeOrders true ;;
                 ret (anomaly "orders" "Negative order amounts detected" "HIGH"
                              negative_orders)
            else ret []) ;;
     a2 <- (if str_in tables_lower ["all"; "inventory"]
            then excessive_inventory <- execute_query SExcessiveInventory true ;;
                 ret (anomaly "inventory" "Stock count exceeds maximum threshold"
                              "MEDIUM" excessive_inventory)
            else ret []) ;;
     a3 <- (if str_in tables_lower ["all"; "transactions"; "transaction_log"]
            then negative_transactions <- execute_query SNegativeTransactions true ;;
                 ret (anomaly "transaction_log" "Large negative transactions detected"
                              "HIGH" negative_transactions)
            else ret []) ;;
     let anomalies := (a1 ++ a2 ++ a3)%list in
     match anomalies with
     | _ :: _ =>
         total_affected_rows <- lift (py_sum "affected_count" anomalies) ;;
         ret (PDict [ "success" :-> PBool true;
                      "tables_checked" :-> PStr tables;
                      "has_abnormal_data" :-> PBool true;
                      "status" :-> PStr "ABNORMAL DATA DETECTED";
                      "anomaly_count" :-> len anomalies;
                      "total_affected_rows" :-> total_affected_rows;
                      "anomalies" :-> PList anomalies;
                      "recommendations" :->
                        strs [ "Review data validation rules";
                               "Investigate data entry processes";
                               "Consider implementing CHECK constraints" ] ])
     | [] =>
         ret (PDict [ "success" :-> PBool true;
                      "tables_checked" :-> PStr tables;
                      "has_abnormal_data" :-> PBool false;
                      "status" :-> PStr "NORMAL";
                      "message" :-> PStr ("No data anomalies detected in " ++ tables) ])
     end).

(** Lines 235-331. *)
Definition check_abnormal_data (tables : string) : M pyval :=
  try_except (check_abnormal_data_try tables) (failure "Abnormal data check error").

Definition not_iterable : exn := TypeError "'NoneType' object is not iterable".

(** Lines 385-388, one turn of the loop over [error_breakdown]; in the
    assignment the right-hand side is evaluated first. *)
Definition add_error (failure_reasons_map : list (pyval * pyval)) (error : pyval)
  : result (list (pyval * pyval)) :=
  (bid <~ getitem error "batch_id" ;;
   known <~ dict_get failure_reasons_map bid ;;
   let m := match known with
            | Some _ => failure_reasons_map
            | None => assoc_set bid (PDict []) failure_reasons_map
            end in
   error_count <~ getitem error "error_count" ;;
   error_type <~ getitem error "error_type" ;;
   reasons <~ dict_get m bid ;;
   match reasons with
   | Some (PDict d) =>
       if hashable error_type
       then Ok (assoc_set bid (PDict (assoc_set error_type error_count d)) m)
       else Raise unhashable
   | _ => Raise (KeyError "batch_id")
   end)%result.

Fixpoint build_failure_reasons (m : list (pyval * pyval)) (error_breakdown : list pyval)
  : result (list (pyval * pyval)) :=
  match error_breakdown with
  | [] => Ok m
  | error :: rest => (m' <~ add_error m error ;; build_failure_reasons m' rest)%result
  end.

(** Line 392. *)
Definition enrich (failure_reasons_map : list (pyval * pyval)) (batch : pyval)
  : result pyval :=
  (bid <~ getitem batch "batch_id" ;;
   reasons <~ dict_get failure_reasons_map bid ;;
   setitem batch "failure_reasons"
           (match reasons with Some r => r | None => PDict [] end))%result.

(** Line 396:
    [round((total_failed / total_processed) * 100, 2) if total_processed > 0 else 0]. *)
Definition failure_rate_of (total_failed total_processed : pyval) : result pyval :=
  (positive <~ py_gt total_processed 0 ;;
   if (positive : bool)
   then ratio <~ py_truediv total_failed total_processed ;;
        Ok (PFloat (round2 (ratio * 100)))
   else Ok (PInt 0))%result.

(** Lines 394-396: the two sums and the rate. *)
Definition failure_rate (batch_issues : list pyval) : result (pyval * pyval * pyval) :=
  (total_processed <~ py_sum "processed_records" batch_issues ;;
   total_failed <~ py_sum "failed_records" batch_issues ;;
   rate <~ failure_rate_of total_failed total_processed ;;
   Ok (total_processed, total_failed, rate))%result.

Definition str_of_int (z : Z) : string := NilZero.string_of_int (Z.to_int z).

(** Lines 345-423, the [try] block. *)
Definition check_batch_data_try (hours limit : Z) : M pyval :=
    (get_db_connection ;;
     batch_issues <- execute_query (SBatchJobs hours limit) true ;;
     match batch_issues with
     | Some ((_ :: _) as issues) =>
         batch_ids <- lift (comprehension (fun b => getitem b "batch_id") issues) ;;
         error_breakdown <- execute_query (SBatchErrors batch_ids) true ;;
         failure_reasons_map <-
           lift (match error_breakdown with
                 | Some errors => build_failure_reasons [] errors
                 | None => Raise not_iterable
                 end) ;;
         enriched <- lift (comprehension (enrich failure_reasons_map) issues) ;;
         totals <- lift (failure_rate enriched) ;;
         let '(total_processed, total_failed, rate) := totals in
         ret (PDict [ "success" :-> PBool true;
                      "time_window_hours" :-> PInt hours;
                      "limit" :-> PInt limit;
                      "has_abnormal_data" :-> PBool true;
                      "status" :-> PStr "BATCH ISSUES DETECTED";
                      "total_batches_analyzed" :-> len enriched;
                      "total_records_processed" :-> total_processed;
                      "total_failed_records" :-> total_failed;
                      "failure_rate_percent" :-> rate;
                      "batch_details" :-> PList enriched;
                      "recommendations" :->
                        strs [ "Review batch processing logs";
                               "Implement retry mechanism for transient failures";
                               "Validate data before batch processing" ] ])
     | _ =>
         ret (PDict [ "success" :-> PBool true;
                      "time_window_hours" :-> PInt hours;
                      "limit" :-> PInt limit;
                      "has_abnormal_data" :-> PBool false;
                      "status" :-> PStr "NORMAL";
                      "message" :-> PStr ("No batch failures detected in last "
                                          ++ str_of_int hours ++ " hours") ])
     end).

(** Lines 333-427. *)
Definition check_batch_data (hours limit : Z) : M pyval :=
  try_except (check_batch_data_try hours limit) (failure "Batch data check error").

End DatabaseAgent.

(* ------------------------------------------------------------------------- *)
(** ** The tool-dispatch surface (server.py, lines 434-507) *)

Module Tools.

(** Lines 435-453. *)
Definition check_query_response_time (query : string) (threshold_ms : Q) : M pyval :=
  result <- DatabaseAgent.check_query_response_time query ;;
  match result with
  | PDict d =>
      if negb (Qeq_bool threshold_ms 1000)
         && truthy (match assoc (PStr "success") d with Some v => v | None => PNone end)
      then
        let d1 := assoc_set (PStr "threshold_ms") (PFloat threshold_ms) d in
        match assoc (PStr "is_slow") d1 with
        | Some _ =>
            is_slow <- lift (py_gt (match assoc (PStr "response_time_ms") d1 with
                                    | Some v => v
                                    | None => PInt 0
                                    end) threshold_ms) ;;
            let d2 := assoc_set (PStr "is_slow") (PBool is_slow) d1 in
            ret (PDict (assoc_set (PStr "status")
                                  (PStr (if is_slow then "SLOW" else "NORMAL")) d2))
        | None => ret (PDict d1)
        end
      else ret result
  | _ => ret result
  end.

(** Lines 457-465. *)
Definition check_deadlock : M pyval := DatabaseAgent.check_deadlock "check".

(** Lines 469-477. *)
Definition check_file_size : M pyval := DatabaseAgent.check_file_size "check".

(** Lines 481-493. *)
Definition check_abnormal_data (tables : string) : M pyval :=
  DatabaseAgent.check_abnormal_data tables.

(** Lines 497-507. *)
Definition check_batch_data (hours limit : Z) : M pyval :=
  DatabaseAgent.check_batch_data hours limit.

(** A request to the tool-dispatch surface. *)
Inductive operation : Type :=
| CheckQueryResponseTime (query : string) (threshold_ms : Q)
| CheckDeadlock
| CheckFileSize
| CheckAbnormalData (tables : string)
| CheckBatchData (hours limit : Z).

Definition dispatch (op : operation) : M pyval :=
  match op with
  | CheckQueryResponseTime q t => check_query_response_time q t
  | CheckDeadlock => check_deadlock
  | CheckFileSize => check_file_size
  | CheckAbnormalData tables => check_abnormal_data tables
  | CheckBatchData hours limit => check_batch_data hours limit
  end.

(** The [try] block that services a request. *)
Definition try_block (op : operation) : M pyval :=
  match op with
  | CheckQueryResponseTime q _ => DatabaseAgent.check_query_response_time_try q
  | CheckDeadlock => DatabaseAgent.check_deadlock_try "check"
  | CheckFileSize => DatabaseAgent.check_file_size_try "check"
  | CheckAbnormalData tables => DatabaseAgent.check_abnormal_data_try tables
  | CheckBatchData hours limit => DatabaseAgent.check_batch_data_try hours limit
  end.

End Tools.

(* ------------------------------------------------------------------------- *)
(** ** The Deadlock Trigger Coordinator (scripts/01_trigger_deadlock.py)

    A transaction script runs in a thread of its own.  What the engine and the
    peer thread do to it is an [env]: for each blocking call, whether it
    completes, raises, or never returns.  Every [env] is admitted, also those
    no schedule of the two threads produces; what holds for every [env] holds
    for every real run. *)

Module Coordinator.

Inductive participant : Type := T1 | T2.

(** The two [threading.Event]s (lines 15-16). *)
Record barrier : Type := { lock1_acquired : bool; lock2_acquired : bool }.

Definition flag (p : participant) (b : barrier) : bool :=
  match p with T1 => lock1_acquired b | T2 => lock2_acquired b end.

Definition with_flag (p : participant) (v : bool) (b : barrier) : barrier :=
  match p with
  | T1 => {| lock1_acquired := v; lock2_acquired := lock2_acquired b |}
  | T2 => {| lock1_acquired := lock1_acquired b; lock2_acquired := v |}
  end.

Inductive call : Type :=
| Connect
| Execute (sql : string)
| Wait (event : participant)
| Commit
| Rollback.

Inductive outcome : Type :=
| Done
| Raises (e : exn)
| Blocks.

Definition env : Type := call -> outcome.

Inductive action : Type :=
| AConnect
| ACursor
| AExecute (sql : string)
| ASet (event : participant)
| AWait (event : participant)
| ASleep
| ACommit
| ARollback
| APrint (msg : string)
| ACursorClose
| AConnectionClose.

Inductive txn_state : Type := TxnNone | TxnOpen | TxnCommitted | TxnRolledBack.

(** The Session Handle of a script: [conn] and [cur]. *)
Record session : Type := {
  connection_open : bool;
  cursor_open : bool;
  transaction : txn_state
}.

Record thread : Type := {
  sess : option session;
  flags : barrier;
  actions : list action
}.

Inductive exit (A : Type) : Type :=
| Returns (a : A)
| Propagates (e : exn)
| Hangs.
Arguments Returns {A} a.
Arguments Propagates {A} e.
Arguments Hangs {A}.

Definition T (A : Type) : Type := thread -> exit A * thread.

Definition tret {A} (a : A) : T A := fun t => (Returns a, t).

Definition tbind {A B} (m : T A) (k : A -> T B) : T B :=
  fun t => match m t with
           | (Returns a, t') => k a t'
           | (Propagates e, t') => (Propagates e, t')
           | (Hangs, t') => (Hangs, t')
           end.

Declare Scope thread_scope.
Delimit Scope thread_scope with thread.
Notation "m ;;; k" := (tbind m (fun _ => k))
  (at level 100, right associativity) : thread_scope.
Open Scope thread_scope.

Definition act (a : action) : T unit :=
  fun t => (Returns tt, {| sess := sess t; flags := flags t;
                           actions := actions t ++ [a] |}).

Definition update_session (f : session -> session) : T unit :=
  fun t => (Returns tt, {| sess := option_map f (sess t); flags := flags t;
                           actions := actions t |}).

Definition set_transaction (s : txn_state) : T unit :=
  update_session (fun x => {| connection_open := connection_open x;
                              cursor_open := cursor_open x;
                              transaction := s |}).

(** A call whose outcome the environment decides. *)
Definition blocking (c : call) (e : env) (a : action) : T unit :=
  match e c with
  | Done => act a
  | Raises x => fun t => (Propagates x, t)
  | Blocks => fun t => (Hangs, t)
  end.

(** [except psycopg2.Error as e: handler]: other exceptions pass through, and
    a thread that hangs runs no handler. *)
Definition except_psycopg2_Error {A} (body : T A) (handler : exn -> T A) : T A :=
  fun t => match body t with
           | (Propagates x, t') =>
               if is_psycopg2_Error x then handler x t' else (Propagates x, t')
           | r => r
           end.

(** [try: body finally: fin], on both exits of [body]. *)
Definition finally {A} (body : T A) (fin : T unit) : T A :=
  fun t => match body t with
           | (Hangs, t') => (Hangs, t')
           | (r, t') => match fin t' with
                        | (Returns _, t'') => (r, t'')
                        | (Propagates x, t'') => (Propagates x, t'')
                        | (Hangs, t'') => (Hangs, t'')
                        end
           end.

(** Lines 19-21: [psycopg2.connect], [conn.autocommit = False], [conn.cursor()].
    Only the connection attempt depends on the engine; the other two are local
    calls on the fresh connection. *)
Definition open_session (e : env) : T unit :=
  blocking Connect e AConnect ;;;
  (fun t => (Returns tt, {| sess := Some {| connection_open := true;
                                            cursor_open := true;
                                            transaction := TxnNone |};
                            flags := flags t; actions := actions t |})) ;;;
  act ACursor.

Definition execute (e : env) (sql : string) : T unit :=
  blocking (Execute sql) e (AExecute sql) ;;; set_transaction TxnOpen.

(** [event.set()]. *)
Definition set_event (p : participant) : T unit :=
  (fun t => (Returns tt, {| sess := sess t; flags := with_flag p true (flags t);
                            actions := actions t |})) ;;;
  act (ASet p).

(** [event.wait()], without timeout. *)
Definition wait_event (e : env) (p : participant) : T unit :=
  blocking (Wait p) e (AWait p).

Definition commit (e : env) : T unit :=
  blocking Commit e ACommit ;;; set_transaction TxnCommitted.

Definition rollback (e : env) : T unit :=
  blocking Rollback e ARollback ;;; set_transaction TxnRolledBack.

(** [cur.close()] and [conn.close()] of psycopg2 do not raise. *)
Definition close_cursor : T unit :=
  update_session (fun x => {| connection_open := connection_open x;
                              cursor_open := false;
                              transaction := transaction x |}) ;;;
  act ACursorClose.

Definition close_connection : T unit :=
  update_session (fun x => {| connection_open := false;
                              cursor_open := cursor_open x;
                              transaction := transaction x |}) ;;;
  act AConnectionClose.

Definition pgcode_of (x : exn) : string :=
  match x with
  | PgError (Some c) _ => c
  | _ => "None"
  end.

Definition set_timeout : string := "SET deadlock_timeout = '10s'".
Definition lock_orders : string := "SELECT * FROM orders WHERE order_id = 1 FOR UPDATE".
Definition lock_inventory : string :=
  "SELECT * FROM inventory WHERE product_id = 1 FOR UPDATE".

(** Line 42 and line 72. *)
Definition report_rollback (label : string) (x : exn) : string :=
  "[" ++ label ++ "] DEADLOCK or rollback: " ++ pgcode_of x ++ " - " ++ str_exn x.

(** Lines 24-39, the [try] block of [txn1]. *)
Definition txn1_try (e : env) : T unit :=
  execute e set_timeout ;;;
  execute e lock_orders ;;;
  set_event T1 ;;;
  wait_event e T2 ;;;
  act ASleep ;;;
  execute e lock_inventory ;;;
  commit e.

(** Lines 18-46. *)
Definition txn1 (e : env) : T unit :=
  open_session e ;;;
  finally
    (except_psycopg2_Error
       (txn1_try e)
       (fun x => act (APrint (report_rollback "T1" x)) ;;; rollback e))
    (close_cursor ;;; close_connection).

(** Lines 55-69, the [try] block of [txn2]. *)
Definition txn2_try (e : env) : T unit :=
  execute e set_timeout ;;;
  execute e lock_inventory ;;;
  set_event T2 ;;;
  wait_event e T1 ;;;
  act ASleep ;;;
  execute e lock_orders ;;;
  commit e.

(** Lines 49-76. *)
Definition txn2 (e : env) : T unit :=
  open_session e ;;;
  finally
    (except_psycopg2_Error
       (txn2_try e)
       (fun x => act (APrint (report_rollback "T2" x)) ;;; rollback e))
    (close_cursor ;;; close_connection).

Definition label (p : participant) : string :=
  match p with T1 => "T1" | T2 => "T2" end.

Definition script_try (p : participant) : env -> T unit :=
  match p with T1 => txn1_try | T2 => txn2_try end.

Definition script (p : participant) : env -> T unit :=
  match p with T1 => txn1 | T2 => txn2 end.

(** A fresh thread: no session yet, the events as they are now. *)
Definition spawn (b : barrier) : thread :=
  {| sess := None; flags := b; actions := [] |}.

(** *** The rounds (lines 79-101)

    The main thread starts both scripts and joins them.  [early]: the first
    script has already signalled when the main thread starts the second one.
    A script that hangs keeps the main thread in [join] for ever ([stuck]). *)

Record round_env : Type := { env1 : env; env2 : env; early : bool }.

Inductive step : Type :=
| Print (msg : string)
| Clear (event : participant)
| Launch (p : participant) (seen : barrier)   (* [t.start()], and the events then *)
| Joined (p : participant)
| Slept.

Record coordinator : Type := {
  events : barrier;
  history : list step;
  stuck : bool
}.

Definition cleared : barrier := {| lock1_acquired := false; lock2_acquired := false |}.

Definition record (s : step) (c : coordinator) : coordinator :=
  {| events := events c; history := history c ++ [s]; stuck := stuck c |}.

(** [event.clear()]. *)
Definition clear (p : participant) (c : coordinator) : coordinator :=
  record (Clear p) {| events := with_flag p false (events c);
                      history := history c; stuck := stuck c |}.

(** Whether script [p] gets as far as its [set()]. *)
Definition signals (p : participant) (e : env) (b : barrier) : bool :=
  existsb (fun a => match a with ASet _ => true | _ => false end)
          (actions (snd (script p e (spawn b)))).

Definition terminates (p : participant) (e : env) (b : barrier) : bool :=
  match fst (script p e (spawn b)) with Hangs => false | _ => true end.

(** [t.start()]. *)
Definition start (p : participant) (c : coordinator) : coordinator :=
  record (Launch p (events c)) c.

(** What a running script has done to the events by now. *)
Definition signalled (p : participant) (e : env) (c : coordinator) : coordinator :=
  {| events := if signals p e (events c) then with_flag p true (events c) else events c;
     history := history c; stuck := stuck c |}.

(** [t.join()]: returns once the script has ended, by return or by an
    exception that ends its thread. *)
Definition join (p : participant) (e : env) (c : coordinator) : coordinator :=
  if terminates p e (events c)
  then record (Joined p) (signalled p e c)
  else {| events := events c; history := history c; stuck := true |}.

Definition next (f : coordinator -> coordinator) (c : coordinator) : coordinator :=
  if stuck c then c else f c.

Definition str_of_int (z : Z) : string := NilZero.string_of_int (Z.to_int z).

(** The line feed that opens the banner of a round. *)
Definition newline : string := String "010"%char EmptyString.

(** Lines 79-93. *)
Definition run_deadlock_round (r : round_env) (round_id : Z) (c : coordinator)
  : coordinator :=
  let c1 := next (record (Print (newline ++ "=== ROUND " ++ str_of_int round_id
                                 ++ " ==="))) c in
  let c2 := next (clear T1) c1 in
  let c3 := next (clear T2) c2 in
  let c4 := next (start T1) c3 in
  let c5 := next (if early r then signalled T1 (env1 r) else fun x => x) c4 in
  let c6 := next (start T2) c5 in
  let c7 := next (join T1 (env1 r)) c6 in
  let c8 := next (join T2 (env2 r)) c7 in
  next (record (Print ("=== END ROUND " ++ str_of_int round_id ++ " ==="))) c8.

(** Lines 96-101, the first [n] turns of [while True]. *)
Fixpoint main_from (n : nat) (rounds : Z -> round_env) (round_id : Z) (c : coordinator)
  : coordinator :=
  match n with
  | O => c
  | S n' =>
      let c' := next (record Slept) (run_deadlock_round (rounds round_id) round_id c) in
      main_from n' rounds (round_id + 1) c'
  end.

Definition main (n : nat) (rounds : Z -> round_env) (c : coordinator) : coordinator :=
  main_from n rounds 1 c.

End Coordinator.

(* ------------------------------------------------------------------------- *)
(** ** What the properties are stated with *)

Module Terms.
Import DatabaseConnection.

(** The resource descriptor of a lock request, as one tuple. *)
Definition descriptor (l : pg_lock) :=
  (locktype l, database l, relation l, page l, tuple l, virtualxid l,
   transactionid l, classid l, objid l, objsubid l).

(** Session [blocked] has an ungranted request on a resource on which another
    session, [blocking], holds a granted one; two descriptors are the same
    resource when they are equal as tuples, NULL fields included. *)
Definition contention (e : Engine) (blocked blocking : pg_session) : Prop :=
  In blocked (pg_stat_activity e) /\ In blocking (pg_stat_activity e) /\
  exists request held : pg_lock,
    In request (pg_locks e) /\ In held (pg_locks e) /\
    lock_pid request = Some (pid blocked) /\
    lock_pid held = Some (pid blocking) /\
    granted request = false /\ granted held = true /\
    descriptor request = descriptor held /\
    pid blocked <> pid blocking.

(** The ContentionEdge of a pair of sessions, as [check_deadlocks] returns it. *)
Definition edge_row (e : Engine) (blocked blocking : pg_session) : pyval :=
  convert_decimals (Detector.select_row e blocked blocking).

(** The engine serves statement [s]: the connection is there or can be made,
    and neither the statement nor the commit fails. *)
Definition serves (w : world) (s : statement) : Prop :=
  match _connection w with
  | Some c => closed c = false
  | None => connect_error (engine w) = None
  end /\
  execute_error (engine w) s = None /\
  commit_error (engine w) = None.






(** The status vocabulary of the specification's DiagnosticReport. *)
Definition specified_statuses : list string :=
  ["NORMAL"; "WARNING"; "SLOW"; "DEADLOCK_DETECTED"; "ABNORMAL"; "ERROR"].

(** The status strings that occur in server.py. *)
Definition reported_statuses : list string :=
  ["NORMAL"; "SLOW"; "SLOW QUERIES DETECTED"; "ACTIVE DEADLOCK DETECTED";
   "NO ACTIVE DEADLOCK"; "CRITICAL"; "WARNING"; "ABNORMAL DATA DETECTED";
   "BATCH ISSUES DETECTED"].

Definition field (k : string) (v : pyval) : option pyval :=
  match v with PDict d => assoc (PStr k) d | _ => None end.

(** A success envelope with one of the status strings of the code. *)
Definition report (v : pyval) : Prop :=
  (exists d, v = PDict d) /\
  field "success" v = Some (PBool true) /\
  exists s, field "status" v = Some (PStr s) /\ In s reported_statuses.

(** [{success: false, error: message}]. *)
Definition failure_envelope (e : exn) : pyval :=
  PDict [ "success" :-> PBool false; "error" :-> PStr (str_exn e) ].

(** The class of an exception. *)
Definition class_of (e : exn) : string :=
  match e with PyError c _ => c | PgError _ _ => "psycopg2.Error" end.

(** A number equal to zero ([0], [0.0], [False]). *)
Definition is_zero (v : pyval) : Prop :=
  exists q, num_of v = Some q /\ (q == 0)%Q.

(** The table scopes [check_abnormal_data] knows. *)
Definition known_scopes : list string :=
  ["all"; "orders"; "inventory"; "transactions"; "transaction_log"].

(** The envelope for a scope in which nothing abnormal was found. *)
Definition normal_envelope (tables : string) : pyval :=
  PDict [ "success" :-> PBool true;
          "tables_checked" :-> PStr tables;
          "has_abnormal_data" :-> PBool false;
          "status" :-> PStr "NORMAL";
          "message" :-> PStr ("No data anomalies detected in " ++ tables) ].

(** The engine's deadlock class: [deadlock_detected] and
    [serialization_failure]. *)
Definition deadlock_class (e : exn) : bool :=
  match e with
  | PgError (Some c) _ => String.eqb c "40P01" || String.eqb c "40001"
  | _ => false
  end.

(** A session that has been closed: cursor and connection. *)
Definition closed_session (t : Coordinator.thread) : Prop :=
  match Coordinator.sess t with
  | Some s => Coordinator.cursor_open s = false /\ Coordinator.connection_open s = false
  | None => False
  end.

(** The thread of a script once its session is open (lines 19-21 done). *)
Definition opened (b : Coordinator.barrier) : Coordinator.thread :=
  {| Coordinator.sess :=
       Some {| Coordinator.connection_open := true;
               Coordinator.cursor_open := true;
               Coordinator.transaction := Coordinator.TxnNone |};
     Coordinator.flags := b;
     Coordinator.actions := [Coordinator.AConnect; Coordinator.ACursor] |}.

(** What a launch may see of the events: the first script both cleared, the
    second one its own event cleared. *)
Definition launch_ok (s : Coordinator.step) : Prop :=
  match s with
  | Coordinator.Launch Coordinator.T1 seen => seen = Coordinator.cleared
  | Coordinator.Launch Coordinator.T2 seen => Coordinator.lock2_acquired seen = false
  | _ => True
  end.

Section More.
Import DatabaseAgent.

(** The three envelopes of [check_query_response_time]. *)
Definition timed_envelope (input : string) (results : list pyval) (execution_time : Q)
  : pyval :=
  let is_slow := Qgt_bool execution_time 1000 in
  PDict [ "success" :-> PBool true;
          "input" :-> PStr input;
          "query" :-> PStr input;
          "response_time_ms" :-> PFloat (round2 execution_time);
          "rows_returned" :-> len results;
          "is_slow" :-> PBool is_slow;
          "status" :-> PStr (if is_slow then "SLOW" else "NORMAL");
          "threshold_ms" :-> PFloat 1000;
          "recommendations" :->
            strs (if is_slow then _get_slow_query_recommendations input else []) ].

Definition slow_queries_envelope (input : string) (slow_queries : list pyval) : pyval :=
  PDict [ "success" :-> PBool true;
          "input" :-> PStr input;
          "slow_queries_found" :-> len slow_queries;
          "status" :-> PStr "SLOW QUERIES DETECTED";
          "queries" :-> PList slow_queries;
          "threshold_ms" :-> PFloat 1000 ].

Definition no_slow_queries_envelope (input : string) : pyval :=
  PDict [ "success" :-> PBool true;
          "input" :-> PStr input;
          "status" :-> PStr "NORMAL";
          "message" :-> PStr "No slow queries detected" ].

(** The exceptions of a failed lookup or of ill-typed arithmetic. *)
Definition lookup_or_type_error (e : exn) : Prop :=
  class_of e = "KeyError" \/ class_of e = "TypeError".

End More.

Section Scripts.
Import Coordinator.

(** No step of a script drops its session. *)
Definition keeps_session {A} (m : T A) : Prop :=
  forall t x t', m t = (x, t') -> sess t <> None -> sess t' <> None.

(** The guarded part of a script: the [try] block and its handler. *)
Definition guarded_part (p : participant) (e : env) : T unit :=
  except_psycopg2_Error (script_try p e)
    (fun x => act (APrint (report_rollback (label p) x)) ;;; rollback e).

(** A step that launches nothing. *)
Definition launches_nothing (f : coordinator -> coordinator) : Prop :=
  forall c, exists rest,
    history (next f c) = (history c ++ rest)%list /\ Forall launch_ok rest.

End Scripts.

End Terms.

(* ------------------------------------------------------------------------- *)
(** ** Concrete engines *)

Module Examples.

Definition transaction_lock (xid : Z) (holder : Z) (lock_mode : string) (g : bool)
  : pg_lock :=
  {| locktype := "transactionid"; database := None; relation := None; page := None;
     tuple := None; virtualxid := None; transactionid := Some xid; classid := None;
     objid := None; objsubid := None; lock_pid := Some holder; mode := lock_mode;
     granted := g |}.

Definition session_at (p : Z) (q : string) (started : Z) : pg_session :=
  {| pid := p; usename := Some "dbagent"; query := Some q; query_start := Some started |}.

Definition engine_with (sessions : list pg_session) (locks : list pg_lock) : Engine :=
  {| connect_error := None;
     pg_stat_activity := sessions;
     pg_locks := locks;
     row_order := [];
     now := 10000000;
     table_rows := fun _ => [];
     elapsed_ms := fun _ => 5%Q;
     execute_error := fun _ => None;
     commit_error := None;
     rollback_error := None |}.

Definition fresh (e : Engine) : world :=
  {| engine := e; db_singleton := false; _connection := None; trace := [] |}.

(** No session, no lock. *)
Definition idle : Engine := engine_with [] [].

(** Session 101 holds row 1 of [orders] (its transaction id 777); session 202
    requests it. *)
Definition pair : Engine :=
  engine_with
    [ session_at 101 "SELECT * FROM orders WHERE order_id = 1 FOR UPDATE" 4000000;
      session_at 202 "UPDATE orders SET status = 'x' WHERE order_id = 1" 7000000 ]
    [ transaction_lock 777 101 "ExclusiveLock" true;
      transaction_lock 777 202 "ShareLock" false ].

(** Sessions 202 and 303 both wait for session 101; 303 has waited longer and
    comes later in [pg_stat_activity]. *)
Definition two_waiters : Engine :=
  engine_with
    [ session_at 202 "UPDATE orders SET status = 'x' WHERE order_id = 1" 7000000;
      session_at 303 "UPDATE orders SET status = 'y' WHERE order_id = 1" 2000000;
      session_at 101 "SELECT * FROM orders WHERE order_id = 1 FOR UPDATE" 1000000 ]
    [ transaction_lock 777 101 "ExclusiveLock" true;
      transaction_lock 777 202 "ShareLock" false;
      transaction_lock 777 303 "ShareLock" false ].


(** One failed batch job of which no record was processed. *)
Definition nothing_processed : list pyval :=
  [ PDict [ "batch_id" :-> PStr "BATCH-1";
            "job_type" :-> PStr "import_orders";
            "total_records" :-> PInt 4;
            "processed_records" :-> PInt 0;
            "failed_records" :-> PInt 4;
            "status" :-> PStr "completed" ] ].

Definition failed_batch : Engine :=
  {| connect_error := None;
     pg_stat_activity := []; pg_locks := []; row_order := []; now := 0;
     table_rows := fun s => match s with
                            | SBatchJobs _ _ => nothing_processed
                            | _ => []
                            end;
     elapsed_ms := fun _ => 0%Q;
     execute_error := fun _ => None; commit_error := None;
     rollback_error := None |}.

(** Every call of a script completes: it commits. *)
Definition env_commit : Coordinator.env := fun _ => Coordinator.Done.

(** The engine aborts the second lock request of [txn1] as the deadlock victim. *)
Definition env_victim : Coordinator.env :=
  fun c => match c with
           | Coordinator.Execute sql =>
               if String.eqb sql Coordinator.lock_inventory
               then Coordinator.Raises (PgError (Some "40P01") "deadlock detected")
               else Coordinator.Done
           | _ => Coordinator.Done
           end.

(** The table [orders] is missing: an error outside the deadlock class. *)
Definition undefined_table : exn := PgError (Some "42P01") "relation orders does not exist".

Definition env_undefined_table : Coordinator.env :=
  fun c => match c with
           | Coordinator.Execute sql =>
               if String.eqb sql Coordinator.lock_orders
               then Coordinator.Raises undefined_table
               else Coordinator.Done
           | _ => Coordinator.Done
           end.

(** An exception that is no [psycopg2.Error] in the middle of the script. *)
Definition out_of_memory : exn := PyError "MemoryError" "".

Definition env_out_of_memory : Coordinator.env :=
  fun c => match c with
           | Coordinator.Execute sql =>
               if String.eqb sql Coordinator.lock_inventory
               then Coordinator.Raises out_of_memory
               else Coordinator.Done
           | _ => Coordinator.Done
           end.

(** A round in which both scripts signal and end, the first one early. *)
Definition round_victim : Coordinator.round_env :=
  {| Coordinator.env1 := env_victim;
     Coordinator.env2 := env_commit;
     Coordinator.early := true |}.

(** The main thread with both events still set by a previous round. *)
Definition after_a_round : Coordinator.coordinator :=
  {| Coordinator.events := {| Coordinator.lock1_acquired := true;
                              Coordinator.lock2_acquired := true |};
     Coordinator.history := [];
     Coordinator.stuck := false |}.

(** The server cannot be reached. *)
Definition unreachable : Engine :=
  {| connect_error := Some (PgError None "connection refused");
     pg_stat_activity := []; pg_locks := []; row_order := []; now := 0;
     table_rows := fun _ => []; elapsed_ms := fun _ => 0%Q;
     execute_error := fun _ => None; commit_error := None;
     rollback_error := None |}.

End Examples.

(* ------------------------------------------------------------------------- *)
(** ** What the properties of the whole paths are stated with *)

Module Observed.

(** No [Decimal] among the values of [v], at any depth of lists and dicts
    (dict keys are not looked at: [convert_decimals] keeps them as they are). *)
Fixpoint decimal_free (v : pyval) : bool :=
  match v with
  | PDecimal _ => false
  | PList l => forallb decimal_free l
  | PDict d => forallb (fun kv => decimal_free (snd kv)) d
  | _ => true
  end.

(** The statements executed, in order, among the events [evs]. *)
Fixpoint executed (evs : list event) : list statement :=
  match evs with
  | [] => []
  | EExecute s :: evs' => s :: executed evs'
  | _ :: evs' => executed evs'
  end.

(** The server accepts connections and commits, and a connection that is held
    is open. *)
Definition reachable (w : world) : Prop :=
  connect_error (engine w) = None /\
  commit_error (engine w) = None /\
  (forall c, _connection w = Some c -> closed c = false).

(** The engine injects no failure at all. *)
Definition healthy (w : world) : Prop :=
  reachable w /\ forall s, execute_error (engine w) s = None.

(** The request reaches the database: every one but [check_abnormal_data] on
    a scope it does not know. *)
Definition touches_database (op : Tools.operation) : bool :=
  match op with
  | Tools.CheckAbnormalData tables => str_in (lower tables) Terms.known_scopes
  | _ => true
  end.

(** [psycopg2.InterfaceError] of a cursor asked from a closed connection. *)
Definition already_closed : exn := PgError None "connection already closed".

(** A process whose connection object has been closed underneath it. *)
Definition stale : world :=
  {| engine := Examples.idle; db_singleton := true;
     _connection := Some {| closed := true |}; trace := [] |}.

(** What [cursor()] does first when no connection is held (lines 73-74). *)
Definition connecting (w : world) : list event :=
  match _connection w with
  | None => [EConnect; ELogInfo "Database connection established"]
  | Some _ => []
  end.

(** What the handler of [cursor] does with the exception [err] of its body
    (lines 80-83): the events of the recovery, and the exception that leaves,
    which is the one of [rollback()] when that call raises. *)
Definition recovery (e : Engine) (err : exn) : list event :=
  match rollback_error e with
  | None => [ERollback; ELogError ("Database error: " ++ str_exn err)]
  | Some _ => []
  end.

Definition surfacing (e : Engine) (err : exn) : exn :=
  match rollback_error e with
  | None => err
  | Some err' => err'
  end.

(** The world after the events [evs]. *)
Definition logged (w : world) (evs : list event) : world :=
  {| engine := engine w; db_singleton := db_singleton w;
     _connection := _connection w; trace := (trace w ++ evs)%list |}.

(** The checks [check_abnormal_data] runs for a scope, in order. *)
Definition selected (tables : string) : list statement :=
  ((if str_in (lower tables) ["all"; "orders"] then [SNegativeOrders] else [])
   ++ (if str_in (lower tables) ["all"; "inventory"] then [SExcessiveInventory] else [])
   ++ (if str_in (lower tables) ["all"; "transactions"; "transaction_log"]
       then [SNegativeTransactions] else []))%list.

(** Text of ASCII characters only; on such text [lower] is Python's
    [str.lower()]. *)
Definition ascii_text (s : string) : bool :=
  forallb (fun c => Nat.ltb (nat_of_ascii c) 128) (list_ascii_of_string s).

(** [input] is taken for SQL (server.py, line 87). *)
Definition mentions_sql (input : string) : bool :=
  existsb (fun keyword => contains keyword (lower input))
          ["select"; "update"; "delete"; "insert"].

(** The statements a request may send. *)
Definition allowed (op : Tools.operation) (s : statement) : Prop :=
  match op with
  | Tools.CheckQueryResponseTime input _ =>
      if mentions_sql input
      then s = SUser input \/
           exists t n slow, s = SInsertQueryStats input t n slow
      else s = SSlowQueries 1000
  | Tools.CheckDeadlock => s = SDeadlocks
  | Tools.CheckFileSize => s = SDatabaseStats
  | Tools.CheckAbnormalData tables => In s (selected tables)
  | Tools.CheckBatchData hours limit =>
      s = SBatchJobs hours limit \/ exists ids, s = SBatchErrors ids
  end.

(** [m] executes only statements that satisfy [P], and leaves the engine alone. *)
Definition executes_only {A} (P : statement -> Prop) (m : M A) : Prop :=
  forall w r w', m w = (r, w') ->
    exists evs, trace w' = (trace w ++ evs)%list /\ Forall P (executed evs).

(** What [get_database_size] returns on an engine that answers. *)
Definition size_info (e : Engine) : pyval :=
  match DatabaseConnection.answer e SDatabaseStats with
  | r :: _ => if truthy r then convert_decimals r else PDict []
  | [] => PDict []
  end.

Definition archive_advice : string := "Archive old data to reduce database size".

(** [round(None, 2)]. *)
Definition no_round : exn :=
  TypeError "type NoneType doesn't define __round__ method".

(** Session 202 waits for session 101 and has no [query_start]. *)
Definition never_queried : Engine :=
  Examples.engine_with
    [ Examples.session_at 101 "SELECT * FROM orders WHERE order_id = 1 FOR UPDATE" 4000000;
      {| pid := 202; usename := Some "dbagent"; query := None; query_start := None |} ]
    [ Examples.transaction_lock 777 101 "ExclusiveLock" true;
      Examples.transaction_lock 777 202 "ShareLock" false ].

(** The other script's side. *)
Definition peer (p : Coordinator.participant) : Coordinator.participant :=
  match p with Coordinator.T1 => Coordinator.T2 | Coordinator.T2 => Coordinator.T1 end.

(** The row lock a script takes first, and the one it requests after the
    handshake. *)
Definition first_lock (p : Coordinator.participant) : string :=
  match p with
  | Coordinator.T1 => Coordinator.lock_orders
  | Coordinator.T2 => Coordinator.lock_inventory
  end.

Definition second_lock (p : Coordinator.participant) : string := first_lock (peer p).

(** What a script has done when it requests its second lock. *)
Definition handshake (p : Coordinator.participant) : list Coordinator.action :=
  [ Coordinator.AConnect; Coordinator.ACursor;
    Coordinator.AExecute Coordinator.set_timeout;
    Coordinator.AExecute (first_lock p);
    Coordinator.ASet p; Coordinator.AWait (peer p); Coordinator.ASleep;
    Coordinator.AExecute (second_lock p) ].

Definition sets (a : Coordinator.action) : option Coordinator.participant :=
  match a with Coordinator.ASet q => Some q | _ => None end.

(** What the main thread has printed, in order. *)
Fixpoint printed (h : list Coordinator.step) : list string :=
  match h with
  | [] => []
  | Coordinator.Print msg :: h' => msg :: printed h'
  | _ :: h' => printed h'
  end.

(** The two banners of round [round_id] (lines 80 and 93); the first one
    opens with a line feed. *)
Definition banners (round_id : Z) : list string :=
  [ Coordinator.newline ++ "=== ROUND " ++ Coordinator.str_of_int round_id
    ++ " ===";
    "=== END ROUND " ++ Coordinator.str_of_int round_id ++ " ===" ].

(** An engine without the table [query_stats]: the insert of lines 90-95 of
    server.py fails. *)
Definition no_query_stats : Engine :=
  {| connect_error := None;
     pg_stat_activity := []; pg_locks := []; row_order := []; now := 0;
     table_rows := fun _ => [];
     elapsed_ms := fun _ => 5%Q;
     execute_error := fun s => match s with
                               | SInsertQueryStats _ _ _ _ =>
                                   Some (PgError (Some "42P01")
                                           "relation query_stats does not exist")
                               | _ => None
                               end;
     commit_error := None;
     rollback_error := None |}.

(** An engine whose [v_database_stats] reports 1900 MB. *)
Definition nearly_full : Engine :=
  {| connect_error := None;
     pg_stat_activity := []; pg_locks := []; row_order := []; now := 0;
     table_rows := fun s => match s with
                            | SDatabaseStats =>
                                [ PDict [ "database_name" :-> PStr "testdb";
                                          "size_mb" :-> PDecimal 1900;
                                          "size_gb" :-> PDecimal (186 # 100) ] ]
                            | _ => []
                            end;
     elapsed_ms := fun _ => 5%Q;
     execute_error := fun _ => None; commit_error := None;
     rollback_error := None |}.

End Observed.

(* ========================================================================= *)
(** * Properties *)

(* ------------------------------------------------------------------------- *)
(** ** The three-valued connectives *)

Section SqlFacts.

Lemma holds_and p q : holds (p AND q) = holds p && holds q.
Proof. destruct p as [[|]|], q as [[|]|]; reflexivity. Qed.

Lemma in_join {A B} (a : list A) (b : list B) on x y :
  In (x, y) (join a b on) <-> In x a /\ In y b /\ holds (on x y) = true.
Proof.
  unfold join. rewrite in_flat_map. split.
  - intros (x' & Hx & Hin). apply in_map_iff in Hin.
    destruct Hin as (y' & Heq & Hy). inversion Heq; subst.
    apply filter_In in Hy. tauto.
  - intros (Hx & Hy & Hon). exists x. split; [assumption|].
    apply in_map. apply filter_In. tauto.
Qed.

Lemma swap_at_Permutation {A} (n : nat) (rows : list A) :
  Permutation (swap_at n rows) rows.
Proof.
  revert rows. induction n as [|n IH]; intros [|a [|b rest]]; simpl;
    try apply Permutation_refl.
  - apply perm_swap.
  - apply perm_skip, IH.
  - apply perm_skip, IH.
Qed.

(** An arrangement holds the same rows, each as often. *)
Lemma arrange_Permutation {A} (order : list nat) (rows : list A) :
  Permutation (arrange order rows) rows.
Proof.
  unfold arrange. revert rows. induction order as [|n order IH]; intros rows; simpl.
  - apply Permutation_refl.
  - eapply Permutation_trans; [apply IH | apply swap_at_Permutation].
Qed.

Lemma in_arrange {A} (order : list nat) (rows : list A) (x : A) :
  In x (arrange order rows) <-> In x rows.
Proof.
  split; apply Permutation_in;
    [apply arrange_Permutation | apply Permutation_sym, arrange_Permutation].
Qed.




Lemma not_distinct_Z (x y : option Z) :
  holds (is_not_distinct_from Z.eqb x y) = true <-> x = y.
Proof.
  destruct x as [a|], y as [b|]; simpl; try (split; congruence).
  destruct (Z.eqb_spec a b); simpl; split; congruence.
Qed.

Lemma not_distinct_string (x y : option string) :
  holds (is_not_distinct_from String.eqb x y) = true <-> x = y.
Proof.
  destruct x as [a|], y as [b|]; simpl; try (split; congruence).
  destruct (String.eqb_spec a b); simpl; split; congruence.
Qed.

Lemma eq_string_holds (a b : string) :
  holds (sql_eq String.eqb (Some a) (Some b)) = true <-> a = b.
Proof. simpl. destruct (String.eqb_spec a b); simpl; split; congruence. Qed.

Lemma eq_pid_holds (p : Z) (x : option Z) :
  holds (sql_eq Z.eqb (Some p) x) = true <-> x = Some p.
Proof.
  destruct x as [q|]; simpl; [|split; congruence].
  destruct (Z.eqb_spec p q); simpl; split; congruence.
Qed.

Lemma neq_pid_holds (x y : option Z) :
  holds (sql_neq Z.eqb x y) = true <->
  exists a b, x = Some a /\ y = Some b /\ a <> b.
Proof.
  destruct x as [a|], y as [b|]; simpl.
  - destruct (Z.eqb_spec a b); simpl; split.
    + discriminate.
    + intros (a' & b' & Ha & Hb & Hn). congruence.
    + intros _. exists a, b. auto.
    + reflexivity.
  - split; [discriminate|]. intros (a' & b' & _ & Hb & _). discriminate.
  - split; [discriminate|]. intros (a' & b' & Ha & _). discriminate.
  - split; [discriminate|]. intros (a' & b' & Ha & _). discriminate.
Qed.

End SqlFacts.

(* ------------------------------------------------------------------------- *)
(** ** The Wait-For Graph Detector *)

Section DetectorFacts.
Import DatabaseConnection Terms Detector.

Lemma same_lock_other_pid_holds (l1 l2 : pg_lock) :
  holds (same_lock_other_pid l1 l2) = true <->
  descriptor l1 = descriptor l2 /\
  exists a b, lock_pid l1 = Some a /\ lock_pid l2 = Some b /\ a <> b.
Proof.
  unfold same_lock_other_pid, descriptor.
  repeat rewrite holds_and. repeat rewrite andb_true_iff.
  rewrite eq_string_holds, neq_pid_holds.
  repeat rewrite not_distinct_Z. rewrite not_distinct_string.
  split.
  - intros (H0 & H1 & H2 & H3 & H4 & H5 & H6 & H7 & H8 & H9 & H10).
    split; [congruence | assumption].
  - intros (H & Hp). inversion H. tauto.
Qed.

(** The rows of the query are the rows of the contending pairs. *)
Lemma in_deadlock_query (e : Engine) (row : pyval) :
  In row (deadlock_query e) <->
  exists blocked blocking,
    contention e blocked blocking /\ row = select_row e blocked blocking.
Proof.
  unfold deadlock_query. rewrite in_arrange.
  unfold selected_rows, contention. rewrite in_map_iff. split.
  - intros ([[[blocked l1] l2] blocking] & Hrow & Hin).
    apply filter_In in Hin. destruct Hin as (Hj3 & Hw).
    apply in_join in Hj3. destruct Hj3 as (Hj2 & Hblocking & Hon3).
    apply in_join in Hj2. destruct Hj2 as (Hj1 & Hl2 & Hon2).
    apply in_join in Hj1. destruct Hj1 as (Hblocked & Hl1 & Hon1).
    apply eq_pid_holds in Hon1, Hon3.
    apply same_lock_other_pid_holds in Hon2. destruct Hon2 as (Hd & a & b & Ha & Hb & Hab).
    rewrite holds_and in Hw. apply andb_true_iff in Hw. destruct Hw as (Hg1 & Hg2).
    exists blocked, blocking. split; [|symmetry; exact Hrow].
    split; [assumption|]. split; [assumption|].
    exists l1, l2. repeat split; try assumption.
    + destruct (granted l1); [discriminate | reflexivity].
    + destruct (granted l2); [reflexivity | discriminate].
    + congruence.
  - intros (blocked & blocking & (Hb1 & Hb2 & l1 & l2 & Hl1 & Hl2 & Hp1 & Hp2
                                  & Hg1 & Hg2 & Hd & Hne) & Hrow).
    exists (blocked, l1, l2, blocking). split; [symmetry; exact Hrow|].
    apply filter_In. split.
    + apply in_join. split; [|split; [assumption|]].
      * apply in_join. split; [|split; [assumption|]].
        -- apply in_join. split; [assumption|]. split; [assumption|].
           apply eq_pid_holds. assumption.
        -- apply same_lock_other_pid_holds. split; [assumption|].
           exists (pid blocked), (pid blocking). auto.
      * apply eq_pid_holds. assumption.
    + rewrite Hg1, Hg2. reflexivity.
Qed.

(** Running a statement through [with self.cursor()]: it returns only the
    rows the engine answers, and it does return them when the engine serves
    the statement. *)
Lemma fetch_through_cursor (s : statement) (w : world) :
  let m := with_cursor (execute s ;; rows <- fetchall s ;;
                        ret (map convert_decimals rows)) in
  (forall rows w', m w = (Ok rows, w') ->
     rows = map convert_decimals (answer (engine w) s)) /\
  (serves w s -> exists w',
     m w = (Ok (map convert_decimals (answer (engine w) s)), w')).
Proof.
  destruct w as [e sg c tr]. unfold serves. simpl.
  unfold with_cursor, new_cursor, connect, execute, fetchall, try_finally, try_except,
    bind, ret, raise, emit, get_engine, get_connection, set_connection. simpl.
  split.
  - intros rows w'.
    destruct c as [[[|]]|]; simpl;
      destruct (connect_error e); simpl;
      destruct (execute_error e s); simpl;
      destruct (commit_error e); simpl;
      destruct (rollback_error e); simpl;
      intros H; inversion H; reflexivity.
  - intros (Hc & He & Hk).
    destruct c as [[[|]]|]; simpl in *; try discriminate;
      rewrite ?Hc; simpl; rewrite He; simpl; rewrite Hk; simpl;
      eexists; reflexivity.
Qed.

End DetectorFacts.

(** C1.  Whatever the lock table and the active-session table hold,
    [check_deadlocks] returns exactly the ContentionEdges: a row is returned
    if and only if it is the edge of a session with an ungranted lock request
    and a different session holding a granted request on the same resource
    descriptor (NULL fields equal to NULL).  It returns them whenever the
    engine serves the query; no returned row has [blocked_pid] equal to
    [blocking_pid]; and nothing is returned when no such pair exists. *)
Theorem check_deadlocks_exact (w : world) :
  let e := engine w in
  (forall rows w', DatabaseConnection.check_deadlocks w = (Ok rows, w') ->
     forall row, In row rows <->
       exists blocked blocking,
         Terms.contention e blocked blocking /\
         row = Terms.edge_row e blocked blocking) /\
  (Terms.serves w SDeadlocks ->
     exists rows w', DatabaseConnection.check_deadlocks w = (Ok rows, w')) /\
  (forall rows w' row, DatabaseConnection.check_deadlocks w = (Ok rows, w') ->
     In row rows ->
     exists a b, getitem row "blocked_pid" = Ok (PInt a) /\
                 getitem row "blocking_pid" = Ok (PInt b) /\ a <> b) /\
  (forall rows w', DatabaseConnection.check_deadlocks w = (Ok rows, w') ->
     (forall blocked blocking, ~ Terms.contention e blocked blocking) ->
     rows = []).
Proof.
  intros e.
  assert (Hrows : forall rows w',
             DatabaseConnection.check_deadlocks w = (Ok rows, w') ->
             forall row, In row rows <->
               exists blocked blocking,
                 Terms.contention e blocked blocking /\
                 row = Terms.edge_row e blocked blocking).
  { intros rows w' H row.
    apply (proj1 (fetch_through_cursor SDeadlocks w)) in H. subst rows.
    simpl. rewrite in_map_iff. split.
    - intros (r & Hr & Hin). apply in_deadlock_query in Hin.
      destruct Hin as (b1 & b2 & Hc & Heq). exists b1, b2. subst. tauto.
    - intros (b1 & b2 & Hc & Heq). exists (Detector.select_row e b1 b2).
      split; [symmetry; exact Heq|]. apply in_deadlock_query. eauto. }
  split; [exact Hrows|]. split; [|split].
  - intros Hs. destruct (proj2 (fetch_through_cursor SDeadlocks w) Hs) as (w' & H).
    eauto.
  - intros rows w' row H Hin. apply (Hrows rows w' H) in Hin.
    destruct Hin as (b1 & b2 & Hc & Heq). subst row.
    exists (pid b1), (pid b2). repeat split.
    destruct Hc as (_ & _ & _ & _ & _ & _ & _ & _ & _ & _ & _ & Hne). exact Hne.
  - intros rows w' H Hnone. destruct rows as [|row rows']; [reflexivity|].
    exfalso. destruct (proj1 (Hrows _ _ H row) (or_introl eq_refl)) as (b1 & b2 & Hc & _).
    exact (Hnone b1 b2 Hc).
Qed.

(** The injected pair of the specification: one edge, blocked 202, blocking 101. *)
Example check_deadlocks_pair :
  fst (DatabaseConnection.check_deadlocks (Examples.fresh Examples.pair))
  = Ok [ PDict [ "blocked_pid" :-> PInt 202;
                 "blocked_user" :-> PStr "dbagent";
                 "blocked_query" :-> PStr "UPDATE orders SET status = 'x' WHERE order_id = 1";
                 "blocking_pid" :-> PInt 101;
                 "blocking_user" :-> PStr "dbagent";
                 "blocking_query" :->
                   PStr "SELECT * FROM orders WHERE order_id = 1 FOR UPDATE";
                 "wait_time_ms" :-> PFloat (3000000 # 1000) ] ].
Proof. reflexivity. Qed.

Lemma check_deadlocks_exact_witness :
  Terms.serves (Examples.fresh Examples.pair) SDeadlocks /\
  exists rows w',
    DatabaseConnection.check_deadlocks (Examples.fresh Examples.pair) = (Ok rows, w') /\
    (forall row, In row rows ->
       exists a b, getitem row "blocked_pid" = Ok (PInt a) /\
                   getitem row "blocking_pid" = Ok (PInt b) /\ a <> b).
Proof.
  assert (Hs : Terms.serves (Examples.fresh Examples.pair) SDeadlocks).
  { unfold Terms.serves. simpl. repeat split; reflexivity. }
  split; [exact Hs|].
  destruct (check_deadlocks_exact (Examples.fresh Examples.pair))
    as (_ & Hreturns & Hdistinct & _).
  destruct (Hreturns Hs) as (rows & w' & H).
  exists rows, w'. split; [exact H|].
  intros row Hin. exact (Hdistinct rows w' row H Hin).
Defined.

(* ------------------------------------------------------------------------- *)
(** ** The order of the returned edges *)

Section OrderFacts.
Import DatabaseConnection Terms Detector.




End OrderFacts.




(* ------------------------------------------------------------------------- *)
(** ** The Session Handle *)

(** C8.  [disconnect] is idempotent: whatever the connection attribute holds
    (nothing, an open connection, a closed one), a first call returns and
    leaves no connection, and a second call in succession returns as well,
    does nothing and leaves the state of the first call. *)
Theorem disconnect_idempotent (w : world) :
  exists w1,
    DatabaseConnection.disconnect w = (Ok tt, w1) /\
    _connection w1 = None /\
    DatabaseConnection.disconnect w1 = (Ok tt, w1).
Proof.
  destruct w as [e sg [c|] tr]; eexists; repeat split.
Qed.

(* ------------------------------------------------------------------------- *)
(** ** The tool-dispatch boundary *)

Section DispatchFacts.
Import DatabaseConnection DatabaseAgent Terms.

Lemma bind_Ok {A B} (m : M A) (k : A -> M B) w v w' :
  bind m k w = (Ok v, w') ->
  exists a w1, m w = (Ok a, w1) /\ k a w1 = (Ok v, w').
Proof.
  unfold bind. destruct (m w) as [[a|e] w1]; intros H; [eauto | discriminate].
Qed.

Lemma ret_Ok {A} (a v : A) w w' : ret a w = (Ok v, w') -> v = a /\ w' = w.
Proof. unfold ret. intros H. inversion H. auto. Qed.

Ltac unbind H :=
  let a := fresh "a" in
  let w1 := fresh "w" in
  let H1 := fresh "Hcall" in
  apply bind_Ok in H; destruct H as (a & w1 & H1 & H); cbv beta in H.

Ltac returned H :=
  apply ret_Ok in H; destruct H as (-> & ->).

Ltac is_report :=
  unfold report, field; simpl;
  split; [eexists; reflexivity|]; split; [reflexivity|];
  eexists; split; [reflexivity|];
  repeat match goal with |- context [if ?b then _ else _] => destruct b end;
  simpl; tauto.

Lemma check_deadlock_try_report input w v w' :
  check_deadlock_try input w = (Ok v, w') -> report v.
Proof.
  unfold check_deadlock_try. intros H. unbind H. unbind H.
  destruct a0 as [|d ds].
  - returned H. is_report.
  - unbind H. returned H. is_report.
Qed.

Lemma check_file_size_try_report input w v w' :
  check_file_size_try input w = (Ok v, w') -> report v.
Proof.
  unfold check_file_size_try. intros H. do 8 unbind H. returned H. is_report.
Qed.

Lemma check_abnormal_data_try_report tables w v w' :
  check_abnormal_data_try tables w = (Ok v, w') -> report v.
Proof.
  unfold check_abnormal_data_try. intros H. do 4 unbind H.
  destruct (a0 ++ a1 ++ a2)%list as [|x xs].
  - returned H. is_report.
  - unbind H. returned H. is_report.
Qed.

Lemma check_batch_data_try_report hours limit w v w' :
  check_batch_data_try hours limit w = (Ok v, w') -> report v.
Proof.
  unfold check_batch_data_try. intros H. do 2 unbind H.
  destruct a0 as [[|b bs]|].
  - returned H. is_report.
  - do 5 unbind H. destruct a4 as [[total_processed total_failed] rate].
    returned H. is_report.
  - returned H. is_report.
Qed.

Lemma check_query_response_time_try_shape input w v w' :
  check_query_response_time_try input w = (Ok v, w') ->
  (exists results execution_time, v = timed_envelope input results execution_time) \/
  (exists slow_queries, v = slow_queries_envelope input slow_queries) \/
  v = no_slow_queries_envelope input.
Proof.
  unfold check_query_response_time_try. intros H. unbind H.
  destruct (existsb _ _).
  - unbind H. destruct a0 as [results execution_time]. unbind H. returned H.
    left. exists results, execution_time. reflexivity.
  - unbind H. destruct a0 as [|q qs]; returned H.
    + right. right. reflexivity.
    + right. left. eexists. reflexivity.
Qed.

Lemma check_query_response_time_try_report input w v w' :
  check_query_response_time_try input w = (Ok v, w') -> report v.
Proof.
  intros H. apply check_query_response_time_try_shape in H.
  destruct H as [(results & t & ->) | [(qs & ->) | ->]]; is_report.
Qed.

(** What the handler of every operation returns. *)
Lemma failure_returns what e w :
  exists w', failure what e w = (Ok (failure_envelope e), w').
Proof. unfold failure, bind, emit, ret. simpl. eexists. reflexivity. Qed.

(** A guarded operation returns what its [try] block returns, or the failure
    envelope of what the block raised. *)
Lemma guarded (body : M pyval) what w :
  exists v w',
    try_except body (failure what) w = (Ok v, w') /\
    match fst (body w) with
    | Ok r => v = r
    | Raise e => v = failure_envelope e
    end.
Proof.
  unfold try_except. destruct (body w) as [[r|e] w1]; simpl.
  - eauto.
  - destruct (failure_returns what e w1) as (w' & ->). eauto.
Qed.

Lemma guarded_report (body : M pyval) what w :
  (forall v w', body w = (Ok v, w') -> report v) ->
  exists v w',
    try_except body (failure what) w = (Ok v, w') /\
    match fst (body w) with
    | Ok _ => report v
    | Raise e => v = failure_envelope e
    end.
Proof.
  intros Hbody. destruct (guarded body what w) as (v & w' & Hg & Hm).
  exists v, w'. split; [exact Hg|].
  destruct (body w) as [[r|e] w1] eqn:Hb; simpl in *; [|exact Hm].
  subst v. eapply Hbody. reflexivity.
Qed.

(** The wrapper of [check_query_response_time] rewrites the threshold, the
    slowness and the status of a success envelope, and raises nothing. *)
Lemma check_query_response_time_tool query threshold_ms w :
  exists v w',
    Tools.check_query_response_time query threshold_ms w = (Ok v, w') /\
    match fst (check_query_response_time_try query w) with
    | Ok _ => report v
    | Raise e => v = failure_envelope e
    end.
Proof.
  destruct (guarded (check_query_response_time_try query)
                    "Query response time check error" w) as (v0 & w0 & Hg & Hm).
  unfold Tools.check_query_response_time, bind, check_query_response_time.
  rewrite Hg.
  destruct (check_query_response_time_try query w) as [[r|e] w1] eqn:Htry;
    simpl in Hm; subst v0.
  - apply check_query_response_time_try_shape in Htry.
    destruct Htry as [(results & t & ->) | [(qs & ->) | ->]]; simpl;
      destruct (negb (Qeq_bool threshold_ms 1000)); simpl;
      eexists; eexists; (split; [reflexivity|]); is_report.
  - simpl. rewrite andb_false_r. eexists. eexists. split; reflexivity.
Qed.

(** Every request is answered by an envelope: a report when the [try] block
    returns, the failure envelope of the exception when it raises. *)
Lemma dispatch_outcome (op : Tools.operation) (w : world) :
  exists v w',
    Tools.dispatch op w = (Ok v, w') /\
    match fst (Tools.try_block op w) with
    | Ok _ => report v
    | Raise e => v = failure_envelope e
    end.
Proof.
  destruct op as [query threshold_ms | | | tables | hours limit]; simpl.
  - apply check_query_response_time_tool.
  - apply guarded_report. intros v w'. apply check_deadlock_try_report.
  - apply guarded_report. intros v w'. apply check_file_size_try_report.
  - apply guarded_report. intros v w'. apply check_abnormal_data_try_report.
  - apply guarded_report. intros v w'. apply check_batch_data_try_report.
Qed.

End DispatchFacts.

(** C3.  No tool-dispatch operation propagates an exception: on every input
    and in every state of the process and of the engine it returns a dict;
    when the servicing code raised [e] the dict is
    [{success: false, error: str(e)}], and otherwise its [success] is true. *)
Theorem tool_dispatch_never_raises (op : Tools.operation) (w : world) :
  exists d w',
    Tools.dispatch op w = (Ok (PDict d), w') /\
    match fst (Tools.try_block op w) with
    | Ok _ => assoc (PStr "success") d = Some (PBool true)
    | Raise e => d = [ "success" :-> PBool false; "error" :-> PStr (str_exn e) ]
    end.
Proof.
  destruct (dispatch_outcome op w) as (v & w' & Hd & Hm).
  destruct (fst (Tools.try_block op w)) as [r|e].
  - destruct Hm as ((d & ->) & Hs & _). exists d, w'. split; [exact Hd | exact Hs].
  - subst v. eexists. exists w'. split; [exact Hd | reflexivity].
Qed.

(** C5, as stated, fails: on an idle engine [check_deadlock] reports the
    status [NO ACTIVE DEADLOCK], which is not in the specified vocabulary. *)
Lemma status_outside_specified_vocabulary :
  exists v w',
    Tools.dispatch Tools.CheckDeadlock (Examples.fresh Examples.idle) = (Ok v, w') /\
    Terms.field "status" v = Some (PStr "NO ACTIVE DEADLOCK") /\
    ~ In "NO ACTIVE DEADLOCK" Terms.specified_statuses.
Proof.
  eexists. eexists. split; [reflexivity|]. split; [reflexivity|].
  simpl. intros H. repeat (destruct H as [H|H]; [discriminate|]). exact H.
Qed.

(** C5, amended.  Every report of a tool-dispatch operation whose servicing
    code returned carries a status among NORMAL, SLOW, SLOW QUERIES DETECTED,
    ACTIVE DEADLOCK DETECTED, NO ACTIVE DEADLOCK, CRITICAL, WARNING, ABNORMAL
    DATA DETECTED and BATCH ISSUES DETECTED; the envelope of a failure carries
    no status. *)
Theorem status_in_reported_vocabulary (op : Tools.operation) (w : world) :
  exists v w',
    Tools.dispatch op w = (Ok v, w') /\
    match fst (Tools.try_block op w) with
    | Ok _ => exists s, Terms.field "status" v = Some (PStr s) /\
                        In s Terms.reported_statuses
    | Raise _ => Terms.field "status" v = None
    end.
Proof.
  destruct (dispatch_outcome op w) as (v & w' & Hd & Hm).
  exists v, w'. split; [exact Hd|].
  destruct (fst (Tools.try_block op w)) as [r|e].
  - destruct Hm as (_ & _ & Hs). exact Hs.
  - subst v. reflexivity.
Qed.

(* ------------------------------------------------------------------------- *)
(** ** The failure rate of [check_batch_data] *)

Section BatchFacts.
Import DatabaseConnection DatabaseAgent Terms.

Lemma rbind_Ok {A B} (r : result A) (k : A -> result B) v :
  rbind r k = Ok v -> exists a, r = Ok a /\ k a = Ok v.
Proof. destruct r; simpl; intros H; [eauto | discriminate]. Qed.

Lemma rbind_Raise {A B} (r : result A) (k : A -> result B) e :
  rbind r k = Raise e -> r = Raise e \/ exists a, r = Ok a /\ k a = Raise e.
Proof. destruct r; simpl; intros H; [eauto | left; congruence]. Qed.

Lemma getitem_Raise row k e : getitem row k = Raise e -> lookup_or_type_error e.
Proof.
  unfold getitem, lookup_or_type_error.
  destruct row; try (intros H; inversion H; subst; simpl; tauto).
  destruct (assoc (PStr k) d); intros H; inversion H; subst; simpl; tauto.
Qed.

Lemma py_add_Raise a b e : py_add a b = Raise e -> lookup_or_type_error e.
Proof.
  unfold py_add, lookup_or_type_error.
  destruct (int_of a), (int_of b), (num_of a), (num_of b);
    intros H; inversion H; subst; simpl; tauto.
Qed.

Lemma sum_from_Raise k rows : forall acc e,
  sum_from acc k rows = Raise e -> lookup_or_type_error e.
Proof.
  induction rows as [|b rows IH]; simpl; intros acc e H; [discriminate|].
  apply rbind_Raise in H. destruct H as [H | (v & _ & H)].
  - eapply getitem_Raise; eassumption.
  - apply rbind_Raise in H. destruct H as [H | (acc' & _ & H)].
    + eapply py_add_Raise; eassumption.
    + eapply IH; eassumption.
Qed.

Lemma not_zero_division e : lookup_or_type_error e -> class_of e <> "ZeroDivisionError".
Proof. intros [H | H]; rewrite H; discriminate. Qed.

(** Line 396 divides only by a positive number. *)
Lemma failure_rate_of_Raise total_failed total_processed e :
  failure_rate_of total_failed total_processed = Raise e -> lookup_or_type_error e.
Proof.
  unfold failure_rate_of, py_gt, py_truediv.
  destruct (num_of total_processed) as [y|]; simpl.
  - destruct (Qle_bool y 0) eqn:Hle; simpl; [discriminate|].
    destruct (num_of total_failed) as [x|]; simpl.
    + destruct (Qeq_bool y 0) eqn:Heq; simpl; [|discriminate].
      apply Qeq_bool_iff in Heq.
      assert (Hy : Qle_bool y 0 = true).
      { apply Qle_bool_iff. rewrite Heq. apply Qle_refl. }
      congruence.
    + intros H. inversion H. right. reflexivity.
  - intros H. inversion H. right. reflexivity.
Qed.

Lemma failure_rate_of_zero total_failed total_processed :
  is_zero total_processed ->
  failure_rate_of total_failed total_processed = Ok (PInt 0).
Proof.
  intros (q & Hq & H0). unfold failure_rate_of, py_gt. rewrite Hq. simpl.
  assert (Hle : Qle_bool q 0 = true).
  { apply Qle_bool_iff. rewrite H0. apply Qle_refl. }
  rewrite Hle. reflexivity.
Qed.

Lemma failure_rate_Ok batch_issues total_processed total_failed rate :
  failure_rate batch_issues = Ok (total_processed, total_failed, rate) ->
  py_sum "processed_records" batch_issues = Ok total_processed /\
  py_sum "failed_records" batch_issues = Ok total_failed /\
  failure_rate_of total_failed total_processed = Ok rate.
Proof.
  unfold failure_rate. intros H.
  apply rbind_Ok in H. destruct H as (tp & Hp & H).
  apply rbind_Ok in H. destruct H as (tf & Hf & H).
  apply rbind_Ok in H. destruct H as (r & Hr & H).
  inversion H; subst. auto.
Qed.

End BatchFacts.

(** C9.  In [check_batch_data], when the sum of [processed_records] over the
    returned batch rows is zero, the failure rate is [0] and no division is
    performed: the computation of lines 394-396 yields [0]; it never raises
    [ZeroDivisionError], whatever the rows; and a report whose
    [total_records_processed] is zero has [failure_rate_percent] equal to [0]. *)
Theorem failure_rate_zero_when_nothing_processed :
  (forall batch_issues total_processed total_failed,
     DatabaseAgent.py_sum "processed_records" batch_issues = Ok total_processed ->
     DatabaseAgent.py_sum "failed_records" batch_issues = Ok total_failed ->
     Terms.is_zero total_processed ->
     DatabaseAgent.failure_rate batch_issues
     = Ok (total_processed, total_failed, PInt 0)) /\
  (forall batch_issues e,
     DatabaseAgent.failure_rate batch_issues = Raise e ->
     Terms.class_of e <> "ZeroDivisionError") /\
  (forall hours limit w v w' total_processed,
     Tools.check_batch_data hours limit w = (Ok v, w') ->
     Terms.field "total_records_processed" v = Some total_processed ->
     Terms.is_zero total_processed ->
     Terms.field "failure_rate_percent" v = Some (PInt 0)).
Proof.
  split; [|split].
  - intros rows tp tf Hp Hf Hz. unfold DatabaseAgent.failure_rate.
    rewrite Hp, Hf. simpl. rewrite (failure_rate_of_zero tf Hz). reflexivity.
  - intros rows e H. apply not_zero_division. unfold DatabaseAgent.failure_rate in H.
    apply rbind_Raise in H. destruct H as [H | (tp & _ & H)].
    { eapply sum_from_Raise; exact H. }
    apply rbind_Raise in H. destruct H as [H | (tf & _ & H)].
    { eapply sum_from_Raise; exact H. }
    apply rbind_Raise in H. destruct H as [H | (r & _ & H)]; [|discriminate].
    eapply failure_rate_of_Raise; exact H.
  - intros hours limit w v w' tp H Hfield Hz.
    unfold Tools.check_batch_data, DatabaseAgent.check_batch_data in H.
    destruct (guarded (DatabaseAgent.check_batch_data_try hours limit)
                      "Batch data check error" w) as (v0 & w0 & Hg & Hm).
    rewrite Hg in H. inversion H; subst v0 w0; clear H.
    destruct (DatabaseAgent.check_batch_data_try hours limit w) as [[r|e] w1] eqn:Htry;
      simpl in Hm; subst v; [|discriminate].
    unfold DatabaseAgent.check_batch_data_try in Htry.
    apply bind_Ok in Htry. destruct Htry as (a & wa & _ & Htry).
    apply bind_Ok in Htry. destruct Htry as (issues & wb & _ & Htry).
    destruct issues as [[|b bs]|].
    + apply ret_Ok in Htry. destruct Htry as (-> & _). discriminate.
    + apply bind_Ok in Htry. destruct Htry as (ids & w2 & _ & Htry).
      apply bind_Ok in Htry. destruct Htry as (errors & w3 & _ & Htry).
      apply bind_Ok in Htry. destruct Htry as (m & w4 & _ & Htry).
      apply bind_Ok in Htry. destruct Htry as (enriched & w5 & _ & Htry).
      apply bind_Ok in Htry. destruct Htry as ([[tp' tf] rate] & w6 & Hrate & Htry).
      apply ret_Ok in Htry. destruct Htry as (-> & _).
      simpl in Hfield. inversion Hfield; subst tp'.
      unfold lift in Hrate. inversion Hrate as [[Hr Hw]].
      apply failure_rate_Ok in Hr. destruct Hr as (_ & _ & Hr).
      rewrite (failure_rate_of_zero tf Hz) in Hr. inversion Hr. reflexivity.
    + apply ret_Ok in Htry. destruct Htry as (-> & _). discriminate.
Qed.

Lemma failure_rate_zero_when_nothing_processed_witness :
  DatabaseAgent.failure_rate Examples.nothing_processed = Ok (PInt 0, PInt 4, PInt 0) /\
  exists v w',
    Tools.check_batch_data 24 5 (Examples.fresh Examples.failed_batch) = (Ok v, w') /\
    Terms.field "status" v = Some (PStr "BATCH ISSUES DETECTED") /\
    Terms.field "failure_rate_percent" v = Some (PInt 0).
Proof.
  assert (Hz : Terms.is_zero (PInt 0)).
  { exists (inject_Z 0). split; reflexivity. }
  destruct failure_rate_zero_when_nothing_processed as (Hrate & _ & Hreport).
  split.
  - apply Hrate; [vm_compute; reflexivity | vm_compute; reflexivity | exact Hz].
  - eexists. eexists. split; [vm_compute; reflexivity|]. split; [reflexivity|].
    eapply (Hreport 24 5 (Examples.fresh Examples.failed_batch) _ _ (PInt 0));
      [vm_compute; reflexivity | reflexivity | exact Hz].
Defined.

(* ------------------------------------------------------------------------- *)
(** ** An unrecognized table scope *)

Section ScopeFacts.
Import DatabaseConnection DatabaseAgent Terms.

(** Obtaining the connection executes no statement. *)
Lemma get_db_connection_executes_nothing w r w1 :
  get_db_connection w = (r, w1) ->
  forall s, In (EExecute s) (trace w1) -> In (EExecute s) (trace w).
Proof.
  unfold get_db_connection.
  destruct (db_singleton w).
  - intros H. inversion H. auto.
  - unfold connect, bind, set_singleton, set_connection, emit, get_engine, raise. simpl.
    destruct (connect_error (engine w)); simpl; intros H; inversion H; subst; simpl;
      intros s Hin; repeat (apply in_app_or in Hin; destruct Hin as [Hin | Hin]);
      try assumption;
      try (destruct Hin as [Hin | []]; discriminate).
Qed.

Lemma unknown_scope tables :
  str_in (lower tables) known_scopes = false ->
  str_in (lower tables) ["all"; "orders"] = false /\
  str_in (lower tables) ["all"; "inventory"] = false /\
  str_in (lower tables) ["all"; "transactions"; "transaction_log"] = false.
Proof.
  unfold str_in, known_scopes. simpl.
  repeat rewrite orb_false_r. repeat rewrite orb_false_iff.
  intros (H1 & H2 & H3 & H4 & H5). rewrite H1, H2, H3, H4, H5. auto.
Qed.

End ScopeFacts.

(** C10, as stated, fails: [check_abnormal_data] asks for the database handle
    before it looks at the scope (line 246).  On the first call of a process
    whose server cannot be reached, the unknown scope "Customers" is answered
    with the failure envelope, not with NORMAL. *)
Lemma unrecognized_scope_fails_when_unreachable :
  str_in (lower "Customers") Terms.known_scopes = false /\
  exists v w',
    Tools.check_abnormal_data "Customers" (Examples.fresh Examples.unreachable)
    = (Ok v, w') /\
    v = Terms.failure_envelope (PgError None "connection refused") /\
    Terms.field "success" v = Some (PBool false) /\
    Terms.field "status" v = None /\
    v <> Terms.normal_envelope "Customers".
Proof.
  split; [reflexivity|]. eexists. eexists. split; [vm_compute; reflexivity|].
  split; [reflexivity|]. split; [reflexivity|]. split; [reflexivity|].
  discriminate.
Qed.

(** C10, amended.  For a [tables] argument whose lowercase form is none of the
    known scopes, [check_abnormal_data] executes no statement at all.  When
    the database handle is obtained it returns the envelope
    [{success: true, tables_checked, has_abnormal_data: false, status: NORMAL, message}];
    when obtaining the handle raises, it returns the failure envelope of that
    exception.  The scope itself is never reported as an error. *)
Theorem unrecognized_scope_normal_or_failure (tables : string) (w : world) :
  str_in (lower tables) Terms.known_scopes = false ->
  (forall w1,
     DatabaseConnection.get_db_connection w = (Ok tt, w1) ->
     Tools.check_abnormal_data tables w = (Ok (Terms.normal_envelope tables), w1)) /\
  (forall e w1,
     DatabaseConnection.get_db_connection w = (Raise e, w1) ->
     exists w',
       Tools.check_abnormal_data tables w = (Ok (Terms.failure_envelope e), w')) /\
  (forall v w',
     Tools.check_abnormal_data tables w = (Ok v, w') ->
     forall s, In (EExecute s) (trace w') -> In (EExecute s) (trace w)).
Proof.
  intros Hscope. apply unknown_scope in Hscope. destruct Hscope as (H1 & H2 & H3).
  unfold Tools.check_abnormal_data, DatabaseAgent.check_abnormal_data,
    DatabaseAgent.check_abnormal_data_try, try_except, bind.
  rewrite H1, H2, H3. split; [|split].
  - intros w1 Hc. rewrite Hc. reflexivity.
  - intros e w1 Hc. rewrite Hc. apply failure_returns.
  - intros v w'.
    destruct (DatabaseConnection.get_db_connection w) as [[[]|e] w1] eqn:Hc; simpl.
    + intros H. inversion H; subst.
      eapply get_db_connection_executes_nothing; exact Hc.
    + unfold DatabaseAgent.failure, bind, emit, ret. simpl.
      intros H. inversion H; subst. simpl. intros s Hin.
      apply in_app_or in Hin. destruct Hin as [Hin | [Hin | []]]; [|discriminate].
      eapply get_db_connection_executes_nothing; [exact Hc | exact Hin].
Qed.

Lemma unrecognized_scope_normal_or_failure_witness :
  str_in (lower "Customers") Terms.known_scopes = false /\
  exists w',
    Tools.check_abnormal_data "Customers" (Examples.fresh Examples.idle)
    = (Ok (Terms.normal_envelope "Customers"), w') /\
    forall s, ~ In (EExecute s) (trace w').
Proof.
  assert (Hscope : str_in (lower "Customers") Terms.known_scopes = false)
    by reflexivity.
  split; [exact Hscope|].
  destruct (@unrecognized_scope_normal_or_failure "Customers"
              (Examples.fresh Examples.idle) Hscope)
    as (Hnormal & _ & Hquiet).
  eexists. split.
  - apply Hnormal. vm_compute. reflexivity.
  - intros s Hin. eapply Hquiet in Hin; [exact Hin|]. apply Hnormal.
    vm_compute. reflexivity.
Defined.

(* ------------------------------------------------------------------------- *)
(** ** The transaction scripts *)

Section ScriptFacts.
Import Coordinator Terms.

Lemma open_session_done e b :
  e Connect = Done -> open_session e (spawn b) = (Returns tt, opened b).
Proof.
  intros H. unfold open_session, tbind, blocking. rewrite H. reflexivity.
Qed.

(** The two closing calls, on a thread that has a session. *)
Lemma closes t s :
  sess t = Some s ->
  (close_cursor ;;; close_connection) t
  = (Returns tt,
     {| sess := Some {| connection_open := false; cursor_open := false;
                        transaction := transaction s |};
        flags := flags t;
        actions := (actions t ++ [ACursorClose]) ++ [AConnectionClose] |}).
Proof.
  intros H. unfold close_cursor, close_connection, tbind, update_session, act.
  simpl. rewrite H. reflexivity.
Qed.

Lemma keeps_tbind {A B} (m : T A) (k : A -> T B) :
  keeps_session m -> (forall a, keeps_session (k a)) -> keeps_session (tbind m k).
Proof.
  intros Hm Hk t x t' H Hs. unfold tbind in H.
  destruct (m t) as [[a|err|] t1] eqn:E.
  - eapply Hk; [exact H|]. eapply Hm; eassumption.
  - inversion H; subst. eapply Hm; eassumption.
  - inversion H; subst. eapply Hm; eassumption.
Qed.

Lemma keeps_act a : keeps_session (act a).
Proof. intros t x t' H Hs. inversion H; subst. exact Hs. Qed.

Lemma keeps_update f : keeps_session (update_session f).
Proof.
  intros t x t' H Hs. inversion H; subst. simpl.
  destruct (sess t); [discriminate | contradiction].
Qed.

Lemma keeps_blocking c e a : keeps_session (blocking c e a).
Proof.
  unfold blocking. destruct (e c).
  - apply keeps_act.
  - intros t x t' H Hs. inversion H; subst. exact Hs.
  - intros t x t' H Hs. inversion H; subst. exact Hs.
Qed.

Lemma keeps_set_event p : keeps_session (set_event p).
Proof.
  unfold set_event. apply keeps_tbind; [|intros; apply keeps_act].
  intros t x t' H Hs. inversion H; subst. exact Hs.
Qed.

Lemma keeps_execute e sql : keeps_session (execute e sql).
Proof.
  unfold execute, set_transaction.
  apply keeps_tbind; [apply keeps_blocking | intros; apply keeps_update].
Qed.

Lemma keeps_commit e : keeps_session (commit e).
Proof.
  unfold commit, set_transaction.
  apply keeps_tbind; [apply keeps_blocking | intros; apply keeps_update].
Qed.

Lemma keeps_rollback e : keeps_session (rollback e).
Proof.
  unfold rollback, set_transaction.
  apply keeps_tbind; [apply keeps_blocking | intros; apply keeps_update].
Qed.

Lemma keeps_script_try p e : keeps_session (script_try p e).
Proof.
  destruct p; simpl; unfold txn1_try, txn2_try, wait_event;
    repeat (apply keeps_tbind; [|intros _]);
    first [ apply keeps_blocking | apply keeps_act | apply keeps_update
          | intros t x t' H Hs; inversion H; subst; exact Hs ].
Qed.

Lemma keeps_except {A} (body : T A) handler :
  keeps_session body -> (forall x, keeps_session (handler x)) ->
  keeps_session (except_psycopg2_Error body handler).
Proof.
  intros Hb Hh t x t' H Hs. unfold except_psycopg2_Error in H.
  destruct (body t) as [[a|err|] t1] eqn:E.
  - inversion H; subst. eapply Hb; eassumption.
  - destruct (is_psycopg2_Error err).
    + eapply Hh; [exact H|]. eapply Hb; eassumption.
    + inversion H; subst. eapply Hb; eassumption.
  - inversion H; subst. eapply Hb; eassumption.
Qed.

Lemma script_unfold p e :
  script p e
  = (open_session e ;;; finally (guarded_part p e) (close_cursor ;;; close_connection)).
Proof. destruct p; reflexivity. Qed.

Lemma keeps_guarded_part p e : keeps_session (guarded_part p e).
Proof.
  apply keeps_except; [apply keeps_script_try|].
  intros x. apply keeps_tbind; [apply keeps_act | intros; apply keeps_rollback].
Qed.

(** A script whose session is open ends as its guarded part ends, after the
    two closing calls. *)
Lemma script_opened p e b :
  e Connect = Done ->
  forall x t1, guarded_part p e (Terms.opened b) = (x, t1) ->
  exists s,
    sess t1 = Some s /\
    script p e (spawn b)
    = (x, match x with
          | Hangs => t1
          | _ => {| sess := Some {| connection_open := false; cursor_open := false;
                                    transaction := transaction s |};
                    flags := flags t1;
                    actions := (actions t1 ++ [ACursorClose]) ++ [AConnectionClose] |}
          end).
Proof.
  intros Hc x t1 Hg.
  assert (Hs : sess t1 <> None).
  { eapply keeps_guarded_part; [exact Hg | discriminate]. }
  destruct (sess t1) as [s|] eqn:Es; [|contradiction].
  exists s. split; [reflexivity|].
  rewrite script_unfold. unfold tbind at 1. rewrite (open_session_done e b Hc).
  unfold finally. rewrite Hg.
  destruct x as [[]|err|]; try rewrite (closes t1 Es); reflexivity.
Qed.

End ScriptFacts.

(** C7.  On every exit path of a transaction script that has opened its
    session, by return after the commit, by return after the rollback of a
    caught error, or by an exception that leaves the script, the cursor and
    the connection are closed, and closing them is the last thing the script
    does. *)
Theorem session_closed_on_every_exit
  (p : Coordinator.participant) (e : Coordinator.env) (b : Coordinator.barrier) :
  e Coordinator.Connect = Coordinator.Done ->
  fst (Coordinator.script p e (Coordinator.spawn b)) <> Coordinator.Hangs ->
  let t := snd (Coordinator.script p e (Coordinator.spawn b)) in
  Terms.closed_session t /\
  exists done, Coordinator.actions t
               = (done ++ [Coordinator.ACursorClose; Coordinator.AConnectionClose])%list.
Proof.
  intros Hc Hx.
  destruct (Terms.guarded_part p e (Terms.opened b)) as [x t1] eqn:Hg.
  destruct (script_opened p e b Hc Hg) as (s & Hs & Hscript).
  rewrite Hscript in *. simpl in *.
  destruct x as [[]|err|]; try (exfalso; apply Hx; reflexivity); simpl;
    (split; [unfold Terms.closed_session; simpl; auto|]);
    exists (Coordinator.actions t1); rewrite <- app_assoc; reflexivity.
Qed.

Lemma session_closed_on_every_exit_witness :
  Terms.closed_session
    (snd (Coordinator.script Coordinator.T1 Examples.env_commit
            (Coordinator.spawn Coordinator.cleared))) /\
  Terms.closed_session
    (snd (Coordinator.script Coordinator.T1 Examples.env_victim
            (Coordinator.spawn Coordinator.cleared))) /\
  Terms.closed_session
    (snd (Coordinator.script Coordinator.T2 Examples.env_out_of_memory
            (Coordinator.spawn Coordinator.cleared))).
Proof.
  assert (H1 : fst (Coordinator.script Coordinator.T1 Examples.env_commit
                      (Coordinator.spawn Coordinator.cleared)) <> Coordinator.Hangs)
    by (vm_compute; discriminate).
  assert (H2 : fst (Coordinator.script Coordinator.T1 Examples.env_victim
                      (Coordinator.spawn Coordinator.cleared)) <> Coordinator.Hangs)
    by (vm_compute; discriminate).
  assert (H3 : fst (Coordinator.script Coordinator.T2 Examples.env_out_of_memory
                      (Coordinator.spawn Coordinator.cleared)) <> Coordinator.Hangs)
    by (vm_compute; discriminate).
  pose proof (@session_closed_on_every_exit Coordinator.T1 Examples.env_commit
                Coordinator.cleared eq_refl H1) as C1.
  pose proof (@session_closed_on_every_exit Coordinator.T1 Examples.env_victim
                Coordinator.cleared eq_refl H2) as C2.
  pose proof (@session_closed_on_every_exit Coordinator.T2 Examples.env_out_of_memory
                Coordinator.cleared eq_refl H3) as C3.
  exact (conj (proj1 C1) (conj (proj1 C2) (proj1 C3))).
Defined.

(** The three exits of the witness: a commit, a rollback, an exception. *)
Example exits_of_the_scripts :
  fst (Coordinator.txn1 Examples.env_commit (Coordinator.spawn Coordinator.cleared))
  = Coordinator.Returns tt /\
  fst (Coordinator.txn1 Examples.env_victim (Coordinator.spawn Coordinator.cleared))
  = Coordinator.Returns tt /\
  fst (Coordinator.txn2 Examples.env_out_of_memory (Coordinator.spawn Coordinator.cleared))
  = Coordinator.Propagates Examples.out_of_memory.
Proof. vm_compute. auto. Qed.

(** C4, as stated, fails: [except psycopg2.Error] catches every database
    error.  With the table [orders] missing (SQLSTATE 42P01, outside the
    deadlock class) [txn1] prints the error, rolls back and returns. *)
Lemma non_deadlock_error_swallowed :
  Terms.deadlock_class Examples.undefined_table = false /\
  Examples.env_undefined_table (Coordinator.Execute Coordinator.lock_orders)
  = Coordinator.Raises Examples.undefined_table /\
  let run := Coordinator.txn1 Examples.env_undefined_table
               (Coordinator.spawn Coordinator.cleared) in
  fst run = Coordinator.Returns tt /\
  Coordinator.actions (snd run)
  = [ Coordinator.AConnect; Coordinator.ACursor;
      Coordinator.AExecute Coordinator.set_timeout;
      Coordinator.APrint
        "[T1] DEADLOCK or rollback: 42P01 - relation orders does not exist";
      Coordinator.ARollback;
      Coordinator.ACursorClose; Coordinator.AConnectionClose ].
Proof. vm_compute. auto. Qed.

(** C4, amended.  In a transaction script whose session is open, every
    [psycopg2.Error] raised inside the [try] block, of the deadlock class or
    not, is recovered locally: it is printed with its [pgcode] and the
    transaction is rolled back, and the script ends as the rollback ends.  An
    exception that is no [psycopg2.Error] leaves the script. *)
Theorem psycopg2_errors_recovered_others_surface
  (p : Coordinator.participant) (e : Coordinator.env) (b : Coordinator.barrier) :
  e Coordinator.Connect = Coordinator.Done ->
  let run := Coordinator.script p e (Coordinator.spawn b) in
  match fst (Coordinator.script_try p e (Terms.opened b)) with
  | Coordinator.Returns _ => fst run = Coordinator.Returns tt
  | Coordinator.Propagates err =>
      if is_psycopg2_Error err
      then In (Coordinator.APrint (Coordinator.report_rollback (Coordinator.label p) err))
              (Coordinator.actions (snd run)) /\
           fst run = match e Coordinator.Rollback with
                     | Coordinator.Done => Coordinator.Returns tt
                     | Coordinator.Raises r => Coordinator.Propagates r
                     | Coordinator.Blocks => Coordinator.Hangs
                     end
      else fst run = Coordinator.Propagates err
  | Coordinator.Hangs => fst run = Coordinator.Hangs
  end.
Proof.
  intros Hc run. subst run.
  destruct (Terms.guarded_part p e (Terms.opened b)) as [x t1] eqn:Hg.
  destruct (script_opened p e b Hc Hg) as (s & Hs & ->).
  unfold Terms.guarded_part, Coordinator.except_psycopg2_Error in Hg.
  destruct (Coordinator.script_try p e (Terms.opened b)) as [[[]|err|] t0]; simpl.
  - inversion Hg; subst. reflexivity.
  - destruct (is_psycopg2_Error err).
    + unfold Coordinator.tbind, Coordinator.act, Coordinator.rollback,
        Coordinator.blocking, Coordinator.set_transaction,
        Coordinator.update_session in Hg. simpl in Hg.
      destruct (e Coordinator.Rollback); simpl in Hg; inversion Hg; subst; simpl;
        (split; [|reflexivity]);
        rewrite !in_app_iff; simpl; intuition.
    + inversion Hg; subst. reflexivity.
  - inversion Hg; subst. reflexivity.
Qed.

Lemma psycopg2_errors_recovered_others_surface_witness :
  fst (Coordinator.script Coordinator.T1 Examples.env_victim
         (Coordinator.spawn Coordinator.cleared))
  = Coordinator.Returns tt /\
  fst (Coordinator.script Coordinator.T2 Examples.env_out_of_memory
         (Coordinator.spawn Coordinator.cleared))
  = Coordinator.Propagates Examples.out_of_memory.
Proof.
  pose proof (@psycopg2_errors_recovered_others_surface Coordinator.T1
                Examples.env_victim Coordinator.cleared eq_refl) as H1.
  pose proof (@psycopg2_errors_recovered_others_surface Coordinator.T2
                Examples.env_out_of_memory Coordinator.cleared eq_refl) as H2.
  vm_compute in H1. vm_compute in H2. vm_compute.
  exact (conj (proj2 H1) H2).
Defined.

(* ------------------------------------------------------------------------- *)
(** ** The rounds of the Coordinator *)

Section RoundFacts.
Import Coordinator Terms.

Lemma launch_ok_record s c :
  launch_ok s -> Forall launch_ok (history c) -> Forall launch_ok (history (record s c)).
Proof.
  intros Hs Hc. unfold record. simpl. apply Forall_app. split; [exact Hc|].
  constructor; [exact Hs | constructor].
Qed.

Lemma next_not_stuck f c : stuck c = false -> next f c = f c.
Proof. intros H. unfold next. rewrite H. reflexivity. Qed.

Lemma next_stuck f c : stuck c = true -> next f c = c.
Proof. intros H. unfold next. rewrite H. reflexivity. Qed.

Lemma print_launches_nothing msg : launches_nothing (record (Print msg)).
Proof.
  intros c. unfold next. destruct (stuck c).
  - exists []. rewrite app_nil_r. split; [reflexivity | constructor].
  - exists [Print msg]. split; [reflexivity | repeat constructor].
Qed.

Lemma join_launches_nothing p e : launches_nothing (join p e).
Proof.
  intros c. unfold next, join. destruct (stuck c).
  - exists []. rewrite app_nil_r. split; [reflexivity | constructor].
  - destruct (terminates p e (events c)).
    + exists [Joined p]. split; [reflexivity | repeat constructor].
    + exists []. simpl. rewrite app_nil_r. split; [reflexivity | constructor].
Qed.

(** The steps of a round up to the second launch, on a main thread that is
    not stuck. *)
Lemma round_prefix r round_id c :
  stuck c = false ->
  exists seen rest,
    lock2_acquired seen = false /\
    history (run_deadlock_round r round_id c)
    = (history c
       ++ [ Print (newline ++ "=== ROUND " ++ str_of_int round_id ++ " ===");
            Clear T1; Clear T2; Launch T1 cleared; Launch T2 seen ]
       ++ rest)%list /\
    Forall launch_ok rest.
Proof.
  intros Hc. unfold run_deadlock_round. cbv zeta.
  rewrite (next_not_stuck (record _) c Hc).
  rewrite (next_not_stuck (clear T1)) by exact Hc.
  rewrite (next_not_stuck (clear T2)) by exact Hc.
  rewrite (next_not_stuck (start T1)) by exact Hc.
  rewrite (next_not_stuck (if early r then _ else _)) by exact Hc.
  set (c5 := (if early r then signalled T1 (env1 r) else fun x => x) _).
  assert (H5 : stuck c5 = false /\ lock2_acquired (events c5) = false /\
               history c5
               = (history c
                  ++ [ Print (newline ++ "=== ROUND " ++ str_of_int round_id ++ " ===");
                       Clear T1; Clear T2; Launch T1 cleared ])%list).
  { subst c5. destruct (early r); unfold signalled, start, clear, record;
      cbn [stuck events history with_flag lock1_acquired lock2_acquired].
    - destruct (signals T1 (env1 r) _);
        cbn [with_flag lock1_acquired lock2_acquired];
        (split; [exact Hc|]); (split; [reflexivity|]);
        repeat rewrite <- app_assoc; reflexivity.
    - (split; [exact Hc|]); (split; [reflexivity|]);
        repeat rewrite <- app_assoc; reflexivity. }
  destruct H5 as (Hs5 & He5 & Hh5).
  rewrite (next_not_stuck (start T2)) by exact Hs5.
  destruct (join_launches_nothing T1 (env1 r) (start T2 c5)) as (r1 & Hr1 & Hl1).
  destruct (join_launches_nothing T2 (env2 r) (next (join T1 (env1 r)) (start T2 c5)))
    as (r2 & Hr2 & Hl2).
  destruct (print_launches_nothing
              ("=== END ROUND " ++ str_of_int round_id ++ " ===")
              (next (join T2 (env2 r)) (next (join T1 (env1 r)) (start T2 c5))))
    as (r3 & Hr3 & Hl3).
  exists (events c5), (r1 ++ r2 ++ r3)%list.
  split; [exact He5|]. split.
  - rewrite Hr3, Hr2, Hr1. unfold start, record. cbn [history]. rewrite Hh5.
    repeat rewrite <- app_assoc. reflexivity.
  - repeat (apply Forall_app; split); assumption.
Qed.

Lemma round_launches r round_id c :
  Forall launch_ok (history c) ->
  Forall launch_ok (history (run_deadlock_round r round_id c)).
Proof.
  intros H. destruct (stuck c) eqn:Hc.
  - unfold run_deadlock_round. cbv zeta.
    repeat rewrite (fun f => next_stuck f c Hc). exact H.
  - destruct (round_prefix r round_id c Hc) as (seen & rest & Hseen & -> & Hrest).
    apply Forall_app. split; [exact H|]. apply Forall_app. split; [|exact Hrest].
    repeat constructor. exact Hseen.
Qed.

Lemma main_launches n rounds : forall round_id c,
  Forall launch_ok (history c) ->
  Forall launch_ok (history (main_from n rounds round_id c)).
Proof.
  induction n as [|n IH]; intros round_id c H; simpl; [exact H|].
  apply IH. unfold next.
  destruct (stuck (run_deadlock_round (rounds round_id) round_id c)).
  - apply round_launches, H.
  - apply launch_ok_record; [exact I|]. apply round_launches, H.
Qed.

End RoundFacts.

(** C6.  In every round both events are cleared before either script is
    launched, whatever the previous round left behind: a round of a main
    thread that is not stuck runs [clear], [clear], then launches the first
    script with both events cleared and then the second one with its own
    event cleared; and over any number of back-to-back rounds, whatever the
    scripts of each round do, every launch sees the events so. *)
Theorem events_cleared_before_launch :
  (forall r round_id c,
     Coordinator.stuck c = false ->
     exists seen rest,
       Coordinator.lock2_acquired seen = false /\
       Coordinator.history (Coordinator.run_deadlock_round r round_id c)
       = (Coordinator.history c
          ++ [ Coordinator.Print
                 (Coordinator.newline ++ "=== ROUND "
                  ++ Coordinator.str_of_int round_id ++ " ===");
               Coordinator.Clear Coordinator.T1;
               Coordinator.Clear Coordinator.T2;
               Coordinator.Launch Coordinator.T1 Coordinator.cleared;
               Coordinator.Launch Coordinator.T2 seen ]
          ++ rest)%list) /\
  (forall n rounds b,
     Forall Terms.launch_ok
       (Coordinator.history
          (Coordinator.main n rounds
             {| Coordinator.events := b;
                Coordinator.history := [];
                Coordinator.stuck := false |}))).
Proof.
  split.
  - intros r round_id c Hc.
    destruct (round_prefix r round_id c Hc) as (seen & rest & Hseen & Hh & _).
    exists seen, rest. split; assumption.
  - intros n rounds b. unfold Coordinator.main. apply main_launches. constructor.
Qed.

Lemma events_cleared_before_launch_witness :
  Coordinator.events Examples.after_a_round
  = {| Coordinator.lock1_acquired := true; Coordinator.lock2_acquired := true |} /\
  exists seen rest,
    Coordinator.lock2_acquired seen = false /\
    Coordinator.history
      (Coordinator.run_deadlock_round Examples.round_victim 2 Examples.after_a_round)
    = (Coordinator.history Examples.after_a_round
       ++ [ Coordinator.Print
              (Coordinator.newline ++ "=== ROUND "
               ++ Coordinator.str_of_int 2 ++ " ===");
            Coordinator.Clear Coordinator.T1;
            Coordinator.Clear Coordinator.T2;
            Coordinator.Launch Coordinator.T1 Coordinator.cleared;
            Coordinator.Launch Coordinator.T2 seen ]
       ++ rest)%list.
Proof.
  split; [reflexivity|].
  exact (proj1 events_cleared_before_launch
           Examples.round_victim 2 Examples.after_a_round eq_refl).
Defined.

(** Two rounds back to back: the events are set when the first round ends and
    cleared again when the second round launches its first script. *)
Example two_rounds :
  let c := Coordinator.main 2 (fun _ => Examples.round_victim)
             {| Coordinator.events := Coordinator.cleared;
                Coordinator.history := [];
                Coordinator.stuck := false |} in
  Coordinator.events c
  = {| Coordinator.lock1_acquired := true; Coordinator.lock2_acquired := true |} /\
  Coordinator.history c
  = [ Coordinator.Print (Coordinator.newline ++ "=== ROUND 1 ===");
      Coordinator.Clear Coordinator.T1; Coordinator.Clear Coordinator.T2;
      Coordinator.Launch Coordinator.T1 Coordinator.cleared;
      Coordinator.Launch Coordinator.T2
        {| Coordinator.lock1_acquired := true; Coordinator.lock2_acquired := false |};
      Coordinator.Joined Coordinator.T1; Coordinator.Joined Coordinator.T2;
      Coordinator.Print "=== END ROUND 1 ===";
      Coordinator.Slept;
      Coordinator.Print (Coordinator.newline ++ "=== ROUND 2 ===");
      Coordinator.Clear Coordinator.T1; Coordinator.Clear Coordinator.T2;
      Coordinator.Launch Coordinator.T1 Coordinator.cleared;
      Coordinator.Launch Coordinator.T2
        {| Coordinator.lock1_acquired := true; Coordinator.lock2_acquired := false |};
      Coordinator.Joined Coordinator.T1; Coordinator.Joined Coordinator.T2;
      Coordinator.Print "=== END ROUND 2 ===";
      Coordinator.Slept ].
Proof. vm_compute. auto. Qed.

(* ------------------------------------------------------------------------- *)
(** ** The paths through the connection, the agent and the scripts *)

Open Scope py_scope.
Section ValueFacts.
Import Observed.

(** Induction on values, through the lists and the dict values. *)
Lemma pyval_nested_ind (P : pyval -> Prop) :
  P PNone -> (forall b, P (PBool b)) -> (forall z, P (PInt z)) ->
  (forall q, P (PFloat q)) -> (forall q, P (PDecimal q)) -> (forall s, P (PStr s)) ->
  (forall l, Forall P l -> P (PList l)) ->
  (forall d, Forall (fun kv => P (snd kv)) d -> P (PDict d)) ->
  forall v, P v.
Proof.
  intros HN HB HI HF HD HS HL HDi.
  fix IH 1. intros [ | b | z | q | q | s | l | d].
  - exact HN.
  - apply HB.
  - apply HI.
  - apply HF.
  - apply HD.
  - apply HS.
  - apply HL. induction l as [|x l IHl]; constructor; [apply IH | exact IHl].
  - apply HDi. induction d as [|[k x] d IHd]; constructor; [apply IH | exact IHd].
Qed.


End ValueFacts.

(** X1.  [convert_decimals] leaves no [Decimal] behind: in its result no value,
    at any depth of lists and dict values, is a [Decimal]. *)
Theorem convert_decimals_leaves_no_decimal (v : pyval) :
  Observed.decimal_free (convert_decimals v) = true.
Proof.
  induction v using pyval_nested_ind; simpl; try reflexivity.
  - rewrite forallb_forall. intros x Hx. apply in_map_iff in Hx.
    destruct Hx as (y & <- & Hy). rewrite Forall_forall in H. apply H, Hy.
  - rewrite forallb_forall. intros x Hx. apply in_map_iff in Hx.
    destruct Hx as (y & <- & Hy). rewrite Forall_forall in H. simpl. apply H, Hy.
Qed.

(** X2.  [convert_decimals] changes nothing but [Decimal]s: a value that holds
    no [Decimal] is returned as it is, and converting a second time changes
    nothing. *)
Theorem convert_decimals_only_changes_decimals :
  (forall v, Observed.decimal_free v = true -> convert_decimals v = v) /\
  (forall v, convert_decimals (convert_decimals v) = convert_decimals v).
Proof.
  assert (Hid : forall v, Observed.decimal_free v = true -> convert_decimals v = v).
  { induction v using pyval_nested_ind; simpl; intros Hf; try reflexivity;
      try discriminate.
    - f_equal. rewrite forallb_forall in Hf. rewrite Forall_forall in H.
      rewrite <- (map_id l) at 2. apply map_ext_in. intros x Hx. apply H; auto.
    - f_equal. rewrite forallb_forall in Hf. rewrite Forall_forall in H.
      rewrite <- (map_id d) at 2. apply map_ext_in. intros [k x] Hx. simpl.
      f_equal. apply (H (k, x) Hx). apply (Hf (k, x) Hx). }
  split; [exact Hid|].
  intros v. apply Hid. induction v using pyval_nested_ind; simpl; try reflexivity.
  - rewrite forallb_forall. intros x Hx. apply in_map_iff in Hx.
    destruct Hx as (y & <- & Hy). rewrite Forall_forall in H. apply H, Hy.
  - rewrite forallb_forall. intros x Hx. apply in_map_iff in Hx.
    destruct Hx as (y & <- & Hy). rewrite Forall_forall in H. simpl. apply H, Hy.
Qed.

Lemma convert_decimals_only_changes_decimals_witness :
  convert_decimals (PDict [ "size_mb" :-> PFloat 12; "name" :-> PStr "testdb" ])
  = PDict [ "size_mb" :-> PFloat 12; "name" :-> PStr "testdb" ].
Proof.
  apply (proj1 convert_decimals_only_changes_decimals). reflexivity.
Defined.


Section ConnectionFacts.
Import Observed DatabaseConnection.

Lemma executed_app a b : executed (a ++ b) = (executed a ++ executed b)%list.
Proof.
  induction a as [|ev a IH]; simpl; [reflexivity|].
  destruct ev; simpl; rewrite IH; reflexivity.
Qed.

End ConnectionFacts.

(** X4.  [execute_query] (with the [cursor] context manager) commits or rolls
    back, never both.  When it returns, the events end with cursor, execute,
    commit, cursor close, nothing else was executed, and the rows are the
    converted answer (or [None] without [fetch]).  When it raises, nothing
    was committed, and once a cursor was opened it is closed last: either
    after the rollback and the logged error, the exception being the one of
    the statement or of the commit, or, when [rollback()] itself raised,
    without rollback and without any logged error, the exception being the
    one of [rollback()]. *)
Theorem execute_query_commits_or_rolls_back
  (s : statement) (fetch : bool) (w : world) (r : result (option (list pyval)))
  (w' : world) :
  DatabaseConnection.execute_query s fetch w = (r, w') ->
  exists evs,
    trace w' = (trace w ++ evs)%list /\
    match r with
    | Ok rows =>
        rows = (if fetch
                then Some (map convert_decimals (DatabaseConnection.answer (engine w) s))
                else None) /\
        exists pre, evs = (pre ++ [ECursor; EExecute s; ECommit; ECursorClose])%list /\
                    Observed.executed pre = []
    | Raise e =>
        ~ In ECommit evs /\
        (In ECursor evs ->
         (rollback_error (engine w) = None /\
          exists pre, evs = (pre ++ [ERollback;
                                     ELogError ("Database error: " ++ str_exn e);
                                     ECursorClose])%list) \/
         (rollback_error (engine w) = Some e /\
          ~ In ERollback evs /\ (forall msg, ~ In (ELogError msg) evs) /\
          exists pre, evs = (pre ++ [ECursorClose])%list))
    end.
Proof.
  destruct w as [e sg c tr].
  unfold DatabaseConnection.execute_query, DatabaseConnection.with_cursor,
    DatabaseConnection.new_cursor, DatabaseConnection.connect,
    DatabaseConnection.execute, DatabaseConnection.fetchall,
    try_finally, try_except, bind, ret, raise, emit, get_engine, get_connection,
    set_connection. simpl.
  destruct c as [[[|]]|]; simpl;
    destruct (connect_error e); simpl;
    destruct (execute_error e s); simpl;
    destruct fetch; simpl;
    destruct (commit_error e); simpl;
    destruct (rollback_error e); simpl;
    intros H; inversion H; subst; clear H; simpl;
    repeat rewrite <- app_assoc; simpl;
    first [ exists []; split; [rewrite app_nil_r; reflexivity|]
          | eexists; split; [reflexivity|] ]; simpl;
    lazymatch goal with
    | |- ~ _ /\ _ =>
        split; [intros Hin; simpl in Hin; intuition discriminate|];
        intros Hc;
        first
          [ exfalso; simpl in Hc; intuition discriminate
          | left; split; [reflexivity|];
            first [ eexists [_]; reflexivity | eexists [_; _]; reflexivity
                  | eexists [_; _; _]; reflexivity
                  | eexists [_; _; _; _]; reflexivity ]
          | right; split; [reflexivity|];
            split; [intros Hin; simpl in Hin; intuition discriminate|];
            split; [intros msg Hin; simpl in Hin; intuition discriminate|];
            first [ eexists [_]; reflexivity | eexists [_; _]; reflexivity
                  | eexists [_; _; _]; reflexivity
                  | eexists [_; _; _; _]; reflexivity ] ]
    | |- _ = _ /\ _ =>
        split; [reflexivity|];
        first [ exists []; split; reflexivity
              | eexists [_; _]; split; reflexivity ]
    end.
Qed.

Lemma execute_query_commits_or_rolls_back_witness :
  let run := DatabaseConnection.execute_query SNegativeOrders true
               (Examples.fresh Examples.idle) in
  fst run = Ok (Some []) /\
  exists evs, trace (snd run) = (trace (Examples.fresh Examples.idle) ++ evs)%list.
Proof.
  pose (run := DatabaseConnection.execute_query SNegativeOrders true
                 (Examples.fresh Examples.idle)).
  pose proof (@execute_query_commits_or_rolls_back SNegativeOrders true
                (Examples.fresh Examples.idle) (fst run) (snd run)
                (surjective_pairing run)) as H.
  destruct H as (evs & Ht & _).
  split; [vm_compute; reflexivity|]. exists evs. exact Ht.
Defined.

Section ClosedFacts.
Import Observed DatabaseConnection DatabaseAgent.

(** On a connection object that is closed, [with self.cursor()] raises before
    anything is executed, and changes nothing. *)
Lemma with_cursor_closed {A} (body : M A) w :
  _connection w = Some {| closed := true |} ->
  with_cursor body w = (Raise already_closed, w).
Proof.
  destruct w as [e sg c tr]. simpl. intros ->. reflexivity.
Qed.

Lemma get_db_connection_held w :
  db_singleton w = true -> get_db_connection w = (Ok tt, w).
Proof. intros H. unfold get_db_connection. rewrite H. reflexivity. Qed.

Lemma failure_logged what e w :
  failure what e w
  = (Ok (Terms.failure_envelope e),
     {| engine := engine w; db_singleton := db_singleton w;
        _connection := _connection w;
        trace := (trace w ++ [ELogError (what ++ ": " ++ str_exn e)])%list |}).
Proof. reflexivity. Qed.

Lemma executed_log tr msg : executed (tr ++ [ELogError msg]) = executed tr.
Proof. rewrite executed_app. simpl. apply app_nil_r. Qed.

End ClosedFacts.

(** X6.  A connection that was closed underneath the process is never
    replaced: [cursor] connects only when no connection object is held, so
    every request that reaches the database answers with the failure
    envelope of [connection already closed], executes no statement and
    leaves the closed connection in place. *)
Theorem closed_connection_is_never_replaced (op : Tools.operation) (w : world) :
  db_singleton w = true ->
  _connection w = Some {| closed := true |} ->
  Observed.touches_database op = true ->
  exists w',
    Tools.dispatch op w = (Ok (Terms.failure_envelope Observed.already_closed), w') /\
    _connection w' = _connection w /\ db_singleton w' = true /\
    Observed.executed (trace w') = Observed.executed (trace w).
Proof.
  intros Hs Hc Hop.
  destruct op as [query threshold_ms | | | tables | hours limit]; simpl.
  - unfold Tools.check_query_response_time, DatabaseAgent.check_query_response_time,
      DatabaseAgent.check_query_response_time_try, try_except.
    unfold bind at 1. unfold bind at 1. rewrite (get_db_connection_held w Hs).
    destruct (existsb _ _).
    + unfold bind at 1. unfold DatabaseConnection.execute_timed_query.
      rewrite (with_cursor_closed _ w Hc). rewrite failure_logged. simpl.
      rewrite andb_false_r. eexists. split; [reflexivity|]. simpl.
      repeat split; try assumption. apply executed_log.
    + unfold bind at 1. unfold DatabaseConnection.get_slow_queries.
      rewrite (with_cursor_closed _ w Hc). rewrite failure_logged. simpl.
      rewrite andb_false_r. eexists. split; [reflexivity|]. simpl.
      repeat split; try assumption. apply executed_log.
  - unfold Tools.check_deadlock, DatabaseAgent.check_deadlock,
      DatabaseAgent.check_deadlock_try, try_except.
    unfold bind at 1. rewrite (get_db_connection_held w Hs).
    unfold bind at 1. unfold DatabaseConnection.check_deadlocks.
    rewrite (with_cursor_closed _ w Hc). rewrite failure_logged.
    eexists. split; [reflexivity|]. simpl.
    repeat split; try assumption. apply executed_log.
  - unfold Tools.check_file_size, DatabaseAgent.check_file_size,
      DatabaseAgent.check_file_size_try, try_except.
    unfold bind at 1. rewrite (get_db_connection_held w Hs).
    unfold bind at 1. unfold DatabaseConnection.get_database_size.
    rewrite (with_cursor_closed _ w Hc). rewrite failure_logged.
    eexists. split; [reflexivity|]. simpl.
    repeat split; try assumption. apply executed_log.
  - unfold Tools.check_abnormal_data, DatabaseAgent.check_abnormal_data,
      DatabaseAgent.check_abnormal_data_try, try_except.
    unfold bind at 1. rewrite (get_db_connection_held w Hs).
    simpl in Hop. unfold str_in, Terms.known_scopes in Hop. simpl in Hop.
    unfold str_in. simpl.
    destruct (String.eqb (lower tables) "all").
    { simpl. unfold bind at 1. unfold bind at 1.
      unfold DatabaseConnection.execute_query.
      rewrite (with_cursor_closed _ w Hc). rewrite failure_logged.
      eexists. split; [reflexivity|]. simpl.
      repeat split; try assumption. apply executed_log. }
    destruct (String.eqb (lower tables) "orders").
    { simpl. unfold bind at 1. unfold bind at 1.
      unfold DatabaseConnection.execute_query.
      rewrite (with_cursor_closed _ w Hc). rewrite failure_logged.
      eexists. split; [reflexivity|]. simpl.
      repeat split; try assumption. apply executed_log. }
    destruct (String.eqb (lower tables) "inventory").
    { simpl. unfold bind at 1. unfold ret at 1. unfold bind at 1. unfold bind at 1.
      unfold DatabaseConnection.execute_query.
      rewrite (with_cursor_closed _ w Hc). rewrite failure_logged.
      eexists. split; [reflexivity|]. simpl.
      repeat split; try assumption. apply executed_log. }
    destruct (String.eqb (lower tables) "transactions");
      destruct (String.eqb (lower tables) "transaction_log");
      simpl in Hop; try discriminate; simpl;
      unfold bind at 1; unfold ret at 1; unfold bind at 1; unfold ret at 1;
      unfold bind at 1; unfold bind at 1;
      unfold DatabaseConnection.execute_query;
      rewrite (with_cursor_closed _ w Hc); rewrite failure_logged;
      (eexists; split; [reflexivity|]); simpl;
      repeat split; try assumption; apply executed_log.
  - unfold Tools.check_batch_data, DatabaseAgent.check_batch_data,
      DatabaseAgent.check_batch_data_try, try_except.
    unfold bind at 1. rewrite (get_db_connection_held w Hs).
    unfold bind at 1. unfold DatabaseConnection.execute_query.
    rewrite (with_cursor_closed _ w Hc). rewrite failure_logged.
    eexists. split; [reflexivity|]. simpl.
    repeat split; try assumption. apply executed_log.
Qed.

Lemma closed_connection_is_never_replaced_witness :
  exists w',
    Tools.dispatch Tools.CheckDeadlock Observed.stale
    = (Ok (Terms.failure_envelope Observed.already_closed), w') /\
    _connection w' = Some {| closed := true |}.
Proof.
  destruct (@closed_connection_is_never_replaced Tools.CheckDeadlock Observed.stale
              eq_refl eq_refl eq_refl) as (w' & Hd & Hc & _).
  exists w'. split; [exact Hd | exact Hc].
Defined.

Section HealthyFacts.
Import Observed DatabaseConnection DatabaseAgent.

(** On a reachable server a body that executes one statement runs through
    [with self.cursor()]: connected if need be, committed, cursor closed. *)
Lemma with_cursor_runs {A} (body : M A) (s : statement) (a : A) (w : world) :
  reachable w ->
  (forall w0, engine w0 = engine w -> body w0 = (Ok a, logged w0 [EExecute s])) ->
  exists w',
    with_cursor body w = (Ok a, w') /\
    trace w' = (trace w ++ connecting w
                ++ [ECursor; EExecute s; ECommit; ECursorClose])%list /\
    reachable w' /\ engine w' = engine w /\ db_singleton w' = db_singleton w /\
    _connection w' = Some {| closed := false |}.
Proof.
  destruct w as [e sg c tr]. intros (Hce & Hke & Hcl) Hbody. simpl in *.
  unfold with_cursor, new_cursor, connect, try_finally, try_except, bind, ret, raise,
    emit, get_engine, get_connection, set_connection, connecting. simpl.
  destruct c as [[cl]|]; simpl.
  - pose proof (Hcl _ eq_refl) as Hopen. simpl in Hopen. subst cl. simpl.
    rewrite (Hbody {| engine := e; db_singleton := sg;
                      _connection := Some {| closed := false |};
                      trace := tr ++ [ECursor] |} eq_refl). simpl.
    rewrite Hke. simpl. eexists. split; [reflexivity|]. simpl.
    split; [repeat rewrite <- app_assoc; reflexivity|].
    split; [repeat split; auto; intros c Hc; inversion Hc; reflexivity|].
    repeat split.
  - rewrite Hce. simpl.
    rewrite (Hbody {| engine := e; db_singleton := sg;
                      _connection := Some {| closed := false |};
                      trace := ((tr ++ [EConnect])
                                ++ [ELogInfo "Database connection established"])
                               ++ [ECursor] |} eq_refl). simpl.
    rewrite Hke. simpl. eexists. split; [reflexivity|]. simpl.
    split; [repeat rewrite <- app_assoc; reflexivity|].
    split; [repeat split; auto; intros c Hc; inversion Hc; reflexivity|].
    repeat split.
Qed.

Lemma execute_logged s w0 :
  execute_error (engine w0) s = None ->
  execute s w0 = (Ok tt, logged w0 [EExecute s]).
Proof.
  intros H. unfold execute, bind, get_engine, emit. simpl. rewrite H. reflexivity.
Qed.

(** The bodies of the query methods, on an engine that executes [s]. *)
Lemma fetch_body {A} (f : list pyval -> A) s w w0 :
  execute_error (engine w) s = None -> engine w0 = engine w ->
  (execute s ;; rows <- fetchall s ;; ret (f rows)) w0
  = (Ok (f (answer (engine w) s)), logged w0 [EExecute s]).
Proof.
  intros He Hw. unfold bind at 1. rewrite execute_logged by (rewrite Hw; exact He).
  unfold fetchall, bind, get_engine, ret. simpl. rewrite Hw. reflexivity.
Qed.

End HealthyFacts.

(** X7.  A query after [disconnect] reconnects: on a reachable server
    [check_deadlocks] called after [disconnect] opens a new connection, runs
    the statement once and commits, returns the rows it would have returned
    without the [disconnect], and leaves an open connection. *)
Theorem query_after_disconnect_reconnects (w : world) :
  Observed.reachable w ->
  execute_error (engine w) SDeadlocks = None ->
  exists rows held w',
    bind DatabaseConnection.disconnect (fun _ => DatabaseConnection.check_deadlocks) w
    = (Ok rows, w') /\
    fst (DatabaseConnection.check_deadlocks w) = Ok rows /\
    trace w' = (trace w ++ held
                ++ [EConnect; ELogInfo "Database connection established";
                    ECursor; EExecute SDeadlocks; ECommit; ECursorClose])%list /\
    Observed.executed held = [] /\
    _connection w' = Some {| closed := false |}.
Proof.
  intros Hr He.
  pose proof (fun w0 => @fetch_body _ (map convert_decimals) SDeadlocks w w0 He)
    as Hbody.
  destruct (@with_cursor_runs _ _ _ _ _ Hr Hbody) as (w0 & Hrun0 & _).
  exists (map convert_decimals (DatabaseConnection.answer (engine w) SDeadlocks)).
  destruct Hr as (Hce & Hke & Hcl).
  destruct w as [e sg c tr]. simpl in *.
  unfold bind at 1. unfold DatabaseConnection.disconnect, bind, get_connection,
    set_connection, emit, ret. simpl.
  unfold DatabaseConnection.check_deadlocks in *. rewrite Hrun0. simpl.
  destruct c as [c|]; simpl.
  - assert (Hrd : Observed.reachable
                    {| engine := e; db_singleton := sg; _connection := None;
                       trace := (tr ++ [EClose])
                                ++ [ELogInfo "Database connection closed"] |}).
    { repeat split; simpl; auto. discriminate. }
    destruct (@with_cursor_runs _ _ _ _ _ Hrd Hbody)
      as (w' & Hrun & Htr & _ & _ & _ & Hopen).
    simpl in *. exists [EClose; ELogInfo "Database connection closed"], w'.
    split; [exact Hrun|]. split; [reflexivity|].
    split; [rewrite Htr; repeat rewrite <- app_assoc; reflexivity|].
    split; [reflexivity | exact Hopen].
  - assert (Hrd : Observed.reachable
                    {| engine := e; db_singleton := sg; _connection := None;
                       trace := tr |}).
    { repeat split; simpl; auto. }
    destruct (@with_cursor_runs _ _ _ _ _ Hrd Hbody)
      as (w' & Hrun & Htr & _ & _ & _ & Hopen).
    simpl in *. exists [], w'.
    split; [exact Hrun|]. split; [reflexivity|].
    split; [rewrite Htr; reflexivity|].
    split; [reflexivity | exact Hopen].
Qed.

Lemma query_after_disconnect_reconnects_witness :
  exists rows held w',
    bind DatabaseConnection.disconnect (fun _ => DatabaseConnection.check_deadlocks)
         (Examples.fresh Examples.pair)
    = (Ok rows, w') /\
    fst (DatabaseConnection.check_deadlocks (Examples.fresh Examples.pair)) = Ok rows /\
    Observed.executed held = [].
Proof.
  assert (Hr : Observed.reachable (Examples.fresh Examples.pair)).
  { repeat split. intros c Hc. discriminate. }
  destruct (@query_after_disconnect_reconnects (Examples.fresh Examples.pair) Hr eq_refl)
    as (rows & held & w' & H1 & H2 & _ & H4 & _).
  exists rows, held, w'. auto.
Defined.

Section OnlyFacts.
Import Observed DatabaseConnection DatabaseAgent.

Lemma only_nothing {A} P (m : M A) :
  (forall w, exists r, m w = (r, w)) -> executes_only P m.
Proof.
  intros H w r w' E. destruct (H w) as (r0 & E0). rewrite E0 in E. inversion E; subst.
  exists []. split; [symmetry; apply app_nil_r | constructor].
Qed.

Lemma only_ret {A} P (a : A) : executes_only P (ret a).
Proof. apply only_nothing. intros w. eexists. reflexivity. Qed.

Lemma only_raise {A} P e : executes_only P (@raise A e).
Proof. apply only_nothing. intros w. eexists. reflexivity. Qed.

Lemma only_lift {A} P (r : result A) : executes_only P (lift r).
Proof. apply only_nothing. intros w. eexists. reflexivity. Qed.

Lemma only_get_engine P : executes_only P get_engine.
Proof. apply only_nothing. intros w. eexists. reflexivity. Qed.

Lemma only_get_connection P : executes_only P get_connection.
Proof. apply only_nothing. intros w. eexists. reflexivity. Qed.

Lemma only_set_connection P c : executes_only P (set_connection c).
Proof.
  intros w r w' E. inversion E; subst. simpl.
  exists []. split; [symmetry; apply app_nil_r | constructor].
Qed.

Lemma only_set_singleton P b : executes_only P (set_singleton b).
Proof.
  intros w r w' E. inversion E; subst. simpl.
  exists []. split; [symmetry; apply app_nil_r | constructor].
Qed.

Lemma only_emit P ev :
  match ev with EExecute s => P s | _ => True end -> executes_only P (emit ev).
Proof.
  intros H w r w' E. inversion E; subst. simpl. exists [ev]. split; [reflexivity|].
  destruct ev; simpl; try constructor; [exact H | constructor].
Qed.

Lemma only_bind {A B} P (m : M A) (k : A -> M B) :
  executes_only P m -> (forall a, executes_only P (k a)) -> executes_only P (bind m k).
Proof.
  intros Hm Hk w r w' E. unfold bind in E.
  destruct (m w) as [[a|e] w1] eqn:Em.
  - destruct (Hm _ _ _ Em) as (ev1 & T1 & F1).
    destruct (Hk a _ _ _ E) as (ev2 & T2 & F2).
    exists (ev1 ++ ev2)%list. split.
    + rewrite T2, T1. symmetry. apply app_assoc.
    + rewrite executed_app. apply Forall_app. split; assumption.
  - inversion E; subst. exact (Hm _ _ _ Em).
Qed.

Lemma only_try_except {A} P (body : M A) handler :
  executes_only P body -> (forall e, executes_only P (handler e)) ->
  executes_only P (try_except body handler).
Proof.
  intros Hb Hh w r w' E. unfold try_except in E.
  destruct (body w) as [[a|e] w1] eqn:Eb.
  - inversion E; subst. exact (Hb _ _ _ Eb).
  - destruct (Hb _ _ _ Eb) as (ev1 & T1 & F1).
    destruct (Hh e _ _ _ E) as (ev2 & T2 & F2).
    exists (ev1 ++ ev2)%list. split.
    + rewrite T2, T1. symmetry. apply app_assoc.
    + rewrite executed_app. apply Forall_app. split; assumption.
Qed.

Lemma only_try_finally {A} P (body : M A) fin :
  executes_only P body -> executes_only P fin ->
  executes_only P (try_finally body fin).
Proof.
  intros Hb Hf w r w' E. unfold try_finally in E.
  destruct (body w) as [rb w1] eqn:Eb.
  destruct (fin w1) as [[u|e] w2] eqn:Ef; inversion E; subst;
    destruct (Hb _ _ _ Eb) as (ev1 & T1 & F1);
    destruct (Hf _ _ _ Ef) as (ev2 & T2 & F2);
    exists (ev1 ++ ev2)%list;
    (split; [rewrite T2, T1; symmetry; apply app_assoc
            | rewrite executed_app; apply Forall_app; split; assumption]).
Qed.

Lemma only_weaken {A} (P Q : statement -> Prop) (m : M A) :
  (forall s, P s -> Q s) -> executes_only P m -> executes_only Q m.
Proof.
  intros H Hm w r w' E. destruct (Hm _ _ _ E) as (evs & T & F).
  exists evs. split; [exact T|]. eapply Forall_impl; [|exact F]. exact H.
Qed.

Lemma only_connect P : executes_only P connect.
Proof.
  unfold connect. apply only_bind; [apply only_get_engine|]. intros e.
  destruct (connect_error e).
  - apply only_bind; [apply only_emit; exact I | intros; apply only_raise].
  - apply only_bind; [apply only_emit; exact I|]. intros _.
    apply only_bind; [apply only_set_connection | intros; apply only_emit; exact I].
Qed.

Lemma only_get_db_connection P : executes_only P get_db_connection.
Proof.
  intros w r w' E. unfold get_db_connection in E. destruct (db_singleton w).
  - inversion E; subst. exists []. split; [symmetry; apply app_nil_r | constructor].
  - revert E. apply only_bind; [apply only_set_singleton|]. intros _.
    apply only_bind; [apply only_set_connection|]. intros _.
    apply only_bind; [apply only_emit; exact I | intros; apply only_connect].
Qed.

Lemma only_execute (P : statement -> Prop) s : P s -> executes_only P (execute s).
Proof.
  intros H. unfold execute. apply only_bind; [apply only_get_engine|]. intros e.
  destruct (execute_error e s); [apply only_raise | apply only_emit; exact H].
Qed.

Lemma only_with_cursor {A} P (body : M A) :
  executes_only P body -> executes_only P (with_cursor body).
Proof.
  intros Hb. unfold with_cursor.
  apply only_bind; [apply only_get_connection|]. intros c.
  apply only_bind; [destruct c; [apply only_ret | apply only_connect]|]. intros _.
  apply only_bind.
  { unfold new_cursor. apply only_bind; [apply only_get_connection|].
    intros [[[|]]|]; [apply only_raise | apply only_emit; exact I | apply only_raise]. }
  intros _. apply only_try_finally; [|apply only_emit; exact I].
  apply only_try_except.
  - apply only_bind; [exact Hb|]. intros r.
    apply only_bind; [apply only_get_engine|]. intros e.
    destruct (commit_error e); [apply only_raise|].
    apply only_bind; [apply only_emit; exact I | intros; apply only_ret].
  - intros e. apply only_bind; [apply only_get_engine|]. intros en.
    destruct (rollback_error en); [apply only_raise|].
    apply only_bind; [apply only_emit; exact I|]. intros _.
    apply only_bind; [apply only_emit; exact I | intros; apply only_raise].
Qed.

Lemma only_fetchall P s : executes_only P (fetchall s).
Proof.
  unfold fetchall. apply only_bind; [apply only_get_engine | intros; apply only_ret].
Qed.

Lemma only_execute_query (P : statement -> Prop) s fetch :
  P s -> executes_only P (execute_query s fetch).
Proof.
  intros H. unfold execute_query. apply only_with_cursor.
  apply only_bind; [apply only_execute; exact H|]. intros _.
  destruct fetch; [|apply only_ret].
  apply only_bind; [apply only_fetchall | intros; apply only_ret].
Qed.

Lemma only_failure P what e : executes_only P (failure what e).
Proof.
  unfold failure. apply only_bind; [apply only_emit; exact I | intros; apply only_ret].
Qed.

End OnlyFacts.

Section AllowedFacts.
Import Observed DatabaseConnection DatabaseAgent.

Lemma only_query_method {A} (P : statement -> Prop) s (f : list pyval -> A) :
  P s ->
  executes_only P
    (with_cursor (execute s ;; rows <- fetchall s ;; ret (f rows))).
Proof.
  intros H. apply only_with_cursor.
  apply only_bind; [apply only_execute; exact H|]. intros _.
  apply only_bind; [apply only_fetchall | intros; apply only_ret].
Qed.

Lemma only_check_query_response_time_try input :
  executes_only (allowed (Tools.CheckQueryResponseTime input 0))
                (check_query_response_time_try input).
Proof.
  unfold check_query_response_time_try, allowed, mentions_sql.
  apply only_bind; [apply only_get_db_connection|]. intros _. cbv zeta.
  destruct (existsb _ _).
  - apply only_bind.
    { unfold execute_timed_query. apply only_with_cursor.
      apply only_bind; [apply only_execute; left; reflexivity|]. intros _.
      apply only_bind; [apply only_fetchall|]. intros rows.
      apply only_bind; [apply only_get_engine | intros; apply only_ret]. }
    intros [results execution_time].
    apply only_bind; [|intros; apply only_ret].
    apply only_execute_query. right. eauto.
  - apply only_bind.
    { unfold get_slow_queries. apply only_query_method. reflexivity. }
    intros [|q qs]; apply only_ret.
Qed.

Lemma only_check_deadlock input :
  executes_only (allowed Tools.CheckDeadlock) (check_deadlock input).
Proof.
  unfold check_deadlock. apply only_try_except; [|intros; apply only_failure].
  unfold check_deadlock_try.
  apply only_bind; [apply only_get_db_connection|]. intros _.
  apply only_bind; [unfold check_deadlocks; apply only_query_method; reflexivity|].
  intros [|d ds]; [apply only_ret|].
  apply only_bind; [apply only_lift | intros; apply only_ret].
Qed.

Lemma only_check_file_size input :
  executes_only (allowed Tools.CheckFileSize) (check_file_size input).
Proof.
  unfold check_file_size. apply only_try_except; [|intros; apply only_failure].
  unfold check_file_size_try.
  apply only_bind; [apply only_get_db_connection|]. intros _.
  apply only_bind.
  { unfold get_database_size. apply only_with_cursor.
    apply only_bind; [apply only_execute; reflexivity|]. intros _.
    apply only_bind; [|intros; apply only_ret].
    unfold fetchone. apply only_bind; [apply only_get_engine | intros; apply only_ret]. }
  intros size_info. cbv zeta.
  repeat (apply only_bind;
          [first [ apply only_lift | apply only_ret
                 | destruct (Qgt_bool 15 0); [apply only_lift | apply only_ret] ]|];
          intros ?).
  apply only_ret.
Qed.

Lemma only_check_abnormal_data tables :
  executes_only (allowed (Tools.CheckAbnormalData tables)) (check_abnormal_data tables).
Proof.
  unfold check_abnormal_data. apply only_try_except; [|intros; apply only_failure].
  unfold check_abnormal_data_try, allowed, selected.
  apply only_bind; [apply only_get_db_connection|]. intros _. cbv zeta.
  apply only_bind.
  { destruct (str_in (lower tables) ["all"; "orders"]); [|apply only_ret].
    apply only_bind; [|intros; apply only_ret].
    apply only_execute_query. left. reflexivity. }
  intros a1. apply only_bind.
  { destruct (str_in (lower tables) ["all"; "inventory"]); [|apply only_ret].
    apply only_bind; [|intros; apply only_ret].
    apply only_execute_query. apply in_or_app. right. left. reflexivity. }
  intros a2. apply only_bind.
  { destruct (str_in (lower tables) ["all"; "transactions"; "transaction_log"]);
      [|apply only_ret].
    apply only_bind; [|intros; apply only_ret].
    apply only_execute_query. apply in_or_app. right. apply in_or_app. right.
    left. reflexivity. }
  intros a3. destruct (a1 ++ a2 ++ a3)%list; [apply only_ret|].
  apply only_bind; [apply only_lift | intros; apply only_ret].
Qed.

Lemma only_check_batch_data hours limit :
  executes_only (allowed (Tools.CheckBatchData hours limit)) (check_batch_data hours limit).
Proof.
  unfold check_batch_data. apply only_try_except; [|intros; apply only_failure].
  unfold check_batch_data_try, allowed.
  apply only_bind; [apply only_get_db_connection|]. intros _.
  apply only_bind; [apply only_execute_query; left; reflexivity|].
  intros [[|b bs]|]; try apply only_ret.
  apply only_bind; [apply only_lift|]. intros batch_ids.
  apply only_bind; [apply only_execute_query; right; eauto|]. intros errors.
  apply only_bind; [apply only_lift|]. intros m.
  apply only_bind; [apply only_lift|]. intros enriched.
  apply only_bind; [apply only_lift|]. intros [[tp tf] rate]. apply only_ret.
Qed.

End AllowedFacts.

(** X8.  Each tool-dispatch operation sends only its own statements, whatever
    the engine does: [check_deadlock] only the blocking query,
    [check_file_size] only the read of [v_database_stats],
    [check_abnormal_data] only the checks of its scope, [check_batch_data]
    only the two batch queries, and [check_query_response_time] the text of
    the request and the insert into [query_stats] when the text holds
    select, update, delete or insert, and else only the listing of the
    queries slower than 1000 ms. *)
Theorem dispatch_sends_only_its_statements (op : Tools.operation) :
  Observed.executes_only (Observed.allowed op) (Tools.dispatch op).
Proof.
  destruct op as [query threshold_ms | | | tables | hours limit]; simpl.
  - unfold Tools.check_query_response_time. apply only_bind.
    + unfold DatabaseAgent.check_query_response_time.
      apply only_try_except; [|intros; apply only_failure].
      exact (only_check_query_response_time_try query).
    + intros [ | | | | | | | d]; try apply only_ret.
      destruct (_ && _); [|apply only_ret].
      destruct (assoc _ _); [|apply only_ret].
      apply only_bind; [apply only_lift | intros; apply only_ret].
  - apply only_check_deadlock.
  - apply only_check_file_size.
  - apply only_check_abnormal_data.
  - apply only_check_batch_data.
Qed.

Section SqlPathFacts.
Import Observed DatabaseConnection DatabaseAgent.

(** Obtaining the handle on a reachable server: it returns, executes nothing
    and leaves the server reachable. *)
Lemma get_db_connection_reachable w :
  reachable w ->
  exists boot w1,
    get_db_connection w = (Ok tt, w1) /\
    trace w1 = (trace w ++ boot)%list /\ executed boot = [] /\
    reachable w1 /\ engine w1 = engine w.
Proof.
  destruct w as [e sg c tr]. intros (Hce & Hke & Hcl). simpl in *.
  unfold get_db_connection. simpl. destruct sg.
  - exists [], {| engine := e; db_singleton := true; _connection := c; trace := tr |}.
    simpl. rewrite app_nil_r. repeat split; auto.
  - unfold connect, bind, set_singleton, set_connection, emit, get_engine. simpl.
    rewrite Hce. simpl. eexists [_; _; _]. eexists. split; [reflexivity|]. simpl.
    split; [repeat rewrite <- app_assoc; reflexivity|].
    split; [reflexivity|].
    repeat split; auto. intros c0 Hc0. inversion Hc0. reflexivity.
Qed.

(** A body that raises at its first statement: the handler recovers, the
    cursor is closed, and an exception leaves. *)
Lemma with_cursor_fails {A} (body : M A) (err : exn) (w : world) :
  _connection w = Some {| closed := false |} ->
  (forall w0, engine w0 = engine w -> body w0 = (Raise err, w0)) ->
  with_cursor body w
  = (Raise (surfacing (engine w) err),
     logged w ([ECursor] ++ recovery (engine w) err ++ [ECursorClose])).
Proof.
  destruct w as [e sg c tr]. simpl. intros -> Hbody.
  unfold with_cursor, new_cursor, try_finally, try_except, bind, ret, raise, emit,
    get_connection, get_engine, logged, surfacing, recovery. simpl.
  rewrite (Hbody {| engine := e; db_singleton := sg;
                    _connection := Some {| closed := false |};
                    trace := tr ++ [ECursor] |} eq_refl). simpl.
  destruct (rollback_error e); simpl; repeat rewrite <- app_assoc; reflexivity.
Qed.

Lemma execute_raises s err w0 :
  execute_error (engine w0) s = Some err -> execute s w0 = (Raise err, w0).
Proof.
  intros H. unfold execute, bind, get_engine, raise. simpl. rewrite H. reflexivity.
Qed.

Lemma timed_body s w w0 :
  execute_error (engine w) s = None -> engine w0 = engine w ->
  (execute s ;; results <- fetchall s ;; e <- get_engine ;;
   ret (map convert_decimals results, elapsed_ms e s)) w0
  = (Ok (map convert_decimals (answer (engine w) s), elapsed_ms (engine w) s),
     logged w0 [EExecute s]).
Proof.
  intros He Hw. unfold bind at 1. rewrite execute_logged by (rewrite Hw; exact He).
  unfold fetchall, bind, get_engine, ret. simpl. rewrite Hw. reflexivity.
Qed.

End SqlPathFacts.

(** X9.  The measured statement stays committed when its measurement cannot
    be recorded: if the engine executes the user's statement and returns its
    rows, and the insert into [query_stats] fails, then
    [check_query_response_time] has executed and committed the user's
    statement, and only then recovers from the failure of the insert.  When
    the rollback works, the insert is rolled back, its error logged and
    returned in the failure envelope; when [rollback()] raises as well,
    nothing is rolled back or logged by the cursor and the envelope carries
    the exception of [rollback()]. *)
Theorem measured_statement_stays_committed (input : string) (err : exn) (w : world) :
  Observed.reachable w ->
  Observed.mentions_sql input = true ->
  execute_error (engine w) (SUser input) = None ->
  (let t := elapsed_ms (engine w) (SUser input) in
   execute_error (engine w)
     (SInsertQueryStats input t
        (Z.of_nat (List.length (DatabaseConnection.answer (engine w) (SUser input))))
        (DatabaseAgent.Qgt_bool t 1000)) = Some err) ->
  exists pre w',
    DatabaseAgent.check_query_response_time input w
    = (Ok (Terms.failure_envelope (Observed.surfacing (engine w) err)), w') /\
    Observed.executed pre = [] /\
    trace w'
    = (trace w ++ pre
       ++ [ ECursor; EExecute (SUser input); ECommit; ECursorClose; ECursor ]
       ++ Observed.recovery (engine w) err
       ++ [ ECursorClose;
            ELogError ("Query response time check error: "
                       ++ str_exn (Observed.surfacing (engine w) err)) ])%list.
Proof.
  intros Hr Hsql He Hins.
  destruct (get_db_connection_reachable Hr) as (boot & w1 & Hget & Ht1 & Hb & Hr1 & He1).
  unfold DatabaseAgent.check_query_response_time,
    DatabaseAgent.check_query_response_time_try, try_except.
  unfold bind at 1. rewrite Hget. cbv zeta.
  unfold Observed.mentions_sql in Hsql. rewrite Hsql.
  assert (He' : execute_error (engine w1) (SUser input) = None) by (rewrite He1; exact He).
  destruct (@with_cursor_runs _ _ _ _ _ Hr1 (fun w0 => @timed_body (SUser input) w1 w0 He'))
    as (w2 & Hrun & Ht2 & Hr2 & He2 & _ & Hopen).
  unfold bind at 1. unfold DatabaseConnection.execute_timed_query. rewrite Hrun.
  unfold bind at 1. unfold DatabaseConnection.execute_query.
  rewrite length_map, He1.
  rewrite (@with_cursor_fails _ _ err w2 Hopen).
  2:{ intros w0 Hw0. unfold bind at 1.
      rewrite (@execute_raises _ err); [reflexivity|]. rewrite Hw0, He2, He1. exact Hins. }
  rewrite failure_logged. rewrite He2, He1. simpl.
  exists (boot ++ Observed.connecting w1)%list.
  eexists. split; [reflexivity|]. simpl. rewrite Ht2, Ht1.
  split.
  - rewrite executed_app, Hb. unfold Observed.connecting.
    destruct (_connection w1); reflexivity.
  - repeat rewrite <- app_assoc. simpl. repeat rewrite <- app_assoc. reflexivity.
Qed.

Lemma measured_statement_stays_committed_witness :
  exists pre w',
    DatabaseAgent.check_query_response_time "SELECT 1"
      (Examples.fresh Observed.no_query_stats)
    = (Ok (Terms.failure_envelope
             (PgError (Some "42P01") "relation query_stats does not exist")), w') /\
    Observed.executed pre = [].
Proof.
  assert (Hr : Observed.reachable (Examples.fresh Observed.no_query_stats)).
  { repeat split. intros c Hc. discriminate. }
  destruct (@measured_statement_stays_committed "SELECT 1"
              (PgError (Some "42P01") "relation query_stats does not exist")
              (Examples.fresh Observed.no_query_stats) Hr eq_refl eq_refl eq_refl)
    as (pre & w' & Hrun & Hpre & _).
  exists pre, w'. split; [exact Hrun | exact Hpre].
Defined.

(** X10.  In every report of the [check_query_response_time] tool that has
    [is_slow], the status is SLOW exactly when [is_slow] is true and
    [threshold_ms] is the threshold of the request; with a threshold other
    than 1000, [is_slow] says whether the reported (rounded)
    [response_time_ms] exceeds it. *)
Theorem slowness_and_status_agree
  (query : string) (threshold_ms : Q) (w : world) (v : pyval) (w' : world) (b : bool) :
  Tools.check_query_response_time query threshold_ms w = (Ok v, w') ->
  Terms.field "is_slow" v = Some (PBool b) ->
  Terms.field "status" v = Some (PStr (if b then "SLOW" else "NORMAL")) /\
  (exists th, Terms.field "threshold_ms" v = Some (PFloat th) /\ (th == threshold_ms)%Q) /\
  (Qeq_bool threshold_ms 1000 = false ->
   exists rt, Terms.field "response_time_ms" v = Some (PFloat rt) /\
              b = DatabaseAgent.Qgt_bool rt threshold_ms).
Proof.
  intros H Hb.
  destruct (guarded (DatabaseAgent.check_query_response_time_try query)
                    "Query response time check error" w) as (v0 & w0 & Hg & Hm).
  unfold Tools.check_query_response_time, bind,
    DatabaseAgent.check_query_response_time in H.
  rewrite Hg in H.
  destruct (DatabaseAgent.check_query_response_time_try query w) as [[r|e] w1] eqn:Htry;
    simpl in Hm; subst v0.
  - apply check_query_response_time_try_shape in Htry.
    destruct Htry as [(results & t & ->) | [(qs & ->) | ->]]; simpl in H;
      destruct (Qeq_bool threshold_ms 1000) eqn:Hth; simpl in H;
      inversion H; subst; clear H; simpl in Hb; try discriminate;
      inversion Hb; subst; clear Hb; simpl.
    + split; [reflexivity|]. split; [|discriminate].
      exists 1000%Q. split; [reflexivity|]. symmetry. apply Qeq_bool_iff, Hth.
    + split; [reflexivity|]. split.
      * exists threshold_ms. split; [reflexivity | apply Qeq_refl].
      * intros _. eexists. split; reflexivity.
  - simpl in H. rewrite andb_false_r in H. inversion H; subst. discriminate.
Qed.

Lemma slowness_and_status_agree_witness :
  exists v w',
    Tools.check_query_response_time "SELECT 1" 2 (Examples.fresh Examples.idle)
    = (Ok v, w') /\
    Terms.field "status" v = Some (PStr "SLOW").
Proof.
  eexists. eexists. split; [vm_compute; reflexivity|].
  refine (proj1 (@slowness_and_status_agree "SELECT 1" 2 (Examples.fresh Examples.idle)
                   _ _ true _ _)).
  - vm_compute. reflexivity.
  - vm_compute. reflexivity.
Defined.

Section SizeFacts.
Import Observed DatabaseConnection DatabaseAgent.

Lemma size_body w w0 :
  execute_error (engine w) SDatabaseStats = None -> engine w0 = engine w ->
  (execute SDatabaseStats ;; result <- fetchone SDatabaseStats ;;
   ret (if truthy result then convert_decimals result else PDict [])) w0
  = (Ok (size_info (engine w)), logged w0 [EExecute SDatabaseStats]).
Proof.
  intros He Hw. unfold bind at 1. rewrite execute_logged by (rewrite Hw; exact He).
  unfold fetchone, bind, get_engine, ret, size_info. simpl. rewrite Hw.
  destruct (table_rows (engine w) SDatabaseStats) as [|r rs]; reflexivity.
Qed.

Lemma above_75_is_above_70 u : Qge_bool u 75 = true -> Qgt_bool u 70 = true.
Proof.
  unfold Qge_bool, Qgt_bool. intros H. apply Qle_bool_iff in H.
  destruct (Qle_bool u 70) eqn:E; [|reflexivity].
  apply Qle_bool_iff in E. pose proof (Qle_trans _ _ _ H E) as K.
  exfalso. revert K. unfold Qle. simpl. lia.
Qed.

Lemma size_advice u d :
  Qge_bool u 75 = true -> In archive_advice (_get_size_recommendations u d).
Proof.
  intros H. unfold _get_size_recommendations. rewrite (above_75_is_above_70 _ H).
  simpl. left. reflexivity.
Qed.

End SizeFacts.

(** X11.  [check_file_size] fails when [v_database_stats] gives no [size_mb]
    (no row at all, or a row without the column): the read is executed and
    committed, and the exception of [size_info["size_mb"]] is logged and
    returned in the failure envelope. *)
Theorem check_file_size_without_size_column (e : exn) (w : world) :
  Observed.reachable w ->
  execute_error (engine w) SDatabaseStats = None ->
  getitem (Observed.size_info (engine w)) "size_mb" = Raise e ->
  exists pre w',
    Tools.check_file_size w = (Ok (Terms.failure_envelope e), w') /\
    Observed.executed pre = [] /\
    trace w' = (trace w ++ pre
                ++ [ ECursor; EExecute SDatabaseStats; ECommit; ECursorClose;
                     ELogError ("File size check error: " ++ str_exn e) ])%list.
Proof.
  intros Hr He Hkey.
  destruct (get_db_connection_reachable Hr) as (boot & w1 & Hget & Ht1 & Hb & Hr1 & He1).
  assert (He' : execute_error (engine w1) SDatabaseStats = None) by (rewrite He1; exact He).
  destruct (@with_cursor_runs _ _ _ _ _ Hr1 (fun w0 => @size_body w1 w0 He'))
    as (w2 & Hrun & Ht2 & _ & He2 & _).
  unfold Tools.check_file_size, DatabaseAgent.check_file_size,
    DatabaseAgent.check_file_size_try, try_except.
  unfold bind at 1. rewrite Hget.
  unfold bind at 1. unfold DatabaseConnection.get_database_size. rewrite Hrun.
  unfold bind at 1. unfold lift. rewrite He1, Hkey.
  rewrite failure_logged. simpl.
  exists (boot ++ Observed.connecting w1)%list. eexists. split; [reflexivity|]. simpl.
  split.
  - rewrite executed_app, Hb. unfold Observed.connecting.
    destruct (_connection w1); reflexivity.
  - rewrite Ht2, Ht1. repeat rewrite <- app_assoc. reflexivity.
Qed.

Lemma check_file_size_without_size_column_witness :
  exists pre w',
    Tools.check_file_size (Examples.fresh Examples.idle)
    = (Ok (Terms.failure_envelope (PyError "KeyError" "'size_mb'")), w') /\
    Observed.executed pre = [].
Proof.
  assert (Hr : Observed.reachable (Examples.fresh Examples.idle)).
  { repeat split. intros c Hc. discriminate. }
  destruct (@check_file_size_without_size_column (PyError "KeyError" "'size_mb'")
              (Examples.fresh Examples.idle) Hr eq_refl eq_refl)
    as (pre & w' & Hrun & Hpre & _).
  exists pre, w'. split; [exact Hrun | exact Hpre].
Defined.

(** X12.  A report of [check_file_size] with status CRITICAL or WARNING
    always recommends archiving old data. *)
Theorem critical_or_warning_advises_archiving (w : world) (v : pyval) (w' : world) :
  Tools.check_file_size w = (Ok v, w') ->
  Terms.field "status" v = Some (PStr "CRITICAL") \/
  Terms.field "status" v = Some (PStr "WARNING") ->
  exists recs,
    Terms.field "recommendations" v = Some (PList recs) /\
    In (PStr Observed.archive_advice) recs.
Proof.
  intros H Hstatus.
  destruct (guarded (DatabaseAgent.check_file_size_try "check")
                    "File size check error" w) as (v0 & w0 & Hg & Hm).
  unfold Tools.check_file_size, DatabaseAgent.check_file_size in H.
  rewrite Hg in H. inversion H; subst v0 w0; clear H.
  destruct (DatabaseAgent.check_file_size_try "check" w) as [[r|e] w1] eqn:Htry;
    simpl in Hm; subst v.
  2:{ simpl in Hstatus. destruct Hstatus; discriminate. }
  unfold DatabaseAgent.check_file_size_try in Htry.
  do 8 (apply bind_Ok in Htry; destruct Htry as (? & ? & _ & Htry); cbv beta in Htry).
  apply ret_Ok in Htry. destruct Htry as (-> & _).
  simpl in Hstatus |- *.
  eexists. split; [reflexivity|]. unfold DatabaseAgent.strs. apply in_map.
  apply size_advice.
  destruct (DatabaseAgent.Qge_bool _ 90) eqn:E90.
  - unfold DatabaseAgent.Qge_bool in *. apply Qle_bool_iff in E90.
    apply Qle_bool_iff. eapply Qle_trans; [|exact E90]. unfold Qle. simpl. lia.
  - destruct (DatabaseAgent.Qge_bool _ 75) eqn:E75; [reflexivity|].
    destruct Hstatus; discriminate.
Qed.

Lemma critical_or_warning_advises_archiving_witness :
  exists v w' recs,
    Tools.check_file_size (Examples.fresh Observed.nearly_full) = (Ok v, w') /\
    Terms.field "status" v = Some (PStr "CRITICAL") /\
    Terms.field "recommendations" v = Some (PList recs) /\
    In (PStr Observed.archive_advice) recs.
Proof.
  assert (Hrun : exists v w',
             Tools.check_file_size (Examples.fresh Observed.nearly_full) = (Ok v, w') /\
             Terms.field "status" v = Some (PStr "CRITICAL")).
  { eexists. eexists. split; vm_compute; reflexivity. }
  destruct Hrun as (v & w' & Hrun & Hstatus).
  destruct (@critical_or_warning_advises_archiving _ _ _ Hrun (or_introl Hstatus))
    as (recs & Hrecs & Hin).
  exists v, w', recs. auto.
Defined.

Section AdviceFacts.
Import DatabaseAgent.

Lemma prefix_empty s : String.prefix EmptyString s = true.
Proof. destruct s; reflexivity. Qed.

Lemma contains_star_lower s : contains "*" (lower s) = contains "*" s.
Proof.
  induction s as [|c s IH]; [reflexivity|].
  destruct c as [[|] [|] [|] [|] [|] [|] [|] [|]];
    change (lower (String ?c s)) with (String (lower_ascii c) (lower s));
    cbv [lower_ascii nat_of_ascii ascii_of_nat]; simpl; rewrite ?prefix_empty;
    try exact IH; reflexivity.
Qed.

End AdviceFacts.

(** X13.  On queries of ASCII text, where [lower] is [str.lower()],
    [_get_slow_query_recommendations] does not depend on the case of the
    query's letters: two such queries with the same lowercase form get the
    same recommendations, and something is always recommended. *)
Theorem slow_query_advice_ignores_case (q1 q2 : string) :
  Observed.ascii_text q1 = true ->
  Observed.ascii_text q2 = true ->
  lower q1 = lower q2 ->
  DatabaseAgent._get_slow_query_recommendations q1
  = DatabaseAgent._get_slow_query_recommendations q2 /\
  DatabaseAgent._get_slow_query_recommendations q1 <> [].
Proof.
  intros _ _ H. unfold DatabaseAgent._get_slow_query_recommendations. cbv zeta.
  rewrite <- (contains_star_lower q1), <- (contains_star_lower q2), H.
  split; [reflexivity|].
  destruct (contains "where" (lower q2) && contains "category" (lower q2));
    destruct (contains "join" (lower q2));
    destruct (contains "*" (lower q2));
    destruct (contains "like" (lower q2)); simpl; discriminate.
Qed.

Lemma slow_query_advice_ignores_case_witness :
  DatabaseAgent._get_slow_query_recommendations "SELECT * FROM Orders JOIN Items"
  = DatabaseAgent._get_slow_query_recommendations "select * from orders join items".
Proof.
  exact (proj1 (@slow_query_advice_ignores_case "SELECT * FROM Orders JOIN Items"
                  "select * from orders join items" eq_refl eq_refl eq_refl)).
Defined.

Section ScanFacts.
Import Observed DatabaseConnection DatabaseAgent.

Lemma healthy_reachable w : healthy w -> reachable w.
Proof. intros (H & _). exact H. Qed.

Lemma execute_query_runs s w :
  reachable w -> execute_error (engine w) s = None ->
  exists w',
    execute_query s true w
    = (Ok (Some (map convert_decimals (answer (engine w) s))), w') /\
    trace w' = (trace w ++ connecting w
                ++ [ECursor; EExecute s; ECommit; ECursorClose])%list /\
    reachable w' /\ engine w' = engine w /\
    _connection w' = Some {| closed := false |}.
Proof.
  intros Hr He.
  destruct (@with_cursor_runs _ _ _ _ _ Hr
              (fun w0 => @fetch_body _ (fun rows => Some (map convert_decimals rows))
                           s w w0 He))
    as (w' & Hrun & Ht & Hr' & He' & _ & Hopen).
  exists w'. split; [exact Hrun|]. split; [exact Ht|]. split; [exact Hr'|].
  split; [exact He' | exact Hopen].
Qed.

Lemma executed_connecting w : executed (connecting w) = [].
Proof. unfold connecting. destruct (_connection w); reflexivity. Qed.

(** One conditional check of [check_abnormal_data] (lines 252-267 and the two
    that follow). *)
Lemma conditional_check (b : bool) s table typ sev w :
  reachable w -> execute_error (engine w) s = None ->
  exists evs w',
    (if b
     then bind (execute_query s true) (fun rows => ret (anomaly table typ sev rows))
     else ret []) w
    = (Ok (if b
           then anomaly table typ sev (Some (map convert_decimals (answer (engine w) s)))
           else []), w') /\
    trace w' = (trace w ++ evs)%list /\
    executed evs = (if b then [s] else []) /\
    reachable w' /\ engine w' = engine w.
Proof.
  intros Hr He. destruct b.
  - destruct (@execute_query_runs _ _ Hr He) as (w' & Hrun & Ht & Hr' & He' & _).
    eexists. exists w'. unfold bind. rewrite Hrun. split; [reflexivity|].
    split; [exact Ht|]. split; [|split; assumption].
    rewrite executed_app, executed_connecting. reflexivity.
  - exists [], w. rewrite app_nil_r. split; [reflexivity|]. split; [reflexivity|].
    split; [reflexivity|]. split; [exact Hr | reflexivity].
Qed.

Lemma anomaly_empty table typ sev rows :
  anomaly table typ sev (Some (map convert_decimals rows)) = [] <-> rows = [].
Proof. destruct rows; simpl; split; intros H; congruence. Qed.

End ScanFacts.

(** X14.  On an engine that injects no failure [check_abnormal_data] runs
    exactly the checks its scope selects, in the order orders, inventory,
    transactions, and succeeds; its report is the NORMAL envelope exactly
    when each of these checks returns no row. *)
Theorem abnormal_scan_follows_scope (tables : string) (w : world) :
  Observed.healthy w ->
  exists v evs w',
    Tools.check_abnormal_data tables w = (Ok v, w') /\
    trace w' = (trace w ++ evs)%list /\
    Observed.executed evs = Observed.selected tables /\
    Terms.field "success" v = Some (PBool true) /\
    (v = Terms.normal_envelope tables <->
     forall s, In s (Observed.selected tables) ->
               DatabaseConnection.answer (engine w) s = []).
Proof.
  intros (Hr & Hall).
  destruct (get_db_connection_reachable Hr) as (boot & w1 & Hget & Ht1 & Hb & Hr1 & He1).
  unfold Tools.check_abnormal_data, DatabaseAgent.check_abnormal_data,
    DatabaseAgent.check_abnormal_data_try, try_except, Observed.selected.
  unfold bind at 1. rewrite Hget. cbv zeta.
  set (b1 := str_in (lower tables) ["all"; "orders"]).
  set (b2 := str_in (lower tables) ["all"; "inventory"]).
  set (b3 := str_in (lower tables) ["all"; "transactions"; "transaction_log"]).
  assert (Hx : forall w0 s, engine w0 = engine w -> execute_error (engine w0) s = None).
  { intros w0 s ->. apply Hall. }
  destruct (@conditional_check b1 SNegativeOrders "orders"
              "Negative order amounts detected" "HIGH" w1 Hr1 (Hx _ _ He1))
    as (ev1 & w2 & Hq1 & Ht2 & Hx1 & Hr2 & He2).
  rewrite He1 in He2.
  destruct (@conditional_check b2 SExcessiveInventory "inventory"
              "Stock count exceeds maximum threshold" "MEDIUM" w2 Hr2 (Hx _ _ He2))
    as (ev2 & w3 & Hq2 & Ht3 & Hx2 & Hr3 & He3).
  rewrite He2 in He3.
  destruct (@conditional_check b3 SNegativeTransactions "transaction_log"
              "Large negative transactions detected" "HIGH" w3 Hr3 (Hx _ _ He3))
    as (ev3 & w4 & Hq3 & Ht4 & Hx3 & Hr4 & He4).
  unfold bind at 1. rewrite Hq1.
  unfold bind at 1. rewrite Hq2.
  unfold bind at 1. rewrite Hq3.
  rewrite He1, He2, He3.
  assert (Htrace : trace w4 = (trace w ++ boot ++ ev1 ++ ev2 ++ ev3)%list).
  { rewrite Ht4, Ht3, Ht2, Ht1. repeat rewrite <- app_assoc. reflexivity. }
  assert (Hexec : Observed.executed (boot ++ ev1 ++ ev2 ++ ev3)
                  = ((if b1 then [SNegativeOrders] else [])
                     ++ (if b2 then [SExcessiveInventory] else [])
                     ++ (if b3 then [SNegativeTransactions] else []))%list).
  { repeat rewrite executed_app. rewrite Hb, Hx1, Hx2, Hx3. reflexivity. }
  clear Hq1 Hq2 Hq3.
  remember (DatabaseConnection.answer (engine w) SNegativeOrders) as r1 eqn:E1.
  remember (DatabaseConnection.answer (engine w) SExcessiveInventory) as r2 eqn:E2.
  remember (DatabaseConnection.answer (engine w) SNegativeTransactions) as r3 eqn:E3.
  destruct b1, b2, b3; destruct r1 as [|x1 l1]; destruct r2 as [|x2 l2];
    destruct r3 as [|x3 l3]; simpl;
    (eexists; exists (boot ++ ev1 ++ ev2 ++ ev3)%list; exists w4;
     split; [reflexivity|]; split; [exact Htrace|]; split; [exact Hexec|];
     split; [reflexivity|];
     split;
     [ intros Heq; unfold Terms.normal_envelope in Heq; try discriminate Heq;
       intros s Hin; simpl in Hin;
       repeat (destruct Hin as [<- | Hin]; [symmetry; assumption|]); destruct Hin
     | intros Hempty; try reflexivity; exfalso;
       first
         [ assert (Hs : DatabaseConnection.answer (engine w) SNegativeOrders = [])
             by (apply Hempty; simpl; tauto); congruence
         | assert (Hs : DatabaseConnection.answer (engine w) SExcessiveInventory = [])
             by (apply Hempty; simpl; tauto); congruence
         | assert (Hs : DatabaseConnection.answer (engine w) SNegativeTransactions = [])
             by (apply Hempty; simpl; tauto); congruence ] ]).
Qed.

Lemma abnormal_scan_follows_scope_witness :
  exists v evs w',
    Tools.check_abnormal_data "Orders" (Examples.fresh Examples.idle) = (Ok v, w') /\
    Observed.executed evs = [SNegativeOrders] /\
    v = Terms.normal_envelope "Orders".
Proof.
  assert (Hh : Observed.healthy (Examples.fresh Examples.idle)).
  { split; [|reflexivity]. repeat split. intros c Hc. discriminate. }
  destruct (@abnormal_scan_follows_scope "Orders" (Examples.fresh Examples.idle) Hh)
    as (v & evs & w' & Hrun & _ & Hexec & _ & Hnormal).
  exists v, evs, w'. split; [exact Hrun|]. split; [exact Hexec|].
  apply Hnormal. intros s Hin. vm_compute in Hin. destruct Hin as [<- | []].
  reflexivity.
Defined.

Section ReportFacts.
Import Observed DatabaseConnection DatabaseAgent.

Lemma comprehension_length {A B} (f : A -> result B) l ys :
  comprehension f l = Ok ys -> List.length ys = List.length l.
Proof.
  revert ys. induction l as [|x l IH]; simpl; intros ys H.
  - inversion H. reflexivity.
  - destruct (f x) as [y|e]; simpl in H; [|discriminate].
    destruct (comprehension f l) as [zs|e]; simpl in H; [|discriminate].
    inversion H. simpl. f_equal. apply IH. reflexivity.
Qed.

Lemma comprehension_returns {A B} (f : A -> result B) l :
  (forall x, In x l -> exists y, f x = Ok y) ->
  exists ys, comprehension f l = Ok ys.
Proof.
  induction l as [|x l IH]; simpl; intros H; [eauto|].
  destruct (H x (or_introl eq_refl)) as (y & ->).
  destruct IH as (ys & ->); [intros z Hz; apply H; right; exact Hz|].
  simpl. eauto.
Qed.

Lemma comprehension_raises {A B} (f : A -> result B) l e :
  (forall x, In x l -> (exists y, f x = Ok y) \/ f x = Raise e) ->
  (exists x, In x l /\ f x = Raise e) ->
  comprehension f l = Raise e.
Proof.
  induction l as [|x l IH]; simpl; intros Hall (z & Hz & Hf); [destruct Hz|].
  destruct (Hall x (or_introl eq_refl)) as [(y & Hy) | Hx].
  - rewrite Hy. simpl. rewrite IH; [reflexivity | auto |].
    destruct Hz as [-> | Hz]; [congruence|]. eauto.
  - rewrite Hx. reflexivity.
Qed.

(** One entry of ["transactions"], from the row of an edge. *)
Lemma transaction_of_edge e blocked blocking :
  transaction_of (convert_decimals (Detector.select_row e blocked blocking))
  = match query_start blocked with
    | Some t =>
        Ok (PDict [ "blocked_session" :-> PInt (pid blocked);
                    "blocked_query" :-> convert_decimals (Detector.opt_str (query blocked));
                    "blocking_session" :-> PInt (pid blocking);
                    "blocking_query" :-> convert_decimals (Detector.opt_str (query blocking));
                    "wait_time_ms" :-> PFloat (round2 ((now e - t) # 1000)) ])
    | None => Raise no_round
    end.
Proof.
  unfold transaction_of, Detector.select_row, Detector.wait_time_ms, no_round.
  destruct (query_start blocked); reflexivity.
Qed.

Lemma check_deadlocks_runs w :
  healthy w ->
  exists pre w2,
    (get_db_connection ;; check_deadlocks) w
    = (Ok (map convert_decimals (Detector.deadlock_query (engine w))), w2) /\
    executed pre = [] /\
    trace w2 = (trace w ++ pre
                ++ [ECursor; EExecute SDeadlocks; ECommit; ECursorClose])%list.
Proof.
  intros (Hr & Hall).
  destruct (get_db_connection_reachable Hr) as (boot & w1 & Hget & Ht1 & Hb & Hr1 & He1).
  assert (He' : execute_error (engine w1) SDeadlocks = None) by (rewrite He1; apply Hall).
  destruct (@with_cursor_runs _ _ _ _ _ Hr1
              (fun w0 => @fetch_body _ (map convert_decimals) SDeadlocks w1 w0 He'))
    as (w2 & Hrun & Ht2 & _).
  exists (boot ++ connecting w1)%list, w2.
  unfold bind at 1. rewrite Hget. unfold check_deadlocks. rewrite Hrun.
  simpl. rewrite He1. split; [reflexivity|]. split.
  - rewrite executed_app, Hb, executed_connecting. reflexivity.
  - rewrite Ht2, Ht1. repeat rewrite <- app_assoc. reflexivity.
Qed.

Lemma deadlock_try_unfold input w :
  check_deadlock_try input w
  = bind (get_db_connection ;; check_deadlocks)
      (fun deadlocks =>
         match deadlocks with
         | _ :: _ =>
             transactions <- lift (comprehension transaction_of deadlocks) ;;
             ret (PDict [ "success" :-> PBool true;
                          "input" :-> PStr input;
                          "deadlocks_detected" :-> PBool true;
                          "status" :-> PStr "ACTIVE DEADLOCK DETECTED";
                          "deadlock_count" :-> len deadlocks;
                          "transactions" :-> PList transactions;
                          "recommendation" :-> PStr
     "Review blocking queries and consider terminating long-running transactions" ])
         | [] =>
             ret (PDict [ "success" :-> PBool true;
                          "input" :-> PStr input;
                          "deadlocks_detected" :-> PBool false;
                          "status" :-> PStr "NO ACTIVE DEADLOCK";
                          "message" :-> PStr "No deadlocks or blocking sessions detected" ])
         end) w.
Proof.
  unfold check_deadlock_try, bind.
  destruct (get_db_connection w) as [[[]|e] w1]; reflexivity.
Qed.

End ReportFacts.

(** X15.  On an engine that injects no failure and whose sessions all have a
    [query_start], the report of [check_deadlock] follows the edges of
    [check_deadlocks]: NO ACTIVE DEADLOCK when there is none, and otherwise
    ACTIVE DEADLOCK DETECTED with [deadlock_count] the number of edges and
    one entry of [transactions] per edge. *)
Theorem deadlock_report_counts_edges (w : world) :
  Observed.healthy w ->
  (forall s, In s (pg_stat_activity (engine w)) -> query_start s <> None) ->
  exists v w',
    Tools.check_deadlock w = (Ok v, w') /\
    (Detector.deadlock_query (engine w) = [] ->
       Terms.field "status" v = Some (PStr "NO ACTIVE DEADLOCK") /\
       Terms.field "deadlocks_detected" v = Some (PBool false)) /\
    (Detector.deadlock_query (engine w) <> [] ->
       Terms.field "status" v = Some (PStr "ACTIVE DEADLOCK DETECTED") /\
       Terms.field "deadlock_count" v
       = Some (PInt (Z.of_nat (List.length (Detector.deadlock_query (engine w))))) /\
       exists txs, Terms.field "transactions" v = Some (PList txs) /\
                   List.length txs = List.length (Detector.deadlock_query (engine w))).
Proof.
  intros Hh Hstart.
  destruct (check_deadlocks_runs Hh) as (pre & w2 & Hrun & _).
  assert (Hall : exists txs,
             DatabaseAgent.comprehension DatabaseAgent.transaction_of
               (map convert_decimals (Detector.deadlock_query (engine w))) = Ok txs).
  { apply comprehension_returns. intros x Hx.
    apply in_map_iff in Hx. destruct Hx as (row & <- & Hrow).
    apply in_deadlock_query in Hrow.
    destruct Hrow as (blocked & blocking & (Hin & _) & ->).
    rewrite transaction_of_edge.
    destruct (query_start blocked) eqn:E; [eauto|].
    exfalso. exact (Hstart blocked Hin E). }
  destruct Hall as (txs & Htxs).
  pose proof (comprehension_length _ _ Htxs) as Hlen.
  rewrite length_map in Hlen.
  unfold Tools.check_deadlock, DatabaseAgent.check_deadlock, try_except.
  rewrite deadlock_try_unfold. unfold bind at 1. rewrite Hrun.
  destruct (Detector.deadlock_query (engine w)) as [|r rows].
  - simpl. eexists. eexists. split; [reflexivity|]. split.
    + intros _. split; reflexivity.
    + intros H. exfalso. apply H. reflexivity.
  - cbn [map]. cbn [map] in Htxs. unfold bind at 1, lift. rewrite Htxs.
    unfold ret. eexists. eexists. split; [reflexivity|]. split.
    + intros H. discriminate H.
    + intros _. split; [reflexivity|]. split.
      * unfold Terms.field, DatabaseAgent.len. simpl assoc. rewrite length_map.
        reflexivity.
      * exists txs. split; [reflexivity | exact Hlen].
Qed.

Lemma deadlock_report_counts_edges_witness :
  exists v w',
    Tools.check_deadlock (Examples.fresh Examples.two_waiters) = (Ok v, w') /\
    Terms.field "deadlock_count" v = Some (PInt 2).
Proof.
  assert (Hh : Observed.healthy (Examples.fresh Examples.two_waiters)).
  { split; [|reflexivity]. repeat split. intros c Hc. discriminate. }
  assert (Hs : forall s, In s (pg_stat_activity (engine (Examples.fresh Examples.two_waiters))) ->
                         query_start s <> None).
  { intros s [<- | [<- | [<- | []]]]; discriminate. }
  destruct (@deadlock_report_counts_edges (Examples.fresh Examples.two_waiters) Hh Hs)
    as (v & w' & Hrun & _ & Hactive).
  exists v, w'. split; [exact Hrun|].
  refine (proj1 (proj2 (Hactive _))). vm_compute. discriminate.
Defined.

(** X16.  An edge whose blocked session has no [query_start] makes
    [check_deadlock] fail: [wait_time_ms] is [None], [round(None, 2)] raises
    [TypeError], and the answer is the failure envelope, after the blocking
    query was executed and committed. *)
Theorem deadlock_report_fails_on_null_query_start
  (w : world) (blocked blocking : pg_session) :
  Observed.healthy w ->
  In (Detector.select_row (engine w) blocked blocking)
     (Detector.deadlock_query (engine w)) ->
  query_start blocked = None ->
  exists pre w',
    Tools.check_deadlock w = (Ok (Terms.failure_envelope Observed.no_round), w') /\
    Observed.executed pre = [] /\
    trace w'
    = (trace w ++ pre
       ++ [ ECursor; EExecute SDeadlocks; ECommit; ECursorClose;
            ELogError ("Deadlock check error: " ++ str_exn Observed.no_round) ])%list.
Proof.
  intros Hh Hin Hnull.
  destruct (check_deadlocks_runs Hh) as (pre & w2 & Hrun & Hpre & Ht).
  assert (Hraise : DatabaseAgent.comprehension DatabaseAgent.transaction_of
                     (map convert_decimals (Detector.deadlock_query (engine w)))
                   = Raise Observed.no_round).
  { apply comprehension_raises.
    - intros x Hx. apply in_map_iff in Hx. destruct Hx as (row & <- & Hrow).
      apply in_deadlock_query in Hrow. destruct Hrow as (b1 & b2 & _ & ->).
      rewrite transaction_of_edge. destruct (query_start b1); [left; eauto | right; reflexivity].
    - exists (convert_decimals (Detector.select_row (engine w) blocked blocking)).
      split; [apply in_map; exact Hin|].
      rewrite transaction_of_edge, Hnull. reflexivity. }
  unfold Tools.check_deadlock, DatabaseAgent.check_deadlock, try_except.
  rewrite deadlock_try_unfold. unfold bind at 1. rewrite Hrun.
  destruct (Detector.deadlock_query (engine w)) as [|r rows]; [destruct Hin|].
  cbn [map]. cbn [map] in Hraise. unfold bind at 1, lift. rewrite Hraise.
  rewrite failure_logged. exists pre. eexists. split; [reflexivity|].
  split; [exact Hpre|]. simpl. rewrite Ht. repeat rewrite <- app_assoc. reflexivity.
Qed.

Lemma deadlock_report_fails_on_null_query_start_witness :
  exists w',
    Tools.check_deadlock (Examples.fresh Observed.never_queried)
    = (Ok (Terms.failure_envelope Observed.no_round), w').
Proof.
  assert (Hh : Observed.healthy (Examples.fresh Observed.never_queried)).
  { split; [|reflexivity]. repeat split. intros c Hc. discriminate. }
  destruct (@deadlock_report_fails_on_null_query_start
              (Examples.fresh Observed.never_queried)
              {| pid := 202; usename := Some "dbagent"; query := None;
                 query_start := None |}
              (Examples.session_at 101 "SELECT * FROM orders WHERE order_id = 1 FOR UPDATE"
                                   4000000)
              Hh (or_introl eq_refl) eq_refl)
    as (pre & w' & Hrun & _).
  exists w'. exact Hrun.
Defined.

Section BatchReportFacts.
Import Observed DatabaseConnection DatabaseAgent.

Lemma batch_try_unfold hours limit w :
  check_batch_data_try hours limit w
  = bind (get_db_connection ;; execute_query (SBatchJobs hours limit) true)
      (fun batch_issues =>
         match batch_issues with
         | Some ((_ :: _) as issues) =>
             batch_ids <- lift (comprehension (fun b => getitem b "batch_id") issues) ;;
             error_breakdown <- execute_query (SBatchErrors batch_ids) true ;;
             failure_reasons_map <-
               lift (match error_breakdown with
                     | Some errors => build_failure_reasons [] errors
                     | None => Raise not_iterable
                     end) ;;
             enriched <- lift (comprehension (enrich failure_reasons_map) issues) ;;
             totals <- lift (failure_rate enriched) ;;
             let '(total_processed, total_failed, rate) := totals in
             ret (PDict [ "success" :-> PBool true;
                          "time_window_hours" :-> PInt hours;
                          "limit" :-> PInt limit;
                          "has_abnormal_data" :-> PBool true;
                          "status" :-> PStr "BATCH ISSUES DETECTED";
                          "total_batches_analyzed" :-> len enriched;
                          "total_records_processed" :-> total_processed;
                          "total_failed_records" :-> total_failed;
                          "failure_rate_percent" :-> rate;
                          "batch_details" :-> PList enriched;
                          "recommendations" :->
                            strs [ "Review batch processing logs";
                                   "Implement retry mechanism for transient failures";
                                   "Validate data before batch processing" ] ])
         | _ =>
             ret (PDict [ "success" :-> PBool true;
                          "time_window_hours" :-> PInt hours;
                          "limit" :-> PInt limit;
                          "has_abnormal_data" :-> PBool false;
                          "status" :-> PStr "NORMAL";
                          "message" :-> PStr ("No batch failures detected in last "
                                              ++ str_of_int hours ++ " hours") ])
         end) w.
Proof.
  unfold check_batch_data_try, bind.
  destruct (get_db_connection w) as [[[]|e] w1]; reflexivity.
Qed.

Lemma query_runs s w :
  healthy w ->
  exists pre w2,
    (get_db_connection ;; execute_query s true) w
    = (Ok (Some (map convert_decimals (answer (engine w) s))), w2) /\
    executed pre = [] /\
    trace w2 = (trace w ++ pre ++ [ECursor; EExecute s; ECommit; ECursorClose])%list.
Proof.
  intros (Hr & Hall).
  destruct (get_db_connection_reachable Hr) as (boot & w1 & Hget & Ht1 & Hb & Hr1 & He1).
  assert (He' : execute_error (engine w1) s = None) by (rewrite He1; apply Hall).
  destruct (@execute_query_runs _ _ Hr1 He') as (w2 & Hrun & Ht2 & _).
  exists (boot ++ connecting w1)%list, w2.
  unfold bind at 1. rewrite Hget, Hrun, He1. split; [reflexivity|]. split.
  - rewrite executed_app, Hb, executed_connecting. reflexivity.
  - rewrite Ht2, Ht1. repeat rewrite <- app_assoc. reflexivity.
Qed.

End BatchReportFacts.

(** X17.  On an engine that injects no failure [check_batch_data] reports
    NORMAL exactly when the query of the failed batch jobs returns no row,
    and then that query is the only statement executed: the error breakdown
    is not asked for. *)
Theorem batch_report_normal_iff_no_failed_job (hours limit : Z) (w : world) :
  Observed.healthy w ->
  exists v w',
    Tools.check_batch_data hours limit w = (Ok v, w') /\
    (Terms.field "status" v = Some (PStr "NORMAL") <->
     DatabaseConnection.answer (engine w) (SBatchJobs hours limit) = []) /\
    (DatabaseConnection.answer (engine w) (SBatchJobs hours limit) = [] ->
     exists pre,
       Observed.executed pre = [] /\
       trace w' = (trace w ++ pre
                   ++ [ ECursor; EExecute (SBatchJobs hours limit); ECommit;
                        ECursorClose ])%list).
Proof.
  intros Hh.
  destruct (query_runs (SBatchJobs hours limit) Hh) as (pre & w2 & Hrun & Hpre & Ht).
  destruct (guarded (DatabaseAgent.check_batch_data_try hours limit)
                    "Batch data check error" w) as (v & w' & Hg & Hm).
  unfold Tools.check_batch_data, DatabaseAgent.check_batch_data.
  destruct (DatabaseConnection.answer (engine w) (SBatchJobs hours limit))
    as [|row rows] eqn:Hrows.
  - unfold try_except in *. rewrite batch_try_unfold in *. unfold bind at 1 in Hg.
    unfold bind at 1 in Hm. unfold bind at 1. rewrite Hrun in *. simpl in *.
    eexists. eexists. split; [reflexivity|]. split.
    + split; reflexivity.
    + intros _. exists pre. split; [exact Hpre | exact Ht].
  - exists v, w'. split; [exact Hg|]. split.
    2:{ intros H. discriminate H. }
    split; [|intros H; discriminate H].
    intros Hstatus. exfalso.
    destruct (DatabaseAgent.check_batch_data_try hours limit w) as [[r|e] w1] eqn:Htry;
      simpl in Hm; subst v.
    2:{ simpl in Hstatus. discriminate. }
    rewrite batch_try_unfold in Htry. unfold bind at 1 in Htry. rewrite Hrun in Htry.
    cbn [map] in Htry.
    do 4 (apply bind_Ok in Htry; destruct Htry as (? & ? & _ & Htry); cbv beta in Htry).
    apply bind_Ok in Htry. destruct Htry as ([[tp tf] rate] & ? & _ & Htry).
    apply ret_Ok in Htry. destruct Htry as (-> & _). simpl in Hstatus. discriminate.
Qed.

Lemma batch_report_normal_iff_no_failed_job_witness :
  exists v w',
    Tools.check_batch_data 24 5 (Examples.fresh Examples.idle) = (Ok v, w') /\
    Terms.field "status" v = Some (PStr "NORMAL").
Proof.
  assert (Hh : Observed.healthy (Examples.fresh Examples.idle)).
  { split; [|reflexivity]. repeat split. intros c Hc. discriminate. }
  destruct (@batch_report_normal_iff_no_failed_job 24 5 (Examples.fresh Examples.idle) Hh)
    as (v & w' & Hrun & Hiff & _).
  exists v, w'. split; [exact Hrun|]. apply Hiff. reflexivity.
Defined.

Section ListingFacts.
Import Observed DatabaseConnection DatabaseAgent.

Lemma slow_queries_run w :
  healthy w ->
  exists pre w2,
    (get_db_connection ;; get_slow_queries 1000) w
    = (Ok (map convert_decimals (answer (engine w) (SSlowQueries 1000))), w2) /\
    executed pre = [] /\
    trace w2 = (trace w ++ pre
                ++ [ECursor; EExecute (SSlowQueries 1000); ECommit; ECursorClose])%list.
Proof.
  intros (Hr & Hall).
  destruct (get_db_connection_reachable Hr) as (boot & w1 & Hget & Ht1 & Hb & Hr1 & He1).
  assert (He' : execute_error (engine w1) (SSlowQueries 1000) = None)
    by (rewrite He1; apply Hall).
  destruct (@with_cursor_runs _ _ _ _ _ Hr1
              (fun w0 => @fetch_body _ (map convert_decimals) (SSlowQueries 1000)
                           w1 w0 He'))
    as (w2 & Hrun & Ht2 & _).
  exists (boot ++ connecting w1)%list, w2.
  unfold bind at 1. rewrite Hget. unfold get_slow_queries. rewrite Hrun, He1.
  split; [reflexivity|]. split.
  - rewrite executed_app, Hb, executed_connecting. reflexivity.
  - rewrite Ht2, Ht1. repeat rewrite <- app_assoc. reflexivity.
Qed.

Lemma listing_try_unfold input w :
  mentions_sql input = false ->
  check_query_response_time_try input w
  = bind (get_db_connection ;; get_slow_queries 1000)
      (fun slow_queries =>
         match slow_queries with
         | _ :: _ => ret (Terms.slow_queries_envelope input slow_queries)
         | [] => ret (Terms.no_slow_queries_envelope input)
         end) w.
Proof.
  intros H. unfold check_query_response_time_try. unfold mentions_sql in H.
  cbv zeta. rewrite H. unfold bind.
  destruct (get_db_connection w) as [[[]|e] w1]; reflexivity.
Qed.

End ListingFacts.

(** X18.  A request to [check_query_response_time] whose text holds none of
    select, update, delete, insert is not executed: on an engine that
    injects no failure the only statement is the listing of the queries
    slower than 1000 ms, whatever threshold the request gives; the status is
    SLOW QUERIES DETECTED exactly when the listing has a row and NORMAL
    exactly when it has none, and a threshold other than 1000 is only copied
    into [threshold_ms]. *)
Theorem text_input_lists_slow_queries
  (query : string) (threshold_ms : Q) (w : world) :
  Observed.healthy w ->
  Observed.mentions_sql query = false ->
  exists v pre w',
    Tools.check_query_response_time query threshold_ms w = (Ok v, w') /\
    Observed.executed pre = [] /\
    trace w' = (trace w ++ pre
                ++ [ ECursor; EExecute (SSlowQueries 1000); ECommit;
                     ECursorClose ])%list /\
    (Terms.field "status" v = Some (PStr "NORMAL") <->
     DatabaseConnection.answer (engine w) (SSlowQueries 1000) = []) /\
    (Terms.field "status" v = Some (PStr "SLOW QUERIES DETECTED") <->
     DatabaseConnection.answer (engine w) (SSlowQueries 1000) <> []) /\
    (Qeq_bool threshold_ms 1000 = false ->
     Terms.field "threshold_ms" v = Some (PFloat threshold_ms)).
Proof.
  intros Hh Htext.
  destruct (slow_queries_run Hh) as (pre & w2 & Hrun & Hpre & Ht).
  unfold Tools.check_query_response_time, DatabaseAgent.check_query_response_time,
    try_except.
  unfold bind at 1. rewrite (@listing_try_unfold query w Htext).
  unfold bind at 1. rewrite Hrun.
  destruct (DatabaseConnection.answer (engine w) (SSlowQueries 1000)) as [|row rows];
    destruct (Qeq_bool threshold_ms 1000); simpl;
    (eexists; exists pre; eexists; split; [reflexivity|];
     split; [exact Hpre|]; split; [exact Ht|]; simpl;
     repeat split; intros; try reflexivity; try discriminate; try congruence).
Qed.

Lemma text_input_lists_slow_queries_witness :
  exists v pre w',
    Tools.check_query_response_time "check" 250 (Examples.fresh Examples.idle)
    = (Ok v, w') /\
    Observed.executed pre = [] /\
    Terms.field "status" v = Some (PStr "NORMAL") /\
    Terms.field "threshold_ms" v = Some (PFloat 250).
Proof.
  assert (Hh : Observed.healthy (Examples.fresh Examples.idle)).
  { split; [|reflexivity]. repeat split. intros c Hc. discriminate. }
  destruct (@text_input_lists_slow_queries "check" 250 (Examples.fresh Examples.idle)
              Hh eq_refl)
    as (v & pre & w' & Hrun & Hpre & _ & Hnormal & _ & Hth).
  exists v, pre, w'. split; [exact Hrun|]. split; [exact Hpre|].
  split; [apply Hnormal; reflexivity | apply Hth; reflexivity].
Defined.

Section DictFacts.

Lemma key_eqb_str k k' : key_eqb (PStr k) k' = true -> k' = PStr k.
Proof.
  destruct k'; simpl; try discriminate.
  intros H. apply String.eqb_eq in H. congruence.
Qed.

Lemma assoc_set_same k v d : assoc (PStr k) (assoc_set (PStr k) v d) = Some v.
Proof.
  induction d as [|[k' v'] d IH]; cbn [assoc assoc_set].
  - simpl. rewrite String.eqb_refl. reflexivity.
  - destruct (key_eqb (PStr k) k') eqn:E; cbn [assoc]; rewrite E;
      [reflexivity | exact IH].
Qed.

Lemma assoc_set_other k k0 v d :
  k <> k0 -> assoc (PStr k) (assoc_set (PStr k0) v d) = assoc (PStr k) d.
Proof.
  intros Hne. induction d as [|[k' v'] d IH]; cbn [assoc assoc_set].
  - simpl. destruct (String.eqb_spec k k0); [contradiction | reflexivity].
  - destruct (key_eqb (PStr k0) k') eqn:E; cbn [assoc].
    + apply key_eqb_str in E. subst k'. simpl.
      destruct (String.eqb_spec k k0); [contradiction | reflexivity].
    + rewrite IH. reflexivity.
Qed.

End DictFacts.

(** X19.  Enriching a batch row (line 392) adds [failure_reasons], the
    reasons recorded for the row's [batch_id] or an empty dict, and leaves
    every other column as it was. *)
Theorem enrich_adds_failure_reasons
  (failure_reasons_map : list (pyval * pyval)) (batch v : pyval) :
  DatabaseAgent.enrich failure_reasons_map batch = Ok v ->
  (exists bid,
     getitem batch "batch_id" = Ok bid /\
     getitem v "failure_reasons"
     = Ok (match assoc bid failure_reasons_map with
           | Some reasons => reasons
           | None => PDict []
           end)) /\
  (forall k, k <> "failure_reasons" -> getitem v k = getitem batch k).
Proof.
  unfold DatabaseAgent.enrich. intros H.
  destruct (getitem batch "batch_id") as [bid|e] eqn:Hbid; simpl in H; [|discriminate].
  unfold dict_get in H. destruct (hashable bid); simpl in H; [|discriminate].
  destruct batch as [ | | | | | | |d]; try discriminate. simpl in H.
  inversion H; subst v; clear H. split.
  - exists bid. split; [reflexivity|]. unfold getitem. rewrite assoc_set_same.
    reflexivity.
  - intros k Hk. unfold getitem. rewrite assoc_set_other by exact Hk. reflexivity.
Qed.

Lemma enrich_adds_failure_reasons_witness :
  exists v,
    DatabaseAgent.enrich [] (hd PNone Examples.nothing_processed) = Ok v /\
    getitem v "failure_reasons" = Ok (PDict []) /\
    getitem v "failed_records" = Ok (PInt 4).
Proof.
  eexists. split; [vm_compute; reflexivity|].
  destruct (@enrich_adds_failure_reasons [] (hd PNone Examples.nothing_processed) _
              eq_refl) as ((bid & Hbid & Hreasons) & Hkeep).
  split.
  - exact Hreasons.
  - exact (Hkeep "failed_records" ltac:(discriminate)).
Defined.

(** Every path through a script, by the outcomes of its calls. *)
Ltac script_paths e :=
  cbv [Coordinator.script Coordinator.txn1 Coordinator.txn2 Coordinator.txn1_try
       Coordinator.txn2_try Coordinator.open_session Coordinator.finally
       Coordinator.except_psycopg2_Error Coordinator.execute Coordinator.commit
       Coordinator.rollback Coordinator.set_event Coordinator.wait_event
       Coordinator.close_cursor Coordinator.close_connection Coordinator.blocking
       Coordinator.set_transaction Coordinator.update_session Coordinator.act
       Coordinator.tbind Coordinator.tret Coordinator.spawn];
  repeat match goal with
         | |- context [e ?c] => destruct (e c) eqn:?; cbn
         | |- context [is_psycopg2_Error ?x] =>
             destruct (is_psycopg2_Error x) eqn:?; cbn
         end.

(** X20.  A transaction script requests its second row lock only after the
    handshake: whenever the second lock request was sent, the script had
    before connected, set the timeout, taken its first lock, set its own
    event, returned from the wait for the peer's event and slept; its own
    event is then set. *)
Theorem second_lock_follows_handshake
  (p : Coordinator.participant) (e : Coordinator.env) (b : Coordinator.barrier)
  (r : Coordinator.exit unit) (t' : Coordinator.thread) :
  Coordinator.script p e (Coordinator.spawn b) = (r, t') ->
  In (Coordinator.AExecute (Observed.second_lock p)) (Coordinator.actions t') ->
  exists rest,
    Coordinator.actions t' = (Observed.handshake p ++ rest)%list /\
    Coordinator.flag p (Coordinator.flags t') = true.
Proof.
  intros H Hin. destruct p; revert H; script_paths e;
    intros H; inversion H; subst r t'; clear H;
    cbn in Hin |- *;
    repeat (destruct Hin as [Hin | Hin]; [try discriminate Hin|]);
    try contradiction;
    (eexists; split; reflexivity).
Qed.

Lemma second_lock_follows_handshake_witness :
  let t' := snd (Coordinator.script Coordinator.T1 Examples.env_commit
                   (Coordinator.spawn Coordinator.cleared)) in
  exists rest,
    Coordinator.actions t' = (Observed.handshake Coordinator.T1 ++ rest)%list /\
    Coordinator.flag Coordinator.T1 (Coordinator.flags t') = true.
Proof.
  pose (run := Coordinator.script Coordinator.T1 Examples.env_commit
                 (Coordinator.spawn Coordinator.cleared)).
  pose proof (@second_lock_follows_handshake Coordinator.T1 Examples.env_commit
                Coordinator.cleared (fst run) (snd run) (surjective_pairing run)) as H.
  apply H. vm_compute. tauto.
Defined.

(** X21.  A transaction script that returns has ended its transaction: it
    is committed, after the full sequence of the try block, or rolled back,
    after a [psycopg2.Error] was printed and without any commit; in both
    cases cursor and connection are closed last. *)
Theorem returning_script_ends_its_transaction
  (p : Coordinator.participant) (e : Coordinator.env) (b : Coordinator.barrier)
  (t' : Coordinator.thread) :
  Coordinator.script p e (Coordinator.spawn b) = (Coordinator.Returns tt, t') ->
  exists s,
    Coordinator.sess t' = Some s /\
    ((Coordinator.transaction s = Coordinator.TxnCommitted /\
      Coordinator.actions t'
      = (Observed.handshake p
         ++ [ Coordinator.ACommit; Coordinator.ACursorClose;
              Coordinator.AConnectionClose ])%list)
     \/
     (Coordinator.transaction s = Coordinator.TxnRolledBack /\
      exists x done,
        is_psycopg2_Error x = true /\
        Coordinator.actions t'
        = (done ++ [ Coordinator.APrint
                       (Coordinator.report_rollback (Coordinator.label p) x);
                     Coordinator.ARollback; Coordinator.ACursorClose;
                     Coordinator.AConnectionClose ])%list /\
        ~ In Coordinator.ACommit done)).
Proof.
  intros H. destruct p; revert H; script_paths e;
    intros H; inversion H; subst t'; clear H;
    (eexists; split; [reflexivity|]; cbn;
     first
       [ left; split; reflexivity
       | right; split; [reflexivity|];
         match goal with
         | Hx : is_psycopg2_Error ?x = true
           |- exists y done, _ /\ ?l = _ /\ _ =>
             exists x, (firstn (List.length l - 4) l); cbn;
             split; [exact Hx|]; split; [reflexivity|];
             intros Hc; repeat (destruct Hc as [Hc | Hc]; [discriminate Hc|]);
             exact Hc
         end ]).
Qed.

Lemma returning_script_ends_its_transaction_witness :
  exists t' s,
    Coordinator.script Coordinator.T1 Examples.env_victim
      (Coordinator.spawn Coordinator.cleared) = (Coordinator.Returns tt, t') /\
    Coordinator.sess t' = Some s /\
    (Coordinator.transaction s = Coordinator.TxnCommitted \/
     Coordinator.transaction s = Coordinator.TxnRolledBack).
Proof.
  assert (Hrun : exists t',
             Coordinator.script Coordinator.T1 Examples.env_victim
               (Coordinator.spawn Coordinator.cleared) = (Coordinator.Returns tt, t')).
  { eexists. vm_compute. reflexivity. }
  destruct Hrun as (t' & Hrun).
  destruct (@returning_script_ends_its_transaction Coordinator.T1 Examples.env_victim
              Coordinator.cleared t' Hrun) as (s & Hs & Hcases).
  exists t', s. split; [exact Hrun|]. split; [exact Hs|].
  destruct Hcases as [(Hc & _) | (Hr & _)]; [left | right]; assumption.
Defined.

(** X22.  A transaction script sets only its own event: the peer's event is
    left as the script found it, every [set()] of the script is on its own
    event, and its own event is set at the end exactly when it was set
    before or the script got as far as its [set()]. *)
Theorem script_sets_only_its_own_event
  (p : Coordinator.participant) (e : Coordinator.env) (b : Coordinator.barrier)
  (r : Coordinator.exit unit) (t' : Coordinator.thread) :
  Coordinator.script p e (Coordinator.spawn b) = (r, t') ->
  Coordinator.flag (Observed.peer p) (Coordinator.flags t')
  = Coordinator.flag (Observed.peer p) b /\
  (forall q, In (Coordinator.ASet q) (Coordinator.actions t') -> q = p) /\
  Coordinator.flag p (Coordinator.flags t')
  = (Coordinator.flag p b
     || existsb (fun a => match Observed.sets a with Some _ => true | None => false end)
                (Coordinator.actions t'))%bool.
Proof.
  intros H. destruct b as [b1 b2]. destruct p; revert H; script_paths e;
    intros H; inversion H; subst r t'; clear H; cbn;
    (split; [reflexivity|]; split;
     [ intros q Hq; repeat (destruct Hq as [Hq | Hq]; [try discriminate Hq|]);
       try contradiction; inversion Hq; reflexivity
     | rewrite ?orb_false_r, ?orb_true_r; reflexivity ]).
Qed.

Lemma script_sets_only_its_own_event_witness :
  let t' := snd (Coordinator.script Coordinator.T2 Examples.env_commit
                   (Coordinator.spawn Coordinator.cleared)) in
  Coordinator.flag (Observed.peer Coordinator.T2) (Coordinator.flags t')
  = Coordinator.flag (Observed.peer Coordinator.T2) Coordinator.cleared.
Proof.
  pose (run := Coordinator.script Coordinator.T2 Examples.env_commit
                 (Coordinator.spawn Coordinator.cleared)).
  exact (proj1 (@script_sets_only_its_own_event Coordinator.T2 Examples.env_commit
                  Coordinator.cleared (fst run) (snd run) (surjective_pairing run))).
Defined.

Section JoinFacts.
Import Observed Coordinator.

(** How a script ends depends on the engine and the peer only. *)
Lemma exit_ignores_thread p e t1 t2 : fst (script p e t1) = fst (script p e t2).
Proof. destruct p; script_paths e; reflexivity. Qed.

Lemma terminates_any_events p e b : terminates p e b = terminates p e cleared.
Proof.
  unfold terminates. rewrite (exit_ignores_thread p e (spawn b) (spawn cleared)).
  reflexivity.
Qed.

Lemma join_ends p e c :
  stuck c = false ->
  stuck (join p e c) = negb (terminates p e cleared) /\
  (terminates p e cleared = true -> history (join p e c) = (history c ++ [Joined p])%list).
Proof.
  intros Hc. unfold join. rewrite terminates_any_events.
  destruct (terminates p e cleared); cbn.
  - split; [exact Hc | reflexivity].
  - split; [reflexivity | discriminate].
Qed.

End JoinFacts.

(** One round of a main thread that is not stuck. *)
Lemma round_outcome
  (r : Coordinator.round_env) (round_id : Z) (c : Coordinator.coordinator) :
  Coordinator.stuck c = false ->
  let c' := Coordinator.run_deadlock_round r round_id c in
  Coordinator.stuck c'
  = negb (Coordinator.terminates Coordinator.T1 (Coordinator.env1 r) Coordinator.cleared
          && Coordinator.terminates Coordinator.T2 (Coordinator.env2 r)
               Coordinator.cleared) /\
  (Coordinator.stuck c' = false ->
   exists seen,
     Coordinator.history c'
     = (Coordinator.history c
        ++ [ Coordinator.Print
               (Coordinator.newline ++ "=== ROUND "
                ++ Coordinator.str_of_int round_id ++ " ===");
             Coordinator.Clear Coordinator.T1; Coordinator.Clear Coordinator.T2;
             Coordinator.Launch Coordinator.T1 Coordinator.cleared;
             Coordinator.Launch Coordinator.T2 seen;
             Coordinator.Joined Coordinator.T1; Coordinator.Joined Coordinator.T2;
             Coordinator.Print
               ("=== END ROUND " ++ Coordinator.str_of_int round_id ++ " ===") ])%list).
Proof.
  intros Hc c'. subst c'. unfold Coordinator.run_deadlock_round. cbv zeta.
  rewrite (@next_not_stuck (Coordinator.record _) c Hc).
  rewrite (@next_not_stuck (Coordinator.clear Coordinator.T1)) by exact Hc.
  rewrite (@next_not_stuck (Coordinator.clear Coordinator.T2)) by exact Hc.
  rewrite (@next_not_stuck (Coordinator.start Coordinator.T1)) by exact Hc.
  rewrite (@next_not_stuck (if Coordinator.early r then _ else _)) by exact Hc.
  set (c5 := (if Coordinator.early r
              then Coordinator.signalled Coordinator.T1 (Coordinator.env1 r)
              else fun x => x) _).
  assert (H5 : Coordinator.stuck c5 = false /\
               Coordinator.history c5
               = (Coordinator.history c
                  ++ [ Coordinator.Print
                         (Coordinator.newline ++ "=== ROUND "
                          ++ Coordinator.str_of_int round_id ++ " ===");
                       Coordinator.Clear Coordinator.T1;
                       Coordinator.Clear Coordinator.T2;
                       Coordinator.Launch Coordinator.T1 Coordinator.cleared ])%list).
  { subst c5.
    destruct (Coordinator.early r);
      unfold Coordinator.signalled, Coordinator.start, Coordinator.clear,
        Coordinator.record;
      cbn [Coordinator.stuck Coordinator.events Coordinator.history
           Coordinator.with_flag Coordinator.lock1_acquired Coordinator.lock2_acquired];
      (split; [exact Hc|]); repeat rewrite <- app_assoc; reflexivity. }
  destruct H5 as (Hs5 & Hh5).
  rewrite (@next_not_stuck (Coordinator.start Coordinator.T2)) by exact Hs5.
  set (c6 := Coordinator.start Coordinator.T2 c5).
  assert (Hs6 : Coordinator.stuck c6 = false) by exact Hs5.
  assert (Hh6 : Coordinator.history c6
                = (Coordinator.history c5
                   ++ [Coordinator.Launch Coordinator.T2 (Coordinator.events c5)])%list)
    by reflexivity.
  rewrite (@next_not_stuck (Coordinator.join Coordinator.T1 _) c6 Hs6).
  destruct (@join_ends Coordinator.T1 (Coordinator.env1 r) c6 Hs6) as (Hs7 & Hh7).
  set (c7 := Coordinator.join Coordinator.T1 (Coordinator.env1 r) c6) in *.
  destruct (Coordinator.terminates Coordinator.T1 (Coordinator.env1 r) Coordinator.cleared).
  2:{ cbn in Hs7.
      rewrite (@next_stuck (Coordinator.join Coordinator.T2 _) c7 Hs7).
      rewrite (@next_stuck (Coordinator.record _) c7 Hs7).
      split; [exact Hs7|]. intros H. rewrite Hs7 in H. discriminate H. }
  cbn in Hs7. specialize (Hh7 eq_refl).
  rewrite (@next_not_stuck (Coordinator.join Coordinator.T2 _) c7 Hs7).
  destruct (@join_ends Coordinator.T2 (Coordinator.env2 r) c7 Hs7) as (Hs8 & Hh8).
  set (c8 := Coordinator.join Coordinator.T2 (Coordinator.env2 r) c7) in *.
  destruct (Coordinator.terminates Coordinator.T2 (Coordinator.env2 r) Coordinator.cleared).
  2:{ cbn in Hs8.
      rewrite (@next_stuck (Coordinator.record _) c8 Hs8).
      split; [exact Hs8|]. intros H. rewrite Hs8 in H. discriminate H. }
  cbn in Hs8. specialize (Hh8 eq_refl).
  rewrite (@next_not_stuck (Coordinator.record _) c8 Hs8).
  unfold Coordinator.record. cbn [Coordinator.stuck Coordinator.history].
  split; [exact Hs8|]. intros _. exists (Coordinator.events c5).
  rewrite Hh8, Hh7, Hh6, Hh5. repeat rewrite <- app_assoc. reflexivity.
Qed.


(** X23.  A round ends exactly when both scripts end: from a main thread
    that is not stuck, [run_deadlock_round] returns iff [txn1] and [txn2]
    both terminate (by return or by an exception), and then it has printed
    the banner, cleared both events, started both scripts before joining
    either, joined both and printed the closing banner. *)
Theorem round_ends_iff_both_scripts_end
  (r : Coordinator.round_env) (round_id : Z) (c : Coordinator.coordinator) :
  Coordinator.stuck c = false ->
  let c' := Coordinator.run_deadlock_round r round_id c in
  Coordinator.stuck c'
  = negb (Coordinator.terminates Coordinator.T1 (Coordinator.env1 r) Coordinator.cleared
          && Coordinator.terminates Coordinator.T2 (Coordinator.env2 r)
               Coordinator.cleared) /\
  (Coordinator.stuck c' = false ->
   exists seen,
     Coordinator.history c'
     = (Coordinator.history c
        ++ [ Coordinator.Print
               (Coordinator.newline ++ "=== ROUND "
                ++ Coordinator.str_of_int round_id ++ " ===");
             Coordinator.Clear Coordinator.T1; Coordinator.Clear Coordinator.T2;
             Coordinator.Launch Coordinator.T1 Coordinator.cleared;
             Coordinator.Launch Coordinator.T2 seen;
             Coordinator.Joined Coordinator.T1; Coordinator.Joined Coordinator.T2;
             Coordinator.Print
               ("=== END ROUND " ++ Coordinator.str_of_int round_id ++ " ===") ])%list).
Proof. exact (@round_outcome r round_id c). Qed.

Lemma round_ends_iff_both_scripts_end_witness :
  Coordinator.stuck
    (Coordinator.run_deadlock_round Examples.round_victim 1 Examples.after_a_round)
  = false.
Proof.
  exact (eq_trans
           (proj1 (@round_ends_iff_both_scripts_end Examples.round_victim 1
                     Examples.after_a_round eq_refl))
           ltac:(vm_compute; reflexivity)).
Defined.

Section MainFacts.
Import Observed Coordinator.

Lemma printed_app a b : printed (a ++ b) = (printed a ++ printed b)%list.
Proof.
  induction a as [|s a IH]; simpl; [reflexivity|].
  destruct s; simpl; rewrite IH; reflexivity.
Qed.

Lemma flat_map_shift {A} (f : Z -> list A) (id : Z) (n : nat) :
  flat_map (fun k => f (id + 1 + Z.of_nat k)) (seq 0 n)
  = flat_map (fun k => f (id + Z.of_nat k)) (seq 1 n).
Proof.
  rewrite <- seq_shift. rewrite flat_map_concat_map, flat_map_concat_map.
  rewrite map_map. f_equal. apply map_ext. intros k. f_equal. lia.
Qed.

Lemma main_from_prints (n : nat) (rounds : Z -> round_env) :
  (forall i p,
     terminates p (match p with T1 => env1 (rounds i) | T2 => env2 (rounds i) end)
                cleared = true) ->
  forall round_id c,
    stuck c = false ->
    stuck (main_from n rounds round_id c) = false /\
    printed (history (main_from n rounds round_id c))
    = (printed (history c)
       ++ flat_map (fun k => banners (round_id + Z.of_nat k)) (seq 0 n))%list.
Proof.
  intros Hall. induction n as [|n IH]; intros round_id c Hc.
  - simpl. rewrite app_nil_r. split; [exact Hc | reflexivity].
  - cbn [main_from].
    destruct (@round_outcome (rounds round_id) round_id c Hc) as (Hs & Hh).
    rewrite (Hall round_id T1), (Hall round_id T2) in Hs.
    cbn in Hs. destruct (Hh Hs) as (seen & Hhist).
    rewrite (@next_not_stuck (record Slept) _ Hs).
    set (c1 := record Slept _).
    assert (Hs1 : stuck c1 = false) by exact Hs.
    destruct (IH (round_id + 1) c1 Hs1) as (Hs' & Hp).
    split; [exact Hs'|]. rewrite Hp. subst c1. unfold record at 1.
    cbn [history]. rewrite Hhist.
    repeat rewrite printed_app. cbn [printed app].
    rewrite flat_map_shift. cbn [seq flat_map]. rewrite Z.add_0_r.
    unfold banners at 3. repeat rewrite <- app_assoc. reflexivity.
Qed.

End MainFacts.

(** X24.  [main] numbers the rounds from 1 without gaps: as long as the
    scripts of every round terminate, [n] turns of the loop print the
    banners of the rounds 1, ..., n in order, each round's closing banner
    before the next round's opening one, and the main thread is never stuck. *)
Theorem main_numbers_the_rounds_from_one
  (n : nat) (rounds : Z -> Coordinator.round_env) (c : Coordinator.coordinator) :
  Coordinator.stuck c = false ->
  (forall i p,
     Coordinator.terminates p
       (match p with
        | Coordinator.T1 => Coordinator.env1 (rounds i)
        | Coordinator.T2 => Coordinator.env2 (rounds i)
        end) Coordinator.cleared = true) ->
  let c' := Coordinator.main n rounds c in
  Coordinator.stuck c' = false /\
  Observed.printed (Coordinator.history c')
  = (Observed.printed (Coordinator.history c)
     ++ flat_map (fun k => Observed.banners (1 + Z.of_nat k)) (seq 0 n))%list.
Proof.
  intros Hc Hall. exact (@main_from_prints n rounds Hall 1 c Hc).
Qed.

Lemma main_numbers_the_rounds_from_one_witness :
  Observed.printed
    (Coordinator.history
       (Coordinator.main 2 (fun _ => Examples.round_victim) Examples.after_a_round))
  = [ Coordinator.newline ++ "=== ROUND 1 ==="; "=== END ROUND 1 ===";
      Coordinator.newline ++ "=== ROUND 2 ==="; "=== END ROUND 2 ===" ].
Proof.
  assert (Hall : forall (i : Z) p,
             Coordinator.terminates p
               (match p with
                | Coordinator.T1 => Coordinator.env1 Examples.round_victim
                | Coordinator.T2 => Coordinator.env2 Examples.round_victim
                end) Coordinator.cleared = true).
  { intros _ [|]; vm_compute; reflexivity. }
  exact (eq_trans
           (proj2 (@main_numbers_the_rounds_from_one 2 (fun _ => Examples.round_victim)
                     Examples.after_a_round eq_refl Hall))
           ltac:(vm_compute; reflexivity)).
Defined.
